(** * duck_server: the PostgreSQL / ClickHouse front-end of an embedded engine

    A shallow embedding of the protocol and dispatch layer (wire.go,
    message.go, pg_types.go, pg_conn.go, pg_auth.go, ch_server.go and the
    format helpers) together with the properties the specification states
    about it.

    Conventions.
    - A Go [string] is a [string] (a sequence of 8-bit characters); a Go
      [[]byte] is a [list byte].  [[]byte(s)] and [string(b)] are the two
      conversions of the standard library.
    - [int32] values are integers of [Z]; the places where Go wraps around
      are written with [int32].
    - A Go [error] is an [option string]: [None] is [nil].
    - A run-time panic is an outcome of its own, never an error value.
    - The engine, the hash functions and the float formatter are external
      collaborators; they are parameters of the model. *)

From Stdlib Require Import ZArith Lia List Ascii String Bool.
From Stdlib Require Import Strings.Byte DecimalString DecimalPos.
From Stdlib Require Import Floats.PrimFloat Uint63.
From stdpp Require Import base gmap strings list.
Import ListNotations.
Open Scope Z_scope.

(* ================================================================== *)
(** * Part I: the model *)
(* ================================================================== *)

(** ** The pieces of the Go standard library that the code calls *)

Module Go.

Definition error := option string.

(** [int32(z)]: two's complement wrap-around. *)
Definition int32 (z : Z) : Z := (z + 2147483648) mod 4294967296 - 2147483648.

Definition MaxInt64 : Z := 9223372036854775807.

Definition bytes_of (s : string) : list byte := list_byte_of_string s.
Definition string_of (b : list byte) : string := string_of_list_byte b.

(** [len(s)] *)
Definition len (s : string) : Z := Z.of_nat (String.length s).

(** [strings.HasPrefix(s, prefix)]: does [s] begin with [prefix]? *)
Definition HasPrefix (s prefix : string) : bool := String.prefix prefix s.

(** [strings.Contains(s, substr)] *)
Fixpoint Contains (s substr : string) : bool :=
  String.prefix substr s
  || match s with
     | EmptyString => false
     | String _ s' => Contains s' substr
     end.

(** [strings.Repeat(unit, n)] *)
Fixpoint Repeat (unit : string) (n : nat) : string :=
  match n with
  | O => EmptyString
  | S n' => unit +:+ Repeat unit n'
  end.

(** [s[:n]] and [s[n:]] for [0 <= n <= len(s)]. *)
Fixpoint take (n : nat) (s : string) : string :=
  match n, s with
  | S n', String c s' => String c (take n' s')
  | _, _ => EmptyString
  end.

Fixpoint drop (n : nat) (s : string) : string :=
  match n, s with
  | S n', String _ s' => drop n' s'
  | _, _ => s
  end.

(** [strings.ReplaceAll(s, old, new)] for a one-byte [old]. *)
Fixpoint ReplaceAll (s : string) (old : ascii) (new : string) : string :=
  match s with
  | EmptyString => EmptyString
  | String c s' =>
      if Ascii.eqb c old then new +:+ ReplaceAll s' old new
      else String c (ReplaceAll s' old new)
  end.

(** The longest prefix of [s] whose characters satisfy [p], and the rest. *)
Fixpoint span (p : ascii -> bool) (s : string) : string * string :=
  match s with
  | EmptyString => (EmptyString, EmptyString)
  | String c s' =>
      if p c then let '(a, b) := span p s' in (String c a, b)
      else (EmptyString, s)
  end.

Definition is_digit (c : ascii) : bool :=
  ((48 <=? N_of_ascii c) && (N_of_ascii c <=? 57))%N.

(** [strings.IndexByte(s, c)] as a split at the first [c]: [None] is the
    result [-1], [Some (before, from)] has [from] starting with [c]. *)
Fixpoint splitAtByte (c : ascii) (s : string) : option (string * string) :=
  match s with
  | EmptyString => None
  | String d s' =>
      if Ascii.eqb d c then Some (EmptyString, s)
      else match splitAtByte c s' with
           | Some (a, b) => Some (String d a, b)
           | None => None
           end
  end.

(** [strconv.FormatInt(z, 10)], also [String()] of [big.Int] and [%d]. *)
Definition FormatInt (z : Z) : string := NilZero.string_of_int (Z.to_int z).

(** The value of a string of decimal digits. *)
Fixpoint digits_value (acc : Z) (s : string) : Z :=
  match s with
  | EmptyString => acc
  | String c s' => digits_value (10 * acc + (Z.of_N (N_of_ascii c) - 48)) s'
  end.

(** [strconv.ParseInt(s, 10, 64)] on a non-empty string of digits, with the
    error dropped: on overflow the result is the largest [int64]. *)
Definition ParseInt_digits (s : string) : Z :=
  Z.min (digits_value 0 s) MaxInt64.

(** White space in the sense of [unicode.IsSpace], as [strings.TrimSpace]
    sees it in UTF-8 text: [\t \n \v \f \r], space, U+0085, U+00A0,
    U+1680, U+2000 to U+200A, U+2028, U+2029, U+202F, U+205F, U+3000.
    [skipSpace s] removes one such character from the front of [s]. *)
Definition isSpace (c : ascii) : bool :=
  let n := N_of_ascii c in ((9 <=? n) && (n <=? 13) || (n =? 32))%N.

Definition skipSpace (s : string) : option string :=
  match s with
  | String c s1 =>
      if isSpace c then Some s1 else
      match N_of_ascii c, s1 with
      | 194%N, String d s2 =>
          if ((N_of_ascii d =? 133) || (N_of_ascii d =? 160))%N
          then Some s2 else None
      | 225%N, String d (String e s3) =>
          if ((N_of_ascii d =? 154) && (N_of_ascii e =? 128))%N
          then Some s3 else None
      | 226%N, String d (String e s3) =>
          let x := N_of_ascii d in
          let y := N_of_ascii e in
          if ((x =? 128) && (((128 <=? y) && (y <=? 138)) || (y =? 168)
                             || (y =? 169) || (y =? 175))
              || (x =? 129) && (y =? 159))%N
          then Some s3 else None
      | 227%N, String d (String e s3) =>
          if ((N_of_ascii d =? 128) && (N_of_ascii e =? 128))%N
          then Some s3 else None
      | _, _ => None
      end
  | EmptyString => None
  end.

(** Is [strings.TrimSpace(s)] the empty string: is [s] white space only? *)
Fixpoint allSpace_fuel (fuel : nat) (s : string) : bool :=
  match s with
  | EmptyString => true
  | _ => match fuel with
         | O => false
         | S fuel' => match skipSpace s with
                      | Some s' => allSpace_fuel fuel' s'
                      | None => false
                      end
         end
  end.

Definition TrimSpace_is_empty (s : string) : bool :=
  allSpace_fuel (String.length s) s.

(** The same character at the end of a text, read backwards. *)
Definition skipSpaceRev (r : string) : option string :=
  match r with
  | String c r1 =>
      if isSpace c then Some r1 else
      match r1 with
      | String d r2 =>
          let x := N_of_ascii c in
          let y := N_of_ascii d in
          if ((y =? 194) && ((x =? 133) || (x =? 160)))%N then Some r2 else
          match r2 with
          | String e r3 =>
              let z := N_of_ascii e in
              if ((z =? 225) && (y =? 154) && (x =? 128)
                  || (z =? 226) && (y =? 128)
                     && (((128 <=? x) && (x <=? 138)) || (x =? 168)
                         || (x =? 169) || (x =? 175))
                  || (z =? 226) && (y =? 129) && (x =? 159)
                  || (z =? 227) && (y =? 128) && (x =? 128))%N
              then Some r3 else None
          | EmptyString => None
          end
      | EmptyString => None
      end
  | EmptyString => None
  end.

Fixpoint trim_fuel (skip : string -> option string) (fuel : nat) (s : string)
  : string :=
  match fuel with
  | O => s
  | S fuel' => match skip s with
               | Some s' => trim_fuel skip fuel' s'
               | None => s
               end
  end.

(** [strings.TrimSpace(s)] *)
Definition TrimSpace (s : string) : string :=
  let l := trim_fuel skipSpace (String.length s) s in
  String.rev (trim_fuel skipSpaceRev (String.length l) (String.rev l)).

(** [strings.Replace(s, old, new, 1)] for a non-empty [old]. *)
Fixpoint ReplaceFirst (old new s : string) : string :=
  if String.prefix old s then new +:+ drop (String.length old) s
  else match s with
       | EmptyString => EmptyString
       | String c s' => String c (ReplaceFirst old new s')
       end.

End Go.

#[global] Instance byte_eq_dec : EqDecision byte := Byte.byte_eq_dec.

(** ** A state monad with panics, for code that threads a connection *)

Inductive Outcome (S A : Type) : Type :=
| Ret (a : A) (s : S)
| Panic (msg : string) (s : S).
Arguments Ret {S A} a s.
Arguments Panic {S A} msg s.

Definition M (S A : Type) : Type := S -> Outcome S A.

Definition ret {S A} (a : A) : M S A := fun s => Ret a s.
Definition bind {S A B} (m : M S A) (k : A -> M S B) : M S B :=
  fun s => match m s with
           | Ret a s' => k a s'
           | Panic msg s' => Panic msg s'
           end.
Definition panic {S A} (msg : string) : M S A := fun s => Panic msg s.
Definition get {S} : M S S := fun s => Ret s s.
Definition modify {S} (f : S -> S) : M S unit := fun s => Ret tt (f s).

Notation "'do' x <- m ; k" := (bind m (fun x => k))
  (at level 10, x pattern, m at level 100, k at level 200).

(** ** Values of the engine and of the driver (database/sql/driver.Value, any) *)

(** [time.Time], as the fields its formatting reads. *)
Record Time := {
  Year : Z; Month : Z; Day : Z;
  Hour : Z; Minute : Z; Second : Z;
  Nanosecond : Z
}.

(** [duckdb.Decimal]: [Value] is the unscaled integer, [Scale] a [uint8]. *)
Record Decimal := { Width : nat; Scale : nat; Value : Z }.

(** The dynamic types the code switches on.  [VOther ty] stands for a value
    of any other Go type, named [ty], which every type switch sends to its
    default case. *)
#[warnings="-register-all"]
Inductive Val : Type :=
| VNil
| VBool (b : bool)
| VInt8 (z : Z)
| VInt16 (z : Z)
| VInt32 (z : Z)
| VInt64 (z : Z)
| VInt (z : Z)
| VFloat32 (f : float)
| VFloat64 (f : float)
| VString (s : string)
| VDecimal (d : Decimal)
| VTime (t : Time)
| VList (l : list Val)
| VOther (ty : string).

(** The float side of the standard library: [strconv.FormatFloat] with
    format ['f'] and precision [-1] at a bit size, and [Decimal.Float64]. *)
Record FloatLib := {
  FormatFloat : float -> Z -> string;
  DecimalFloat64 : Decimal -> float
}.

(** ** pg_types.go *)

Module PgTypes.

Record pgType := { Oid : Z; Name : string; Typlen : Z }.

Definition pgTypes : list pgType := [
  {| Oid := 16; Name := "bool"; Typlen := 0 |};
  {| Oid := 17; Name := "bytea"; Typlen := 0 |};
  {| Oid := 18; Name := "char"; Typlen := 0 |};
  {| Oid := 20; Name := "int8"; Typlen := 0 |};
  {| Oid := 21; Name := "int4"; Typlen := 0 |};
  {| Oid := 700; Name := "float4"; Typlen := 0 |};
  {| Oid := 701; Name := "float8"; Typlen := 0 |};
  {| Oid := 25; Name := "text"; Typlen := 0 |};
  {| Oid := 1700; Name := "numeric"; Typlen := 0 |};
  {| Oid := 1114; Name := "timestamp"; Typlen := 0 |}
].

(** The two tables [init] fills, in the order of [pgTypes]. *)
Definition oidTypeMap : gmap Z pgType :=
  foldl (fun m t => <[Oid t := t]> m) ∅ pgTypes.
Definition typeOidMap : gmap string Z :=
  foldl (fun m t => <[Name t := Oid t]> m) ∅ pgTypes.

(** A missing key gives the zero value of the element type. *)
Definition zero_pgType : pgType := {| Oid := 0; Name := EmptyString; Typlen := 0 |}.

Definition pgTypeFromOid (oid : Z) : pgType :=
  default zero_pgType (oidTypeMap !! oid).

Definition pgOidFromType (name : string) : Z :=
  default 0 (typeOidMap !! name).

Record pgValue := { typ : pgType; val : option (list byte) }.

(** Zero-padded decimal of a non-negative number, at least [width] wide. *)
Definition pad (width : nat) (z : Z) : string :=
  let d := Go.FormatInt z in
  Go.Repeat "0" (width - String.length d) +:+ d.

(** Drop the trailing zeros of a string of digits. *)
Definition trimZeros (d : string) : string :=
  String.rev ((fix go (s : string) : string :=
                 match s with
                 | String "0" s' => go s'
                 | _ => s
                 end) (String.rev d)).

(** [t.Format(layout)] for the layout [2006-01-02 15:04:05], followed when
    [frac] is set by [.999999]: up to six fractional digits, trailing
    zeros removed, nothing at all when the fraction is zero.  Years are
    those of four digits. *)
Definition Format (frac : bool) (t : Time) : string :=
  pad 4 (Year t) +:+ "-" +:+ pad 2 (Month t) +:+ "-" +:+ pad 2 (Day t)
  +:+ " " +:+ pad 2 (Hour t) +:+ ":" +:+ pad 2 (Minute t) +:+ ":"
  +:+ pad 2 (Second t)
  +:+ (if frac then
         let micro := Nanosecond t / 1000 in
         if micro =? 0 then EmptyString else "." +:+ trimZeros (pad 6 micro)
       else EmptyString).

Definition cstr (s : string) : list byte := Go.bytes_of s ++ [x00].

Section toPgValue.
Variable fl : FloatLib.

(** [toPgValue]: [inl] is the error of the default case. *)
Fixpoint toPgValue (v : Val) : string + pgValue :=
  match v with
  | VBool b =>
      inr {| typ := pgTypeFromOid 16;
             val := Some (if b then cstr "t" else cstr "f") |}
  | VInt8 z =>
      inr {| typ := pgTypeFromOid 18; val := Some (Go.bytes_of (Go.FormatInt z)) |}
  | VInt16 z =>
      inr {| typ := pgTypeFromOid 21; val := Some (Go.bytes_of (Go.FormatInt z)) |}
  | VInt32 z =>
      inr {| typ := pgTypeFromOid 21; val := Some (Go.bytes_of (Go.FormatInt z)) |}
  | VInt64 z =>
      inr {| typ := pgTypeFromOid 20; val := Some (Go.bytes_of (Go.FormatInt z)) |}
  | VFloat32 f =>
      inr {| typ := pgTypeFromOid 701;
             val := Some (Go.bytes_of (FormatFloat fl f 32)) |}
  | VFloat64 f =>
      inr {| typ := pgTypeFromOid 701;
             val := Some (Go.bytes_of (FormatFloat fl f 64)) |}
  | VString s =>
      inr {| typ := pgTypeFromOid 25; val := Some (Go.bytes_of s) |}
  | VNil =>
      inr {| typ := pgTypeFromOid 25; val := None |}
  | VDecimal d =>
      inr {| typ := pgTypeFromOid 1700;
             val := Some (Go.bytes_of (FormatFloat fl (DecimalFloat64 fl d) 64)) |}
  | VTime t =>
      inr {| typ := pgTypeFromOid 25;
             val := Some (Go.bytes_of (Format true t)) |}
  | VList l =>
      let fix elems (l : list Val) : string + list string :=
        match l with
        | [] => inr []
        | e :: l' =>
            match toPgValue e with
            | inl err => inl err
            | inr pv =>
                match elems l' with
                | inl err => inl err
                | inr res => inr (Go.string_of (default [] (val pv)) :: res)
                end
            end
        end in
      match elems l with
      | inl err => inl err
      | inr res =>
          inr {| typ := pgTypeFromOid 25;
                 val := Some (Go.bytes_of ("{" +:+ String.concat "," res +:+ "}")) |}
      end
  | VInt _ => inl "unsupported type int"
  | VOther ty => inl ("unsupported type " +:+ ty)
  end.
End toPgValue.

End PgTypes.

(** ** wire.go and message.go: frames and the wire codec *)

Module Wire.

(** Message type tags (message.go). *)
Definition BackendKeyData : byte := "K"%byte.
Definition Bind : byte := "B"%byte.
Definition BindComplete : byte := "2"%byte.
Definition CommandComplete : byte := "C"%byte.
Definition CopyData : byte := "d"%byte.
Definition CopyDone : byte := "c"%byte.
Definition CopyFail : byte := "f"%byte.
Definition CopyInResponse : byte := "G"%byte.
Definition DataRow : byte := "D"%byte.
Definition Describe : byte := "D"%byte.
Definition EmptyQueryResponse : byte := "I"%byte.
Definition ErrorResponse : byte := "E"%byte.
Definition Execute : byte := "E"%byte.
Definition NoData : byte := "n"%byte.
Definition ParameterDescription : byte := "t"%byte.
Definition ParameterStatus : byte := "S"%byte.
Definition Parse : byte := "P"%byte.
Definition ParseComplete : byte := "1"%byte.
Definition Query : byte := "Q"%byte.
Definition ReadyForQuery : byte := "Z"%byte.
Definition RowDescription : byte := "T"%byte.
Definition Sync : byte := "S"%byte.
Definition Terminate : byte := "X"%byte.
Definition Authentication : byte := "R"%byte.

Definition WireBufferSize : Z := 4096.

(** [Message].  [has_wire] is [m.wire != nil]; [buf] is [None] for a nil
    slice.  A body that [Read] places in the codec's reusable buffer is
    kept here by value: the only later write to that buffer is the next
    header, which [ReadMessage] follows by resetting [buf]. *)
Record Message := {
  has_wire : bool;
  buf : option (list byte);
  Length : Z;
  Typ : byte
}.

(** [Wire]: [rd] is what the peer still sends before closing, [lastMsg] the
    one message object the codec reuses, [sent] the frames written so
    far, oldest first, and [wr_left] how many more frames the transport
    accepts before writes fail ([None]: it never fails). *)
Record Wire := {
  rd : list byte;
  lastMsg : option Message;
  sent : list Message;
  wr_left : option nat
}.

Definition set_rd (r : list byte) (w : Wire) : Wire :=
  {| rd := r; lastMsg := lastMsg w; sent := sent w; wr_left := wr_left w |}.
Definition set_lastMsg (m : option Message) (w : Wire) : Wire :=
  {| rd := rd w; lastMsg := m; sent := sent w; wr_left := wr_left w |}.

Definition errEOF : string := "EOF".
Definition errUnexpectedEOF : string := "unexpected EOF".
Definition errClosed : string := "write: broken pipe".

(** [Wire.Read(p)] with [len(p) = n]: [io.ReadFull], all [n] bytes or an
    error after taking what was left. *)
Definition Read (n : nat) : M Wire (list byte * Go.error) :=
  fun w =>
    if (n <=? length (rd w))%nat then
      Ret (take n (rd w), None) (set_rd (drop n (rd w)) w)
    else
      Ret (rd w, Some (if (length (rd w) =? 0)%nat then errEOF
                       else errUnexpectedEOF))
          (set_rd [] w).

(** [io.CopyN(io.Discard, w, n)]: nothing is read for [n <= 0]; otherwise
    [n] bytes are read and dropped, in chunks, each by [Wire.Read]. *)
Definition discardN (n : Z) : M Wire Go.error :=
  if n <=? 0 then ret None
  else fun w =>
    if (Z.to_nat n <=? length (rd w))%nat then
      Ret None (set_rd (drop (Z.to_nat n) (rd w)) w)
    else
      Ret (Some (if Z.of_nat (length (rd w)) mod 8192 =? 0 then errEOF
                 else errUnexpectedEOF))
          (set_rd [] w).

(** [Message.Skip] of the codec's last message. *)
Definition Skip (m : Message) : M Wire Go.error :=
  if negb (has_wire m) || bool_decide (buf m <> None) then ret None
  else discardN (Go.int32 (Length m - 4)).

(** Big-endian [int32] of four bytes, as [ReadMessage] computes it. *)
Definition be_int32 (b1 b2 b3 b4 : byte) : Z :=
  Go.int32 (Z.lor (Z.of_N (Byte.to_N b4))
           (Z.lor (Z.shiftl (Z.of_N (Byte.to_N b3)) 8)
           (Z.lor (Z.shiftl (Z.of_N (Byte.to_N b2)) 16)
                  (Z.shiftl (Z.of_N (Byte.to_N b1)) 24)))).

(** [Wire.ReadMessage].  The message returned is the codec's [lastMsg]
    itself: later [MessageRead] calls act on that same object. *)
Definition ReadMessage : M Wire (option Message * Go.error) :=
  do w <- get;
  do skipErr <- match lastMsg w with
                | Some m => Skip m
                | None => ret None
                end;
  match skipErr with
  | Some e => ret (None, Some e)
  | None =>
      do r <- Read 5;
      match r with
      | (_, Some e) => ret (None, Some e)
      | ([t; b1; b2; b3; b4], None) =>
          let l := be_int32 b1 b2 b3 b4 in
          let m := match lastMsg w with
                   | Some m0 => {| has_wire := has_wire m0; buf := None;
                                   Length := l; Typ := t |}
                   | None => {| has_wire := true; buf := None;
                                Length := l; Typ := t |}
                   end in
          do _ <- modify (set_lastMsg (Some m));
          ret (Some m, None)
      | (_, None) => panic "index out of range"
      end
  end.

(** [Message.Read] on the codec's last message (the only messages with a
    wire).  The slice expression [m.wire.buf[:m.Length-4]] panics outside
    [0 .. WireBufferSize]. *)
Definition MessageRead : M Wire (option (list byte) * Go.error) :=
  do w <- get;
  match lastMsg w with
  | None => panic "no message"
  | Some m =>
      match buf m with
      | Some b => ret (Some b, None)
      | None =>
          if negb (has_wire m) then ret (None, None) else
          let n := Go.int32 (Length m - 4) in
          if (Length m <=? WireBufferSize + 4) && ((n <? 0) || (WireBufferSize <? n))
          then panic "slice bounds out of range"
          else
            do r <- Read (Z.to_nat n);
            match r with
            | (_, Some e) => ret (None, Some e)
            | (b, None) =>
                do _ <- modify (set_lastMsg
                        (Some {| has_wire := has_wire m; buf := Some b;
                                 Length := Length m; Typ := Typ m |}));
                ret (Some b, None)
            end
      end
  end.

(** [NewMessage(typ, payload)] *)
Definition NewMessage (typ : byte) (payload : option (list byte)) : Message :=
  {| has_wire := false; buf := payload;
     Length := Go.int32 (Z.of_nat (length (default [] payload)) + 4);
     Typ := typ |}.

(** [Wire.WriteMessage(msg)] for a message built by [NewMessage]: header
    and body go to the transport, or the transport reports an error. *)
Definition WriteMessage (msg : Message) : M Wire Go.error :=
  fun w =>
    match wr_left w with
    | Some O => Ret (Some errClosed) w
    | q =>
        Ret None {| rd := rd w; lastMsg := lastMsg w;
                    sent := sent w ++ [msg];
                    wr_left := match q with
                               | Some (S k) => Some k
                               | _ => None
                               end |}
    end.

(** The bytes a written frame puts on the wire ([Message.Write]). *)
Definition cint32 (i : Z) : list byte :=
  let u := i mod 4294967296 in
  map (fun k => default x00 (Byte.of_N (Z.to_N ((u / 2 ^ (8 * k)) mod 256))))
      [3; 2; 1; 0].

Definition cint16 (i : Z) : list byte :=
  let u := i mod 65536 in
  map (fun k => default x00 (Byte.of_N (Z.to_N ((u / 2 ^ (8 * k)) mod 256))))
      [1; 0].

Definition frame_bytes (m : Message) : list byte :=
  Typ m :: cint32 (Length m) ++ default [] (buf m).

(** *** Request parsers (message.go) *)

(** [bytes.IndexByte(b, c)]: [None] is the result [-1]. *)
Fixpoint IndexByte (b : list byte) (c : byte) : option nat :=
  match b with
  | [] => None
  | x :: b' => if bool_decide (x = c) then Some 0%nat
               else S <$> IndexByte b' c
  end.

(** [goString]: the text up to the first zero byte, or all of it. *)
Definition goString (b : list byte) : string :=
  match b with
  | [] => EmptyString
  | x :: _ =>
      if bool_decide (x = x00) then EmptyString
      else match IndexByte b x00 with
           | None => Go.string_of b
           | Some zeroIdx => Go.string_of (take zeroIdx b)
           end
  end.

(** [d[k:]]: [None] is the panic of a bound past the length. *)
Definition sliceFrom (k : nat) (d : list byte) : option (list byte) :=
  if (k <=? length d)%nat then Some (drop k d) else None.

(** The parsers take the codec's last message; [inl] is the error of
    [Message.Read]. *)
Definition ParseQueryMessage : M Wire (string + string) :=
  do r <- MessageRead;
  match r with
  | (_, Some e) => ret (inl e)
  | (d, None) => ret (inr (goString (default [] d)))
  end.

(** [ParseExecuteMessage]: the portal name and [MaxRows]. *)
Definition ParseExecuteMessage : M Wire (string + (string * Z)) :=
  do r <- MessageRead;
  match r with
  | (_, Some e) => ret (inl e)
  | (d, None) =>
      let d := default [] d in
      let portalName := goString d in
      match sliceFrom (String.length portalName + 1) d with
      | None => panic "slice bounds out of range"
      | Some (b1 :: b2 :: b3 :: b4 :: _) =>
          ret (inr (portalName, be_int32 b1 b2 b3 b4))
      | Some _ => panic "index out of range"
      end
  end.

(** [ParseDescribeMessage]: the kind byte and the name. *)
Definition ParseDescribeMessage : M Wire (string + (byte * string)) :=
  do r <- MessageRead;
  match r with
  | (_, Some e) => ret (inl e)
  | (d, None) =>
      match default [] d with
      | [] => panic "index out of range"
      | ty :: name => ret (inr (ty, goString name))
      end
  end.

(** *** The startup message (message.go) *)

Definition StartupMessageVersion : Z := 196608.

(** The loop of [StartUpMessage.Parse] over [m.Data[4:]]: [params] is that
    slice, [rest] what the loop still has to visit, from index [i]. *)
Fixpoint StartUpMessage_Parse_loop (params rest : list byte) (i lastIndex : nat)
         (currentKey : string) (Parameters : gmap string string)
  : gmap string string :=
  match rest with
  | [] => Parameters
  | c :: rest' =>
      if bool_decide (c = x00) then
        if (i =? lastIndex)%nat then Parameters
        else
          let text :=
            Go.string_of (take (i - lastIndex) (drop lastIndex params)) in
          if bool_decide (currentKey = EmptyString)
          then StartUpMessage_Parse_loop params rest' (S i) (S i) text Parameters
          else StartUpMessage_Parse_loop params rest' (S i) (S i) EmptyString
                                         (<[currentKey := text]> Parameters)
      else StartUpMessage_Parse_loop params rest' (S i) lastIndex currentKey
                                     Parameters
  end.

Inductive ParseResult :=
| Parsed (Version : Z) (Parameters : gmap string string)
| ParseError (err : string)
| ParsePanic (msg : string).

(** [StartUpMessage.Parse] on the data of the message; a version is read
    from four bytes or the read panics. *)
Definition StartUpMessage_Parse (Data : list byte) : ParseResult :=
  match Data with
  | b1 :: b2 :: b3 :: b4 :: params =>
      let Version := be_int32 b1 b2 b3 b4 in
      if Version =? StartupMessageVersion
      then Parsed Version
                  (StartUpMessage_Parse_loop params params 0 0 EmptyString ∅)
      else ParseError "invalid version"
  | _ => ParsePanic "index out of range"
  end.

End Wire.

(** ** pg_conn.go: the connection *)

Module PgConn.
Import Wire PgTypes.

(** *** The engine, as the connection sees it (database/sql/driver) *)

Record NamedValue := { nv_Name : string; Ordinal : Z; nv_Value : Val }.

(** [driver.Rows]: [Next] hands out the rows of [Data] one by one and then
    keeps returning [Final]: [None] is [io.EOF], [Some e] another error
    (a cancelled context among them). *)
Record Rows := {
  Columns : list string;
  Data : list (list Val);
  Final : Go.error
}.

(** [driver.Stmt].  [stmt_text] names the handle: the text it was prepared
    from. *)
Record Stmt := {
  stmt_text : string;
  NumInput : Z;
  QueryContext : list NamedValue -> string + Rows
}.

Inductive EngineCall :=
| CallPrepare (sql : string)
| CallQuery (text : string) (args : list NamedValue)
| CallClose (text : string)
| CallDescribe (probe : string).

Record stmtDesc := {
  query : string;
  stmt : option Stmt;
  columns : option (list (string * string));
  numInput : Z
}.

(** A portal points to its statement description; no field of a
    description is written after [Prepare] built it, except the [columns]
    cache of Describe, so the portal holds it by value. *)
Record portal := { p_stmt : stmtDesc; values : list Val }.

(** [PgConn].  [portals] is the field [portal] (the name is that of the
    type here); [cancel] is [c.cancel != nil]; [calls] records the calls
    made to the engine, oldest first. *)
Record PgConn := {
  wire : Wire;
  stmts : gmap string stmtDesc;
  portals : gmap string portal;
  cancel : bool;
  inError : bool;
  calls : list EngineCall
}.

Definition set_wire (w : Wire) (c : PgConn) : PgConn :=
  {| wire := w; stmts := stmts c; portals := portals c; cancel := cancel c;
     inError := inError c; calls := calls c |}.
Definition set_stmts (m : gmap string stmtDesc) (c : PgConn) : PgConn :=
  {| wire := wire c; stmts := m; portals := portals c; cancel := cancel c;
     inError := inError c; calls := calls c |}.
Definition set_portals (m : gmap string portal) (c : PgConn) : PgConn :=
  {| wire := wire c; stmts := stmts c; portals := m; cancel := cancel c;
     inError := inError c; calls := calls c |}.
Definition set_cancel (b : bool) (c : PgConn) : PgConn :=
  {| wire := wire c; stmts := stmts c; portals := portals c; cancel := b;
     inError := inError c; calls := calls c |}.
Definition set_inError (b : bool) (c : PgConn) : PgConn :=
  {| wire := wire c; stmts := stmts c; portals := portals c; cancel := cancel c;
     inError := b; calls := calls c |}.
Definition call (e : EngineCall) : M PgConn unit :=
  modify (fun c =>
    {| wire := wire c; stmts := stmts c; portals := portals c;
       cancel := cancel c; inError := inError c; calls := calls c ++ [e] |}).

(** Run a codec action on the connection's wire. *)
Definition onWire {A} (m : M Wire A) : M PgConn A :=
  fun c => match m (wire c) with
           | Ret a w => Ret a (set_wire w c)
           | Panic msg w => Panic msg (set_wire w c)
           end.

(** What the connection is given: the float formatter, the engine
    connection ([c.conn.Prepare]), the shared database handle behind the
    DESCRIBE probe and the credentials table, the server's auth switch,
    the three regular expressions that route a simple query before it
    reaches the engine (createUserRegexp with its two groups,
    testDiscardAllRegexp, copyInRegexp), and COPY IN, which takes over
    the connection. *)
Record Env := {
  fl : FloatLib;
  conn_Prepare : string -> string + Stmt;
  db_Describe : string -> string + list (string * string);
  enableAuth : bool;
  CreateUser : string -> string -> Go.error;
  GetPassword : string -> string + string;
  createUserRegexp : string -> option (string * string);
  testDiscardAllRegexp : string -> bool;
  copyInRegexp : string -> bool;
  CopyIn : string -> M PgConn Go.error
}.

(** *** Type names (the map next to the format helpers) *)

Definition duck2pgTypeMap : gmap string string :=
  list_to_map [
    ("BOOLEAN", "bool"); ("VARCHAR", "text"); ("INTEGER", "int4");
    ("BIGINT", "int8"); ("DOUBLE", "float8"); ("TIMESTAMP", "timestamp");
    ("DECIMAL", "numeric"); ("DATE", "date"); ("VARCHAR[]", "text")
  ].

(** [duck2pgType]: [None] is the panic of [logrus.Panicf]. *)
Definition duck2pgType (s : string) : option string := duck2pgTypeMap !! s.

(** *** The rewrite of the read-only probe *)

Definition showTransactionReadOnly : string := "show transaction_read_only".

(** [if strings.HasPrefix("show transaction_read_only", q) { q = "select 0" }] *)
Definition rewriteReadOnlyProbe (q : string) : string :=
  if Go.HasPrefix showTransactionReadOnly q then "select 0" else q.

(** *** Execute with many parameters *)

Definition maxInputArgsUsePrepared : Z := 20.

Inductive BindResult :=
| Bound (s : string)
| BindPanic (msg : string)
| BindFuel.

Section bindValues.
Variable fl : FloatLib.

(** One pass of the [for] loop of [bindValues] per unit of [fuel]; [rest]
    is [sql[lastIndex:]] and [sb] the builder. *)
Fixpoint bindValues_loop (fuel : nat) (rest : string) (args : list Val)
         (sb : string) : BindResult :=
  match fuel with
  | O => BindFuel
  | S fuel' =>
      match Go.splitAtByte "$" rest with
      | None => Bound (sb +:+ rest)
      | Some (before, seg) =>
          let sb := sb +:+ before in
          let '(digits, after) := Go.span Go.is_digit (Go.drop 1 seg) in
          if (String.length digits =? 0)%nat then
            bindValues_loop fuel' (Go.drop 1 seg) args (sb +:+ "$")
          else
            let valueIdx := Go.ParseInt_digits digits in
            if valueIdx >? Z.of_nat (length args) then
              bindValues_loop fuel' after args (sb +:+ "null")
            else if valueIdx <? 1 then BindPanic "index out of range [-1]"
            else
              match args !! Z.to_nat (valueIdx - 1) with
              | None => BindPanic "index out of range"
              | Some VNil =>
                  bindValues_loop fuel' after args (sb +:+ "null")
              | Some (VString vv) =>
                  bindValues_loop fuel' after args
                    (sb +:+ ("'" +:+ Go.ReplaceAll vv "'" "''" +:+ "'"))
              | Some (VInt64 vv) =>
                  bindValues_loop fuel' after args (sb +:+ Go.FormatInt vv)
              | Some (VFloat64 vv) =>
                  bindValues_loop fuel' after args (sb +:+ FormatFloat fl vv 64)
              | Some _ => BindPanic "unsupported bind type"
              end
      end
  end.

Definition bindValues (sql : string) (args : list Val) : BindResult :=
  bindValues_loop (S (String.length sql)) sql args EmptyString.
End bindValues.

(** *** Schema inference *)

(** [placeholderRegexp.ReplaceAllString(s, "null")] for the pattern
    [\$\d+]; [skip] counts the characters of a match still to pass. *)
Fixpoint replacePlaceholders (skip : nat) (s : string) : string :=
  match s with
  | EmptyString => EmptyString
  | String c s' =>
      match skip with
      | S k => replacePlaceholders k s'
      | O =>
          if Ascii.eqb c "$" then
            let '(d, _) := Go.span Go.is_digit s' in
            if (String.length d =? 0)%nat then String c (replacePlaceholders 0 s')
            else "null" +:+ replacePlaceholders (String.length d) s'
          else String c (replacePlaceholders 0 s')
      end
  end.

Section Conn.
Variable env : Env.

Definition inferStmtOutputNamesAndTypes (q : string)
  : M PgConn (string + list (string * string)) :=
  let probeQuery := "describe " +:+ replacePlaceholders 0 q in
  do _ <- call (CallDescribe probeQuery);
  ret (db_Describe env probeQuery).

(** *** Frames sent *)

Definition SendErrorResponse (errStr : string) : M PgConn Go.error :=
  do _ <- modify (set_inError true);
  let data := ["S"%byte] ++ cstr "ERROR" ++ ["C"%byte] ++ cstr "SQL-0000"
              ++ ["M"%byte] ++ cstr errStr ++ [x00] in
  onWire (WriteMessage (NewMessage ErrorResponse (Some data))).

Definition SendCommandComplete (tag : string) : M PgConn Go.error :=
  onWire (WriteMessage (NewMessage CommandComplete (Some (cstr tag)))).

Definition zeros (n : nat) : list byte := replicate n x00.

(** The body of [SendRowDescriptionWithColumnNameAndTypes]; [None] is the
    panic of [duck2pgType]. *)
Fixpoint typedColumnData (columns : list (string * string))
  : option (list byte) :=
  match columns with
  | [] => Some []
  | (name, ty) :: rest =>
      match duck2pgType ty with
      | None => None
      | Some pgname =>
          match typedColumnData rest with
          | None => None
          | Some tl =>
              Some (cstr name ++ zeros 6 ++ cint32 (pgOidFromType pgname)
                    ++ zeros 8 ++ tl)
          end
      end
  end.

Definition SendRowDescriptionWithColumnNameAndTypes
           (columns : list (string * string)) : M PgConn Go.error :=
  match typedColumnData columns with
  | None => panic "duck2pgType unsupported type"
  | Some body =>
      onWire (WriteMessage (NewMessage RowDescription
                (Some (cint16 (Z.of_nat (length columns)) ++ body))))
  end.

(** The loop of [SendRowDescription] over the column names, reading
    [firstRowValues[i]]: [inl] is a panic. *)
Fixpoint valueColumnData (i : nat) (columnNames : list string)
         (firstRowValues : list Val) : string + list byte :=
  match columnNames with
  | [] => inr []
  | name :: rest =>
      match firstRowValues !! i with
      | None => inl "index out of range"
      | Some v =>
          match toPgValue (fl env) v with
          | inl err => inl err
          | inr pgVal =>
              match valueColumnData (S i) rest firstRowValues with
              | inl err => inl err
              | inr tl =>
                  inr (cstr name ++ zeros 4 ++ zeros 2
                       ++ cint32 (Oid (typ pgVal)) ++ cint16 (Typlen (typ pgVal))
                       ++ zeros 4 ++ zeros 2 ++ tl)
              end
          end
      end
  end.

Definition textColumnData (columnNames : list string) : list byte :=
  flat_map (fun name => cstr name ++ zeros 4 ++ zeros 2
                        ++ [x00; x00; x00; x19] ++ zeros 2 ++ zeros 4 ++ zeros 2)
           columnNames.

Definition SendRowDescription (columnNames : list string)
           (firstRowValues : option (list Val)) : M PgConn Go.error :=
  let count := cint16 (Z.of_nat (length columnNames)) in
  match firstRowValues with
  | None =>
      onWire (WriteMessage (NewMessage RowDescription
                (Some (count ++ textColumnData columnNames))))
  | Some vs =>
      match valueColumnData 0 columnNames vs with
      | inl msg => panic msg
      | inr body =>
          onWire (WriteMessage (NewMessage RowDescription (Some (count ++ body))))
      end
  end.

(** The body of a DataRow; [inl] is the error [toPgValue] returns. *)
Fixpoint rowData (vs : list Val) : string + list byte :=
  match vs with
  | [] => inr []
  | v :: rest =>
      let cell : string + list byte :=
        match v with
        | VNil => inr (cint32 (-1))
        | _ => match toPgValue (fl env) v with
               | inl err => inl err
               | inr pgVal =>
                   match val pgVal with
                   | None => inr (cint32 (-1))
                   | Some b => inr (cint32 (Z.of_nat (length b)) ++ b)
                   end
               end
        end in
      match cell with
      | inl err => inl err
      | inr d => match rowData rest with
                 | inl err => inl err
                 | inr tl => inr (d ++ tl)
                 end
      end
  end.

Definition SendRowData (vs : list Val) : M PgConn Go.error :=
  match rowData vs with
  | inl err => ret (Some err)
  | inr body =>
      onWire (WriteMessage (NewMessage DataRow
                (Some (cint16 (Z.of_nat (length vs)) ++ body))))
  end.

Definition SendEmptyQueryResponse : M PgConn Go.error :=
  onWire (WriteMessage (NewMessage EmptyQueryResponse (Some []))).

(** *** RunStmt *)

Definition rowCountTag (rowCount : Z) : string :=
  "(" +:+ Go.FormatInt rowCount +:+ " row)".

(** The final [for] loop of [RunStmt] over the rows still to come. *)
Fixpoint streamRows (data : list (list Val)) (final : Go.error)
         (rowCount : Z) : M PgConn Go.error :=
  match data with
  | [] =>
      match final with
      | None => SendCommandComplete (rowCountTag rowCount)
      | Some e => SendErrorResponse e
      end
  | rowValues :: rest =>
      do err <- SendRowData rowValues;
      match err with
      | Some e => SendErrorResponse e
      | None => streamRows rest final (rowCount + 1)
      end
  end.

Definition namedValues (vs : list Val) : list NamedValue :=
  imap (fun i v => {| nv_Name := EmptyString; Ordinal := Z.of_nat i + 1; nv_Value := v |}) vs.

Definition RunStmt (st : option Stmt) (vs : list Val) (sendRowDesc : bool)
           (q : string) : M PgConn Go.error :=
  match st with
  | None => SendEmptyQueryResponse
  | Some st =>
      let nv := namedValues vs in
      do _ <- call (CallQuery (stmt_text st) nv);
      match QueryContext st nv with
      | inl err => SendErrorResponse err
      | inr rows =>
          let columnNames := Columns rows in
          if sendRowDesc then
            match Data rows, Final rows with
            | [], None =>
                do types <- inferStmtOutputNamesAndTypes q;
                match types with
                | inl err => SendErrorResponse err
                | inr types =>
                    do err <- SendRowDescriptionWithColumnNameAndTypes types;
                    match err with
                    | Some e => SendErrorResponse e
                    | None => SendCommandComplete "(0 row)"
                    end
                end
            | [], Some e => SendErrorResponse e
            | rowValues :: rest, final =>
                do err <- SendRowDescription columnNames (Some rowValues);
                match err with
                | Some e => SendErrorResponse e
                | None =>
                    do err <- SendRowData rowValues;
                    match err with
                    | Some e => SendErrorResponse e
                    | None => streamRows rest final 1
                    end
                end
            end
          else streamRows (Data rows) (Final rows) 0
      end
  end.

(** *** Simple query *)

Definition DiscardAll : M PgConn Go.error :=
  do _ <- modify (set_portals ∅);
  do _ <- modify (fun c =>
            {| wire := wire c; stmts := ∅; portals := portals c;
               cancel := cancel c; inError := inError c;
               calls := calls c
                        ++ omap (fun d => (fun s => CallClose (stmt_text s)) <$> stmt d)
                                (map snd (map_to_list (stmts c))) |});
  SendCommandComplete "DISCARD ALL".

Definition SimpleQuery_run (q : string) : M PgConn Go.error :=
  let createUser :=
    if enableAuth env then createUserRegexp env q else None in
  match createUser with
  | Some (user, password) =>
      match CreateUser env user password with
      | Some e => SendErrorResponse e
      | None => SendCommandComplete "CREATE USER"
      end
  | None =>
      if Go.TrimSpace_is_empty q then SendEmptyQueryResponse
      else if testDiscardAllRegexp env q then DiscardAll
      else if copyInRegexp env q then CopyIn env q
      else
        let q := rewriteReadOnlyProbe q in
        do _ <- modify (set_cancel true);
        do _ <- call (CallPrepare q);
        do err <-
          match conn_Prepare env q with
          | inl e =>
              if Go.Contains e "No statement to prepare"
              then SendEmptyQueryResponse
              else SendErrorResponse e
          | inr st =>
              do err <- RunStmt (Some st) [] true q;
              do _ <- call (CallClose (stmt_text st));
              ret err
          end;
        do _ <- modify (set_cancel false);
        ret err
  end.

(** [SimpleQuery]: the deferred [c.inError = false] runs last. *)
Definition SimpleQuery (q : string) : M PgConn Go.error :=
  do err <- SimpleQuery_run q;
  do _ <- modify (set_inError false);
  ret err.

(** *** Extended query: Parse, Bind, Execute *)

Definition SendParseComplete : M PgConn Go.error :=
  onWire (WriteMessage (NewMessage ParseComplete (Some []))).

Definition Prepare (name sql : string) : M PgConn Go.error :=
  if bool_decide (sql = EmptyString) then
    do _ <- modify (fun c =>
              set_stmts (<[name := {| query := sql; stmt := None;
                                      columns := None; numInput := 0 |}]>
                         (stmts c)) c);
    SendParseComplete
  else
    let sql := rewriteReadOnlyProbe sql in
    let sql := if Go.HasPrefix sql "SET extra_float_digits"
               then "select 1 limit 0" else sql in
    let sql := if Go.HasPrefix sql "SET application_name"
               then "select 1 limit 0" else sql in
    do c <- get;
    if bool_decide (name <> EmptyString) && bool_decide (is_Some (stmts c !! name)) then
      SendErrorResponse ("prepared statement " +:+ name +:+ " already exists")
    else
      do _ <- call (CallPrepare sql);
      match conn_Prepare env sql with
      | inl e => SendErrorResponse e
      | inr st =>
          do _ <- modify (fun c =>
                    set_stmts (<[name := {| query := sql; stmt := Some st;
                                            columns := None;
                                            numInput := NumInput st |}]>
                               (stmts c)) c);
          SendParseComplete
      end.

Definition Bind (name portalName : string) (args : list Val)
  : M PgConn Go.error :=
  do c <- get;
  match stmts c !! name with
  | None => SendErrorResponse ("prepared statement " +:+ name +:+ " not found")
  | Some d =>
      do _ <- modify (fun c =>
                set_portals (<[portalName := {| p_stmt := d; values := args |}]>
                             (portals c)) c);
      onWire (WriteMessage (NewMessage BindComplete None))
  end.

Definition Execute (portalName : string) (maxRows : Z) : M PgConn Go.error :=
  do c <- get;
  match portals c !! portalName with
  | None => SendErrorResponse ("portal " +:+ portalName +:+ " not found")
  | Some p =>
      do _ <- modify (set_cancel true);
      do err <-
        (if numInput (p_stmt p) >? maxInputArgsUsePrepared then
           match bindValues (fl env) (query (p_stmt p)) (values p) with
           | BindPanic msg => panic msg
           | BindFuel => panic "unreachable"
           | Bound q =>
               do _ <- call (CallPrepare q);
               match conn_Prepare env q with
               | inl e => SendErrorResponse e
               | inr st =>
                   do err <- RunStmt (Some st) [] false (query (p_stmt p));
                   do _ <- call (CallClose (stmt_text st));
                   ret err
               end
           end
         else RunStmt (stmt (p_stmt p)) (values p) false (query (p_stmt p)));
      do _ <- modify (set_cancel false);
      ret err
  end.

End Conn.

End PgConn.

(** ** encoding/base64, as pg_auth.go uses it *)

Module Base64.

Definition alphabet : list ascii :=
  list_ascii_of_string
    "ABCDEFGHIJKLMNOPQRSTUVWXYZabcdefghijklmnopqrstuvwxyz0123456789+/".

(** The 6-bit value of a character of the standard alphabet. *)
Definition value (c : ascii) : option Z :=
  let n := Z.of_N (N_of_ascii c) in
  if (65 <=? n) && (n <=? 90) then Some (n - 65)
  else if (97 <=? n) && (n <=? 122) then Some (n - 71)
  else if (48 <=? n) && (n <=? 57) then Some (n + 4)
  else if n =? 43 then Some 62
  else if n =? 47 then Some 63
  else None.

Definition byte_of_Z (z : Z) : byte :=
  default x00 (Byte.of_N (Z.to_N (z mod 256))).

Definition isNewline (c : ascii) : bool :=
  Ascii.eqb c "010" || Ascii.eqb c "013".

Fixpoint skipNewlines (s : string) : string :=
  match s with
  | String c s' => if isNewline c then skipNewlines s' else s
  | EmptyString => EmptyString
  end.

(** [StdEncoding.DecodeString(s)] with the error dropped: the bytes decoded
    before the input ends or stops being base64.  [acc] holds the 6-bit
    values of the quantum being read. *)
Fixpoint decode (s : string) (acc : list Z) : list byte :=
  match s with
  | EmptyString => []
  | String c s' =>
      match value c with
      | Some v =>
          match acc with
          | [a; b; c0] =>
              let w := a * 262144 + b * 4096 + c0 * 64 + v in
              byte_of_Z (w / 65536) :: byte_of_Z (w / 256) :: byte_of_Z w
                :: decode s' []
          | _ => decode s' (acc ++ [v])
          end
      | None =>
          if isNewline c then decode s' acc
          else if Ascii.eqb c "=" then
            match acc with
            | [a; b] =>
                match skipNewlines s' with
                | String "=" _ => [byte_of_Z ((a * 262144 + b * 4096) / 65536)]
                | _ => []
                end
            | [a; b; c0] =>
                let w := a * 262144 + b * 4096 + c0 * 64 in
                [byte_of_Z (w / 65536); byte_of_Z (w / 256)]
            | _ => []
            end
          else []
      end
  end.

Definition DecodeString (s : string) : list byte := decode s [].

Definition digit (z : Z) : ascii :=
  nth (Z.to_nat (z mod 64)) alphabet "A"%char.

(** [EncodeToString]: [padded] tells StdEncoding from RawStdEncoding. *)
Fixpoint encode (padded : bool) (b : list byte) : string :=
  let n (x : byte) := Z.of_N (Byte.to_N x) in
  match b with
  | [] => EmptyString
  | [x] =>
      let w := n x * 65536 in
      String (digit (w / 262144)) (String (digit (w / 4096))
        (if padded then "==" else EmptyString))
  | [x; y] =>
      let w := n x * 65536 + n y * 256 in
      String (digit (w / 262144)) (String (digit (w / 4096))
        (String (digit (w / 64)) (if padded then "=" else EmptyString)))
  | x :: y :: z :: rest =>
      let w := n x * 65536 + n y * 256 + n z in
      String (digit (w / 262144)) (String (digit (w / 4096))
        (String (digit (w / 64)) (String (digit w) (encode padded rest))))
  end.

End Base64.

(** ** pg_auth.go: SCRAM-SHA-256 *)

Module PgAuth.
Import Wire PgTypes PgConn.

(** What authentication is given besides the connection: SHA-256 and
    HMAC-SHA-256 (32-byte results), the 18 random bytes of the server
    nonce, the AuthenticationSASL frame that NewAuthenticationSASLMessage
    builds (an Authentication frame), and the layouts of the two client
    messages: the mechanism and initial data of a SASLInitialResponse
    body, the data of a SASLResponse body. *)
Record AuthLib := {
  Sum256 : list byte -> list byte;
  computeHMAC : list byte -> list byte -> list byte;
  Sum256_size : forall m, length (Sum256 m) = 32%nat;
  computeHMAC_size : forall k m, length (computeHMAC k m) = 32%nat;
  serverNonce : list byte;
  NewAuthenticationSASLMessage : list string -> Message;
  NewAuthenticationSASLMessage_Typ :
    forall mechanisms, Typ (NewAuthenticationSASLMessage mechanisms) = Authentication;
  decodeSASLInitialResponse : list byte -> string + (string * option (list byte));
  decodeSASLResponse : list byte -> string + list byte
}.

(** Modelled from the spec: ParseSASLInitialResponseMessage and
    ParseSASLResponseMessage are not among the sources.  As the
    specification says of every request parser, they take the frame just
    read and decode its fields over the body, which [Message.Read]
    buffers; a failed read is the parser's error. *)
Definition parseBody {A} (decode : list byte -> string + A)
  : M Wire (string + A) :=
  do r <- MessageRead;
  match r with
  | (_, Some e) => ret (inl e)
  | (body, None) => ret (decode (default [] body))
  end.

Definition ParseSASLInitialResponseMessage (lib : AuthLib)
  : M Wire (string + (string * option (list byte))) :=
  parseBody (decodeSASLInitialResponse lib).

Definition ParseSASLResponseMessage (lib : AuthLib)
  : M Wire (string + list byte) :=
  parseBody (decodeSASLResponse lib).

(** [bytes.Split(data, ",")] on the text of [data]. *)
Fixpoint split (sep : ascii) (s : string) : list string :=
  match s with
  | EmptyString => [EmptyString]
  | String c s' =>
      if Ascii.eqb c sep then EmptyString :: split sep s'
      else match split sep s' with
           | h :: t => String c h :: t
           | [] => [String c EmptyString]
           end
  end.

Definition parseSaslData (data : list byte) : gmap string string :=
  foldl (fun m kv =>
           match Go.splitAtByte "=" kv with
           | Some (k, String _ v) => <[k := v]> m
           | _ => m
           end)
        ∅ (split "," (Go.string_of data)).

Definition readClientNonce (data : list byte) : string + string :=
  match parseSaslData data !! "r" with
  | Some v => inr v
  | None => inl "not found"
  end.

(** The stored form [SCRAM-SHA-256$<iter>:<salt>$<stored>:<server>], as the
    regular expression of the code takes it apart: groups 1 to 4. *)
Definition hasNewline (s : string) : bool :=
  match Go.splitAtByte "010" s with Some _ => true | None => false end.

Definition stripPrefix (p s : string) : option string :=
  if String.prefix p s then Some (Go.drop (String.length p) s) else None.

Definition passwordGroups (pgpassword : string)
  : option (string * string * string * string) :=
  match stripPrefix "SCRAM-SHA-256$" pgpassword with
  | None => None
  | Some r0 =>
      let '(iterations, r1) := Go.span Go.is_digit r0 in
      if (String.length iterations =? 0)%nat then None else
      match r1 with
      | String ":" r2 =>
          if hasNewline r2 then None else
          match Go.splitAtByte "$" r2 with
          | Some (salt, String _ r3) =>
              match Go.splitAtByte ":" r3 with
              | Some (stored, String _ server) =>
                  Some (iterations, salt, stored, server)
              | _ => None
              end
          | _ => None
          end
      | _ => None
      end
  end.

Definition xor_byte (a b : byte) : byte :=
  default x00 (Byte.of_N (N.lxor (Byte.to_N a) (Byte.to_N b))).

(** The loop [clientKey[i] = clientProof[i] ^ clientSignature[i]] from
    index [i] on; [None] is the index-out-of-range panic. *)
Fixpoint xorProof (i : nat) (clientProof clientSignature : list byte)
  : option (list byte) :=
  match clientSignature with
  | [] => Some []
  | sg :: rest =>
      match clientProof !! i with
      | None => None
      | Some p =>
          match xorProof (S i) clientProof rest with
          | None => None
          | Some tl => Some (xor_byte p sg :: tl)
          end
      end
  end.

Definition authFailed (user : string) : string :=
  "password authentication failed for user " +:+ user.

Section Auth.
Variable env : Env.
Variable lib : AuthLib.

(** The verification step: from the decoding of the stored key to the
    comparison.  [None] is a panic, [Some ok] the result of
    [bytes.Equal]. *)
Definition verifyProof (storedB64 : string)
           (clientFinalData : gmap string string) (authMessage : string)
  : option bool :=
  let storedKey := Base64.DecodeString storedB64 in
  let clientProof := Base64.DecodeString (default EmptyString (clientFinalData !! "p")) in
  let clientSignature := computeHMAC lib storedKey (Go.bytes_of authMessage) in
  match xorProof 0 clientProof clientSignature with
  | None => None
  | Some clientKey =>
      Some (bool_decide (storedKey = Sum256 lib clientKey))
  end.

Definition WriteAuthOK : M PgConn Go.error :=
  onWire (WriteMessage {| has_wire := false; buf := Some [x00; x00; x00; x00];
                          Length := 8; Typ := Authentication |}).

Definition ScramSha256Auth (user : string) : M PgConn Go.error :=
  do err <- onWire (WriteMessage (NewAuthenticationSASLMessage lib ["SCRAM-SHA-256"]));
  match err with Some e => ret (Some e) | None =>
  do r <- onWire ReadMessage;
  match r with (_, Some e) => ret (Some e) | (_, None) =>
  do ini <- onWire (ParseSASLInitialResponseMessage lib);
  match ini with
  | inl _ => ret None
  | inr (mechanism, initial) =>
  if negb (bool_decide (mechanism = "SCRAM-SHA-256"))
  then ret (Some "invalid mechanism") else
  match initial with
  | None => ret (Some "invalid initial data")
  | Some saslInitialData =>
  match readClientNonce saslInitialData with
  | inl e => ret (Some e)
  | inr clientNonce =>
  let serverNonceStr := Base64.encode false (serverNonce lib) in
  let clientAndServerNonce := clientNonce +:+ serverNonceStr in
  match GetPassword env user with
  | inl _ => SendErrorResponse (authFailed user)
  | inr pgpassword =>
  match passwordGroups pgpassword with
  | None => SendErrorResponse (authFailed user)
  | Some (iterations, salt, stored, server) =>
  let serverFirstResp :=
    "r=" +:+ clientAndServerNonce +:+ ",s=" +:+ salt +:+ ",i=" +:+ iterations in
  do err <- onWire (WriteMessage (NewMessage Authentication
              (Some (cint32 11 ++ Go.bytes_of serverFirstResp))));
  match err with Some e => ret (Some e) | None =>
  do r <- onWire ReadMessage;
  match r with (_, Some e) => ret (Some e) | (_, None) =>
  do fin <- onWire (ParseSASLResponseMessage lib);
  match fin with
  | inl _ => ret None
  | inr data =>
  let clientFinalData := parseSaslData data in
  let authMessage :=
    "n=,r=" +:+ clientNonce +:+ "," +:+ serverFirstResp +:+ ","
    +:+ ("c=biws,r=" +:+ clientAndServerNonce) in
  match verifyProof stored clientFinalData authMessage with
  | None => panic "index out of range"
  | Some false => SendErrorResponse (authFailed user)
  | Some true =>
  let serverKey := Base64.DecodeString server in
  let serverSignature :=
    Base64.encode true (computeHMAC lib serverKey (Go.bytes_of authMessage)) in
  do err <- onWire (WriteMessage (NewMessage Authentication
              (Some (cint32 11 ++ Go.bytes_of ("v=" +:+ serverSignature)))));
  match err with Some e => ret (Some e) | None =>
  WriteAuthOK
  end end end end end end end end end end end end.

Definition NoAuth : M PgConn Go.error := WriteAuthOK.

Definition Auth (user : string) : M PgConn Go.error :=
  if negb (enableAuth env) then NoAuth else ScramSha256Auth user.

End Auth.

End PgAuth.

(** ** The format helpers: values as text for the CSV and TSV writers *)

Module Formats.

(** [duckDecimalToString] *)
Definition duckDecimalToString (value : Decimal) : string :=
  let str := Go.FormatInt (Value value) in
  if (Scale value =? 0)%nat then str
  else if (String.length str <=? Scale value)%nat then
    let zeroCount := (Scale value - String.length str)%nat in
    "0." +:+ Go.Repeat "0" zeroCount +:+ str
  else
    Go.take (String.length str - Scale value) str +:+ "."
    +:+ Go.drop (String.length str - Scale value) str.

Section duckValueToString.
Variable fl : FloatLib.
(** [fmt.Sprintf("%v", v)] of the default case. *)
Variable sprint : string -> string.

Fixpoint duckValueToString (value : Val) : string :=
  match value with
  | VNil => "\N"
  | VInt z | VInt64 z | VInt32 z | VInt16 z | VInt8 z => Go.FormatInt z
  | VString v => v
  | VBool v => if v then "1" else "0"
  | VFloat64 v => FormatFloat fl v 64
  | VFloat32 v => FormatFloat fl v 64
  | VTime v => PgTypes.Format false v
  | VDecimal v => duckDecimalToString v
  | VList v => "{" +:+ String.concat "," (map duckValueToString v) +:+ "}"
  | VOther ty => sprint ty
  end.
End duckValueToString.

(** [typesMapping] and [typesToClickhouseTypes]: the type row of the
    TabSeparatedWithNamesAndTypes writer. *)
Definition typesMapping : gmap string string :=
  list_to_map [
    ("INTEGER", "Int32"); ("VARCHAR", "String"); ("BIGINT", "Int64");
    ("BOOLEAN", "UInt8"); ("DOUBLE", "Float64")
  ].

Definition typesToClickhouseTypes (types : list string) : list string :=
  map (fun t =>
         let ch := default EmptyString (typesMapping !! t) in
         if bool_decide (ch = EmptyString) then "String" else ch)
      types.

End Formats.

(** ** ch_server.go: the rewrites of a SELECT *)

Module ChServer.

(** [\s] of the regexp package: tab, newline, form feed, return, space. *)
Definition isWhite (c : ascii) : bool :=
  let n := N_of_ascii c in
  ((n =? 9) || (n =? 10) || (n =? 12) || (n =? 13) || (n =? 32))%N.

(** An upper-case letter of a pattern under [(?i)] against a character.
    The letters of LIMIT fold to their lower-case forms only. *)
Definition eqFold (lit c : ascii) : bool :=
  Ascii.eqb c lit || (N_of_ascii c =? N_of_ascii lit + 32)%N.

Fixpoint matchFold (lit s : string) : option string :=
  match lit with
  | EmptyString => Some s
  | String l lit' =>
      match s with
      | String c s' => if eqFold l c then matchFold lit' s' else None
      | EmptyString => None
      end
  end.

(** A match of [limitRewriteRegexp], the pattern
    [(?i)LIMIT\s+(\d+)\s*,\s*(\d+)], at the start of [s]: the two
    groups and what follows the match.  The character classes of
    neighbouring pieces are disjoint, so the greedy choice is the only
    one. *)
Definition limitMatch (s : string) : option (string * string * string) :=
  match matchFold "LIMIT" s with
  | None => None
  | Some s1 =>
      let '(w1, s2) := Go.span isWhite s1 in
      if (String.length w1 =? 0)%nat then None else
      let '(a, s3) := Go.span Go.is_digit s2 in
      if (String.length a =? 0)%nat then None else
      let '(_, s4) := Go.span isWhite s3 in
      match s4 with
      | String "," s5 =>
          let '(_, s6) := Go.span isWhite s5 in
          let '(b, s7) := Go.span Go.is_digit s6 in
          if (String.length b =? 0)%nat then None else Some (a, b, s7)
      | _ => None
      end
  end.

(** The template [LIMIT $2 OFFSET $1] with the groups put in. *)
Definition limitTemplate (a b : string) : string :=
  "LIMIT " +:+ b +:+ " OFFSET " +:+ a.

(** [limitRewriteRegexp.ReplaceAllString(s, "LIMIT $2 OFFSET $1")]: matches
    are taken from left to right and do not overlap; [skip] counts the
    characters of the current match still to pass. *)
Fixpoint replaceLimit (skip : nat) (s : string) : string :=
  match s with
  | EmptyString => EmptyString
  | String c s' =>
      match skip with
      | S k => replaceLimit k s'
      | O =>
          match limitMatch s with
          | Some (a, b, rest) =>
              limitTemplate a b
              +:+ replaceLimit (String.length s' - String.length rest) s'
          | None => String c (replaceLimit 0 s')
          end
      end
  end.

Definition limitRewrite (q : string) : string := replaceLimit 0 q.

(** The rewrites at the head of [SelectQuery], in order. *)
Definition rewriteSelect (q : string) : string :=
  let q := Go.TrimSpace q in
  let q := Go.ReplaceFirst "select table" ("select " +:+ String "034" ("table" +:+ String "034" EmptyString)) q in
  let q := Go.ReplaceAll q "010" " " in
  limitRewrite q.

End ChServer.

(* ================================================================== *)
(** * Part II: the vocabulary of the properties, and sample data *)
(* ================================================================== *)

(** ** Strings *)

(** [allChars p s]: every character of [s] satisfies [p]. *)
Fixpoint allChars (p : ascii -> bool) (s : string) : bool :=
  match s with
  | EmptyString => true
  | String c s' => p c && allChars p s'
  end.

(** [headIs p s]: [s] starts with a character that satisfies [p]. *)
Definition headIs (p : ascii -> bool) (s : string) : bool :=
  match s with
  | EmptyString => false
  | String c _ => p c
  end.

Definition notComma (c : ascii) : bool := negb (Ascii.eqb c ",").
Definition notDollar (c : ascii) : bool := negb (Ascii.eqb c "$").

(** ** Occurrences of LIMIT a, b *)

(** [kw] is [lit] up to the case of its letters. *)
Fixpoint eqFoldStr (lit kw : string) : bool :=
  match lit, kw with
  | EmptyString, EmptyString => true
  | String l lit', String c kw' => ChServer.eqFold l c && eqFoldStr lit' kw'
  | _, _ => false
  end.

(** [m] is an occurrence of LIMIT a, b: the keyword in any case, white
    space, the digits [a], a comma with optional white space on both
    sides, the digits [b]. *)
Definition limitOccurrence (m a b : string) : Prop :=
  exists kw w1 w2 w3 : string,
    m = kw +:+ w1 +:+ a +:+ w2 +:+ "," +:+ w3 +:+ b
    /\ eqFoldStr "LIMIT" kw = true
    /\ allChars ChServer.isWhite w1 = true /\ w1 <> EmptyString
    /\ allChars Go.is_digit a = true /\ a <> EmptyString
    /\ allChars ChServer.isWhite w2 = true
    /\ allChars ChServer.isWhite w3 = true
    /\ allChars Go.is_digit b = true /\ b <> EmptyString.

(** ** Placeholders *)

(** The text of a statement as the specification reads it: a sequence of
    placeholders, a dollar sign followed by all the digits after it, and
    of other characters. *)
Inductive token :=
| Lit (c : ascii)
| Placeholder (digits : string).

Fixpoint tokens (skip : nat) (sql : string) : list token :=
  match sql with
  | EmptyString => []
  | String c s' =>
      match skip with
      | S k => tokens k s'
      | O =>
          if Ascii.eqb c "$" then
            let '(d, _) := Go.span Go.is_digit s' in
            if (String.length d =? 0)%nat then Lit c :: tokens 0 s'
            else Placeholder d :: tokens (String.length d) s'
          else Lit c :: tokens 0 s'
      end
  end.

(** The literal rendering of a bound value. *)
Definition literal (fl : FloatLib) (v : Val) : option string :=
  match v with
  | VNil => Some "null"
  | VString s => Some ("'" +:+ Go.ReplaceAll s "'" "''" +:+ "'")
  | VInt64 z => Some (Go.FormatInt z)
  | VFloat64 f => Some (FormatFloat fl f 64)
  | _ => None
  end.

(** What a token becomes: a character stays; placeholder number [N] becomes
    the literal of value [N], or [null] past the last value.  There is no
    value 0 and no literal for other types. *)
Definition substitute (fl : FloatLib) (args : list Val) (t : token)
  : option string :=
  match t with
  | Lit c => Some (String c EmptyString)
  | Placeholder d =>
      let N := Go.digits_value 0 d in
      if N <? 1 then None
      else if N >? Z.of_nat (length args) then Some "null"
      else match args !! Z.to_nat (N - 1) with
           | Some v => literal fl v
           | None => None
           end
  end.

Fixpoint substituteAll (fl : FloatLib) (args : list Val) (ts : list token)
  : option string :=
  match ts with
  | [] => Some EmptyString
  | t :: ts' =>
      match substitute fl args t, substituteAll fl args ts' with
      | Some a, Some b => Some (a +:+ b)
      | _, _ => None
      end
  end.

(** ** Frames on the wire *)

(** The value of a byte, and the length a frame header declares: the four
    bytes after the type byte, most significant first. *)
Definition byteValue (b : byte) : Z := Z.of_N (Byte.to_N b).

Definition declaredLength (b1 b2 b3 b4 : byte) : Z :=
  16777216 * byteValue b1 + 65536 * byteValue b2 + 256 * byteValue b3
  + byteValue b4.

(** Nothing of an earlier frame is left on the wire: the codec has read no
    message yet, or the body of its last message was buffered by [Read]. *)
Definition settled (w : Wire.Wire) : Prop :=
  match Wire.lastMsg w with
  | None => True
  | Some m0 => Wire.has_wire m0 = true /\ Wire.buf m0 <> None
  end.

(** ** Frames and what an action writes *)

(** The decimal numeral of a count, as the tag of a CommandComplete shows
    it: [decimal 0] is the text 0, [decimal 12] the text 12. *)
Definition decimal (k : nat) : string :=
  NilZero.string_of_uint (N.to_uint (N.of_nat k)).

Definition errorFrame (errStr : string) : Wire.Message :=
  Wire.NewMessage Wire.ErrorResponse
    (Some (["S"%byte] ++ PgTypes.cstr "ERROR" ++ ["C"%byte]
           ++ PgTypes.cstr "SQL-0000" ++ ["M"%byte] ++ PgTypes.cstr errStr
           ++ [x00])).

Definition commandCompleteFrame (tag : string) : Wire.Message :=
  Wire.NewMessage Wire.CommandComplete (Some (PgTypes.cstr tag)).

Definition emptyQueryFrame : Wire.Message :=
  Wire.NewMessage Wire.EmptyQueryResponse (Some []).

Definition parseCompleteFrame : Wire.Message :=
  Wire.NewMessage Wire.ParseComplete (Some []).

Definition bindCompleteFrame : Wire.Message :=
  Wire.NewMessage Wire.BindComplete None.

Definition dataRowFrame (env : PgConn.Env) (vs : list Val) : Wire.Message :=
  Wire.NewMessage Wire.DataRow
    (Some (Wire.cint16 (Z.of_nat (length vs))
           ++ match PgConn.rowData env vs with inr b => b | inl _ => [] end)).

(** [quiet m]: [m] returns, and touches neither the engine nor the maps of
    statements and portals nor the cancellation handle. *)
Definition quiet {A} (m : M PgConn.PgConn A) : Prop :=
  forall c, exists a c',
    m c = Ret a c' /\ PgConn.calls c' = PgConn.calls c
    /\ PgConn.stmts c' = PgConn.stmts c
    /\ PgConn.portals c' = PgConn.portals c
    /\ PgConn.cancel c' = PgConn.cancel c.

(** [sends m a fs]: on a connection whose transport accepts writes, [m]
    returns [a] after writing the frames [fs], and the transport still
    accepts writes. *)
Definition sends {A} (m : M PgConn.PgConn A) (a : A) (fs : list Wire.Message)
  : Prop :=
  forall c, Wire.wr_left (PgConn.wire c) = None ->
    exists c', m c = Ret a c' /\ Wire.wr_left (PgConn.wire c') = None
               /\ Wire.sent (PgConn.wire c')
                  = Wire.sent (PgConn.wire c) ++ fs.

(** The text [Prepare] hands to the engine for a non-empty text: the
    read-only probe and the two SET statements of a client's start-up are
    replaced, any other text is kept. *)
Definition preparedText (sql : string) : string :=
  let sql := PgConn.rewriteReadOnlyProbe sql in
  let sql := if Go.HasPrefix sql "SET extra_float_digits"
             then "select 1 limit 0" else sql in
  if Go.HasPrefix sql "SET application_name" then "select 1 limit 0" else sql.

(** A value the projection has a case for. *)
Definition projectable (env : PgConn.Env) (v : Val) : Prop :=
  exists pv, PgTypes.toPgValue (PgConn.fl env) v = inr pv.

(** The engine type names the type map has, and columns whose type names
    are all among them. *)
Definition mappedTypeNames : list string :=
  ["BOOLEAN"; "VARCHAR"; "INTEGER"; "BIGINT"; "DOUBLE"; "TIMESTAMP";
   "DECIMAL"; "DATE"; "VARCHAR[]"].

Definition mappedTypes (cols : list (string * string)) : Prop :=
  Forall (fun col => snd col ∈ mappedTypeNames) cols.

(** The rows of a result, as [RunStmt] needs them to go through: as wide
    as the columns, of values the projection has a case for. *)
Definition wellFormedRows (env : PgConn.Env) (rows : PgConn.Rows) : Prop :=
  Forall (fun r => length r = length (PgConn.Columns rows)
                   /\ Forall (projectable env) r) (PgConn.Data rows).

(** The DESCRIBE probe of schema inference. *)
Definition probeOf (q : string) : string :=
  "describe " +:+ PgConn.replacePlaceholders 0 q.

(** ** Texts in frames *)

(** A text without a zero byte, as a zero-terminated string can hold it. *)
Definition noZero (s : string) : Prop := x00 ∉ Go.bytes_of s.

(** A space, a tab, a line feed or a carriage return. *)
Definition isBlank (c : ascii) : bool :=
  let n := N_of_ascii c in ((n =? 32) || (n =? 9) || (n =? 10) || (n =? 13))%N.

(** The parameters of a startup message on the wire: each name and each
    value zero-terminated; and a pair such a message can hold. *)
Definition startupPairs (kvs : list (string * string)) : list byte :=
  flat_map (fun kv => PgTypes.cstr (fst kv) ++ PgTypes.cstr (snd kv)) kvs.

Definition wellFormedPair (kv : string * string) : Prop :=
  fst kv <> EmptyString /\ snd kv <> EmptyString
  /\ noZero (fst kv) /\ noZero (snd kv).

(** ** Columns of a row description *)

(** The OID that goes with an engine type name in the row description of
    schema inference. *)
Definition advertisedOid (ty : string) : option Z :=
  if String.eqb ty "BOOLEAN" then Some 16
  else if String.eqb ty "VARCHAR" then Some 25
  else if String.eqb ty "INTEGER" then Some 21
  else if String.eqb ty "BIGINT" then Some 20
  else if String.eqb ty "DOUBLE" then Some 701
  else if String.eqb ty "TIMESTAMP" then Some 1114
  else if String.eqb ty "DECIMAL" then Some 1700
  else if String.eqb ty "DATE" then Some 0
  else if String.eqb ty "VARCHAR[]" then Some 25
  else None.

(** One column of a row description: the name, zero-terminated, six zero
    bytes (table and attribute), the type OID, eight zero bytes (type
    size, modifier and format). *)
Definition columnField (name : string) (oid : Z) : list byte :=
  Go.bytes_of name ++ [x00] ++ [x00; x00; x00; x00; x00; x00]
  ++ Wire.cint32 oid ++ [x00; x00; x00; x00; x00; x00; x00; x00].

(** ** Authentication attempts *)

Definition state_of {A} (o : Outcome PgConn.PgConn A) : PgConn.PgConn :=
  match o with Ret _ s | Panic _ s => s end.

Definition wstate_of {A} (o : Outcome Wire.Wire A) : Wire.Wire :=
  match o with Ret _ s | Panic _ s => s end.

(** The frames an attempt for [user] writes, oldest first. *)
Definition authFrames (env : PgConn.Env) (lib : PgAuth.AuthLib) (user : string)
           (c : PgConn.PgConn) : list Wire.Message :=
  drop (length (Wire.sent (PgConn.wire c)))
       (Wire.sent (PgConn.wire (state_of (PgAuth.ScramSha256Auth env lib user c)))).

(** Among [fs], an ErrorResponse is the failure frame of [user]. *)
Definition failureOnly (user : string) (fs : list Wire.Message) : Prop :=
  Forall (fun f => Wire.Typ f = Wire.ErrorResponse ->
                   f = errorFrame (PgAuth.authFailed user)) fs.

Definition writesFailureOnly {A} (user : string) (m : M PgConn.PgConn A) : Prop :=
  forall c, exists fs,
    Wire.sent (PgConn.wire (state_of (m c))) = Wire.sent (PgConn.wire c) ++ fs
    /\ failureOnly user fs.

Definition silent {A} (m : M Wire.Wire A) : Prop :=
  forall w, Wire.sent (wstate_of (m w)) = Wire.sent w.

(** ** Sample data *)

Module Sample.
Import Wire PgTypes PgConn PgAuth.

Definition toyFloat : FloatLib :=
  {| FormatFloat := fun _ _ => "0"; DecimalFloat64 := fun _ => PrimFloat.zero |}.

(** [Decimal.Float64] where the unscaled value and the power of ten are
    below 2^53: their quotient as a double, rounded once. *)
Definition float_of_Z (z : Z) : float :=
  if z <? 0 then PrimFloat.opp (PrimFloat.of_uint63 (Uint63.of_Z (- z)))
  else PrimFloat.of_uint63 (Uint63.of_Z z).

Definition ieeeDecimalFloat64 (d : Decimal) : float :=
  PrimFloat.div (float_of_Z (Value d)) (float_of_Z (10 ^ Z.of_nat (Scale d))).

(** A float library with that conversion and any formatter. *)
Definition ieeeWith (fmt : float -> Z -> string) : FloatLib :=
  {| FormatFloat := fmt; DecimalFloat64 := ieeeDecimalFloat64 |}.

Definition oneAndAHalf : Decimal := {| Width := 5; Scale := 2; Value := 150 |}.
Definition oneAndFive : Decimal := {| Width := 5; Scale := 1; Value := 15 |}.

Definition newYearMorning : Time :=
  {| Year := 2024; Month := 1; Day := 2; Hour := 3; Minute := 4;
     Second := 5; Nanosecond := 0 |}.

Definition oneRow : Rows :=
  {| Columns := ["a"]; Data := [[VInt64 1]]; Final := None |}.

Definition noRows : Rows :=
  {| Columns := ["Count"]; Data := []; Final := None |}.

Definition noFloatRows : Rows :=
  {| Columns := ["f"]; Data := []; Final := None |}.

Definition blobRow : Rows :=
  {| Columns := ["b"]; Data := [[VOther "[]uint8"]]; Final := None |}.

Definition sampleStmt (sql : string) : Stmt :=
  {| stmt_text := sql; NumInput := 0;
     QueryContext := fun _ =>
       inr (if String.prefix "select '\x" sql then blobRow
            else if String.prefix "select 1.5::float" sql then noFloatRows
            else if String.prefix "select 1 where false" sql then noRows
            else if String.prefix "select" sql then oneRow
            else noRows) |}.

Definition aliceRecord : string :=
  "SCRAM-SHA-256$4096:c2FsdA==$c3RvcmVk:c2VydmVy".

(** An engine that prepares every text, answers a SELECT with one row (of a
    byte slice if the text selects a blob, with none if it selects under a
    false condition) and anything else with no row, and that describes
    only SELECTs.  [users] says whether the credentials table has
    the record of alice.  None of the sample texts is a CREATE USER,
    DISCARD ALL or COPY statement. *)
Definition sampleEnv (users : bool) : Env :=
  {| fl := toyFloat;
     conn_Prepare := fun sql => inr (sampleStmt sql);
     db_Describe := fun probe =>
       if String.prefix "describe select 1.5::float" probe
       then inr [("f", "FLOAT")]
       else if String.prefix "describe select" probe then inr [("a", "BIGINT")]
       else inl "Parser Error: syntax error at or near CREATE";
     enableAuth := true;
     CreateUser := fun _ _ => None;
     GetPassword := fun u =>
       if users && String.eqb u "alice" then inr aliceRecord
       else inl "sql: no rows in result set";
     createUserRegexp := fun _ => None;
     testDiscardAllRegexp := fun _ => false;
     copyInRegexp := fun _ => false;
     CopyIn := fun _ => ret None |}.

Definition wire0 (input : list byte) : Wire :=
  {| rd := input; lastMsg := None; sent := []; wr_left := None |}.

Definition conn0 (input : list byte) : PgConn :=
  {| wire := wire0 input; stmts := ∅; portals := ∅; cancel := false;
     inError := false; calls := [] |}.

(** A wire whose last message, a Query of two body bytes, was not read, with
    that body and a Sync frame still to come. *)
Definition unreadQuery : Message :=
  {| has_wire := true; buf := None; Length := 6; Typ := Query |}.

Definition wireUnread : Wire :=
  {| rd := ["h"%byte; "i"%byte] ++ [Sync; x00; x00; x00; x04] ++ [];
     lastMsg := Some unreadQuery; sent := []; wr_left := None |}.

Definition selectOne : stmtDesc :=
  {| query := "select 1"; stmt := Some (sampleStmt "select 1");
     columns := None; numInput := 0 |}.

(** A connection on which the name [name] is bound to [select 1]. *)
Definition connWith (name : string) : PgConn :=
  {| wire := wire0 []; stmts := {[ name := selectOne ]}; portals := ∅;
     cancel := false; inError := false; calls := [] |}.

(** A statement of 21 parameters and a portal that binds them. *)
Definition manyQuery : string :=
  "select $1,$2,$3,$4,$5,$6,$7,$8,$9,$10,$11,$12,$13,$14,$15,$16,$17,$18,$19,$20,$21".

Definition manyValues : list Val :=
  [VInt64 1; VString "it's"; VNil]
  ++ map VInt64 [4; 5; 6; 7; 8; 9; 10; 11; 12; 13; 14; 15; 16; 17; 18; 19; 20; 21].

Definition manyText : string :=
  "select 1,'it''s',null,4,5,6,7,8,9,10,11,12,13,14,15,16,17,18,19,20,21".

Definition manyPortal : portal :=
  {| p_stmt := {| query := manyQuery; stmt := Some (sampleStmt manyQuery);
                  columns := None; numInput := 21 |};
     values := manyValues |}.

Definition connMany : PgConn :=
  {| wire := wire0 []; stmts := ∅; portals := {[ "p" := manyPortal ]};
     cancel := false; inError := false; calls := [] |}.

(** The same statement with a string literal in front that holds the text
    [$0], and a portal that binds its 21 parameters. *)
Definition zeroQuery : string :=
  "select '$0',$1,$2,$3,$4,$5,$6,$7,$8,$9,$10,$11,$12,$13,$14,$15,$16,$17,$18,$19,$20,$21".

Definition zeroPortal : portal :=
  {| p_stmt := {| query := zeroQuery; stmt := Some (sampleStmt zeroQuery);
                  columns := None; numInput := 21 |};
     values := manyValues |}.

Definition connZero : PgConn :=
  {| wire := wire0 []; stmts := ∅; portals := {[ "z" := zeroPortal ]};
     cancel := false; inError := false; calls := [] |}.

(** A statement the engine refuses to run, and one whose rows fail after
    the first. *)
Definition brokenRows : Rows :=
  {| Columns := ["a"]; Data := [[VInt64 1]];
     Final := Some "Conversion Error: out of range" |}.

Definition refusedStmt : Stmt :=
  {| stmt_text := "select a from gone"; NumInput := 0;
     QueryContext := fun _ => inl "Catalog Error: Table gone does not exist" |}.

Definition brokenStmt : Stmt :=
  {| stmt_text := "select a::tinyint from t"; NumInput := 0;
     QueryContext := fun _ => inr brokenRows |}.

(** A connection with the portal [p] of [select 1] and no arguments. *)
Definition connPortal : PgConn :=
  {| wire := wire0 []; stmts := {[ "s" := selectOne ]};
     portals := {[ "p" := {| p_stmt := selectOne; values := [] |} ]};
     cancel := false; inError := false; calls := [] |}.

(** A toy hash (32 zero bytes) and the client messages in the layout of
    the protocol: mechanism, zero byte, four bytes of length, data. *)
Definition toyLib : AuthLib :=
  {| Sum256 := fun _ => replicate 32 x00;
     computeHMAC := fun _ _ => replicate 32 x00;
     Sum256_size := fun _ => eq_refl;
     computeHMAC_size := fun _ _ => eq_refl;
     serverNonce := replicate 18 x01;
     NewAuthenticationSASLMessage := fun mechanisms =>
       NewMessage Authentication
         (Some (cint32 10 ++ flat_map cstr mechanisms ++ [x00]));
     NewAuthenticationSASLMessage_Typ := fun _ => eq_refl;
     decodeSASLInitialResponse := fun body =>
       match Go.splitAtByte "000" (Go.string_of body) with
       | Some (mechanism, String _ rest) =>
           inr (mechanism, Some (Go.bytes_of (Go.drop 4 rest)))
       | _ => inl "invalid SASLInitialResponse"
       end;
     decodeSASLResponse := fun body => inr body |}.

Definition clientFrame (body : list byte) : list byte :=
  frame_bytes (NewMessage "p"%byte (Some body)).

Definition saslInitial : list byte :=
  clientFrame (cstr "SCRAM-SHA-256" ++ cint32 19
               ++ Go.bytes_of "n,,n=,r=clientnonce").

Definition saslFinal (proof : string) : list byte :=
  clientFrame (Go.bytes_of ("c=biws,r=clientnonceAQEBAQEBAQEBAQEBAQEBAQEB,p="
                            +:+ proof)).

(** The base64 of 32 zero bytes. *)
Definition zeroProof : string :=
  "AAAAAAAAAAAAAAAAAAAAAAAAAAAAAAAAAAAAAAAAAAA=".

End Sample.
(* ================================================================== *)
(** * Part III: properties *)
(* ================================================================== *)

(** ** Facts about strings *)

Section StringFacts.

Lemma sapp_cons (c : ascii) (s t : string) :
  String c s +:+ t = String c (s +:+ t).
Proof. reflexivity. Qed.

Lemma sapp_nil_l (s : string) : EmptyString +:+ s = s.
Proof. reflexivity. Qed.

Lemma sapp_nil_r (s : string) : s +:+ EmptyString = s.
Proof. induction s as [|c s IH]; [reflexivity|]. now rewrite sapp_cons, IH. Qed.

Lemma sapp_assoc (s t u : string) : (s +:+ t) +:+ u = s +:+ (t +:+ u).
Proof.
  induction s as [|c s IH]; [reflexivity|].
  now rewrite !sapp_cons, IH.
Qed.

Lemma slength_app (s t : string) :
  String.length (s +:+ t) = (String.length s + String.length t)%nat.
Proof.
  induction s as [|c s IH]; [reflexivity|].
  rewrite sapp_cons. simpl. now rewrite IH.
Qed.

Lemma slength_zero (s : string) : String.length s = 0%nat -> s = EmptyString.
Proof. destruct s; [reflexivity | discriminate]. Qed.

Lemma stake_app_length (s t : string) : Go.take (String.length s) (s +:+ t) = s.
Proof.
  induction s as [|c s IH].
  - destruct t; reflexivity.
  - rewrite sapp_cons. simpl. now rewrite IH.
Qed.

Lemma sdrop_app_length (s t : string) : Go.drop (String.length s) (s +:+ t) = t.
Proof.
  induction s as [|c s IH].
  - destruct t; reflexivity.
  - rewrite sapp_cons. simpl. exact IH.
Qed.

Lemma stake_drop (n : nat) (s : string) : Go.take n s +:+ Go.drop n s = s.
Proof.
  revert s; induction n as [|n IH]; intros [|c s]; try reflexivity.
  change (String c (Go.take n s +:+ Go.drop n s) = String c s). now rewrite IH.
Qed.

Lemma slength_drop (n : nat) (s : string) :
  String.length (Go.drop n s) = (String.length s - n)%nat.
Proof.
  revert s; induction n as [|n IH]; intros [|c s]; simpl; try reflexivity.
  apply IH.
Qed.

Lemma length_Repeat1 (c : ascii) (n : nat) :
  String.length (Go.Repeat (String c EmptyString) n) = n.
Proof.
  induction n as [|n IH]; [reflexivity|].
  change (S (String.length (Go.Repeat (String c EmptyString) n)) = S n).
  now rewrite IH.
Qed.

Lemma span_sound (p : ascii -> bool) (s a b : string) :
  Go.span p s = (a, b) ->
  s = a +:+ b /\ allChars p a = true /\ headIs p b = false.
Proof.
  revert a b; induction s as [|c s IH]; intros a b H; simpl in H.
  - inversion H; subst. auto.
  - destruct (p c) eqn:Hc.
    + destruct (Go.span p s) as [a' b'] eqn:Hs. inversion H; subst.
      destruct (IH _ _ eq_refl) as (-> & Ha & Hb).
      rewrite sapp_cons. simpl. rewrite Hc. auto.
    + inversion H; subst. simpl. auto.
Qed.

Lemma span_complete (p : ascii -> bool) (a b : string) :
  allChars p a = true -> headIs p b = false -> Go.span p (a +:+ b) = (a, b).
Proof.
  induction a as [|c a IH]; intros Ha Hb.
  - rewrite sapp_nil_l. destruct b as [|d b]; [reflexivity|].
    simpl in *. now rewrite Hb.
  - simpl in Ha. apply andb_prop in Ha as [Hc Ha].
    rewrite sapp_cons. simpl. rewrite Hc, (IH Ha Hb). reflexivity.
Qed.

(** Appending a text that starts outside [p] only lengthens the rest. *)
Lemma span_app_stop (p : ascii -> bool) (s t : string) :
  headIs p t = false ->
  Go.span p (s +:+ t) = (fst (Go.span p s), snd (Go.span p s) +:+ t).
Proof.
  intros Ht. destruct (Go.span p s) as [a b] eqn:Hs.
  apply span_sound in Hs as (-> & Ha & Hb). simpl.
  rewrite sapp_assoc. apply span_complete; [exact Ha|].
  destruct b; [exact Ht | exact Hb].
Qed.

Lemma allChars_app (p : ascii -> bool) (a b : string) :
  allChars p (a +:+ b) = allChars p a && allChars p b.
Proof.
  induction a as [|c a IH]; [reflexivity|].
  rewrite sapp_cons. cbn [allChars]. now rewrite IH, andb_assoc.
Qed.

End StringFacts.

(** ** The read-only probe (pg_conn.go, SimpleQuery and Prepare) *)

Section ReadOnlyProbe.
Import PgConn.

(** The test of the code is on the query being a prefix of the literal. *)
Lemma rewriteReadOnlyProbe_unfold (q : string) :
  rewriteReadOnlyProbe q
  = if String.prefix q showTransactionReadOnly then "select 0" else q.
Proof. reflexivity. Qed.

(** C4, evaluated on the code: a query that begins with the literal
    [show transaction_read_only] and goes on is passed to the engine
    unchanged, and a query that is a proper beginning of the literal is
    replaced by [select 0] although it does not begin with the literal.
    The two arguments of [strings.HasPrefix] are in the reverse order of
    the two [SET ...] tests that follow it in [Prepare]. *)
Theorem readonly_probe_prefix_reversed :
  Go.HasPrefix "show transaction_read_only;" showTransactionReadOnly = true
  /\ rewriteReadOnlyProbe "show transaction_read_only;"
     = "show transaction_read_only;"
  /\ Go.HasPrefix "show" showTransactionReadOnly = false
  /\ rewriteReadOnlyProbe "show" = "select 0".
Proof. repeat split; reflexivity. Qed.

End ReadOnlyProbe.

(** ** Value projection (pg_types.go) *)

Section Projection.
Import PgTypes Wire.

Lemma pgTypeFromOid_text :
  pgTypeFromOid 25 = {| Oid := 25; Name := "text"; Typlen := 0 |}.
Proof. vm_compute. reflexivity. Qed.

Lemma pgOidFromType_timestamp : pgOidFromType "timestamp" = 1114.
Proof. vm_compute. reflexivity. Qed.

(** C8, evaluated on the code: a [time.Time] value is projected with the
    type of OID 25 (text), not 1114, and that is the OID a RowDescription
    built from first-row values carries for the column; the table of the
    same file maps the name [timestamp] to 1114.  The layout ends in
    [.999999], so a value with a zero fraction has no fractional part. *)
Theorem toPgValue_time_is_text (fl : FloatLib) (t : Time) :
  toPgValue fl (VTime t)
  = inr {| typ := {| Oid := 25; Name := "text"; Typlen := 0 |};
           val := Some (Go.bytes_of (Format true t)) |}
  /\ pgOidFromType "timestamp" = 1114
  /\ (forall (env : PgConn.Env) (name : string),
        PgConn.valueColumnData env 0 [name] [VTime t]
        = inr (cstr name ++ PgConn.zeros 6 ++ [x00; x00; x00; x19]
               ++ PgConn.zeros 8))
  /\ Format true Sample.newYearMorning = "2024-01-02 03:04:05".
Proof.
  split; [|split; [|split]].
  - simpl. rewrite pgTypeFromOid_text. reflexivity.
  - exact pgOidFromType_timestamp.
  - intros env name. simpl. rewrite pgTypeFromOid_text. simpl.
    rewrite ?app_nil_r. reflexivity.
  - vm_compute. reflexivity.
Qed.

End Projection.

(** ** Decimals as text (the format helpers) *)

Section DecimalText.
Import Formats.

(** What [duckDecimalToString] does: with [str] the decimal digits of the
    unscaled integer, the text of a decimal of scale 0 is [str]; for a
    scale [s > 0] it is [str], padded with zeros on the left to [s + 1]
    characters when it has at most [s], with a point put in front of its
    last [s] characters. *)
Lemma duckDecimalToString_point (d : Decimal) :
  let str := Go.FormatInt (Value d) in
  let padded := Go.Repeat "0" (S (Scale d) - String.length str) +:+ str in
  if (Scale d =? 0)%nat then duckDecimalToString d = str
  else exists ip fr : string,
      padded = ip +:+ fr
      /\ String.length fr = Scale d
      /\ duckDecimalToString d = ip +:+ "." +:+ fr.
Proof.
  intros str padded. unfold duckDecimalToString. fold str.
  destruct (Scale d =? 0)%nat eqn:Hs; [reflexivity|].
  apply Nat.eqb_neq in Hs.
  destruct (String.length str <=? Scale d)%nat eqn:Hl.
  - apply Nat.leb_le in Hl.
    exists "0", (Go.Repeat "0" (Scale d - String.length str) +:+ str).
    split; [|split].
    + unfold padded.
      replace (S (Scale d) - String.length str)%nat
        with (S (Scale d - String.length str)) by lia.
      simpl. rewrite sapp_assoc. reflexivity.
    + rewrite slength_app, length_Repeat1. lia.
    + reflexivity.
  - apply Nat.leb_gt in Hl.
    exists (Go.take (String.length str - Scale d) str),
           (Go.drop (String.length str - Scale d) str).
    split; [|split].
    + unfold padded.
      replace (S (Scale d) - String.length str)%nat with 0%nat by lia.
      simpl. rewrite sapp_nil_l, stake_drop. reflexivity.
    + rewrite slength_drop. lia.
    + reflexivity.
Qed.

Example duckDecimalToString_150 :
  duckDecimalToString {| Width := 5; Scale := 2; Value := 150 |} = "1.50".
Proof. reflexivity. Qed.

Example duckDecimalToString_5 :
  duckDecimalToString {| Width := 5; Scale := 2; Value := 5 |} = "0.05".
Proof. reflexivity. Qed.

Example duckDecimalToString_scale0 :
  duckDecimalToString {| Width := 5; Scale := 0; Value := 42 |} = "42".
Proof. reflexivity. Qed.

(** C7, evaluated on the code: the projection of the PostgreSQL side does
    not read the digits of a decimal; its text is the formatting of the
    double nearest to the value.  The decimals 150 at scale 2 and 15 at
    scale 1 are the same double, so whatever the formatter they are sent
    as the same text, where [duckDecimalToString] of the HTTP side gives
    them the texts [1.50] and [1.5] of the specification. *)
Theorem toPgValue_decimal_through_float :
  (forall (fl : FloatLib) (d : Decimal),
      PgTypes.toPgValue fl (VDecimal d)
      = inr {| PgTypes.typ := PgTypes.pgTypeFromOid 1700;
               PgTypes.val :=
                 Some (Go.bytes_of (FormatFloat fl (DecimalFloat64 fl d) 64)) |})
  /\ Sample.ieeeDecimalFloat64 Sample.oneAndAHalf
     = Sample.ieeeDecimalFloat64 Sample.oneAndFive
  /\ (forall fmt : float -> Z -> string,
        PgTypes.toPgValue (Sample.ieeeWith fmt) (VDecimal Sample.oneAndAHalf)
        = PgTypes.toPgValue (Sample.ieeeWith fmt) (VDecimal Sample.oneAndFive))
  /\ duckDecimalToString Sample.oneAndAHalf = "1.50"
  /\ duckDecimalToString Sample.oneAndFive = "1.5".
Proof.
  assert (H : Sample.ieeeDecimalFloat64 Sample.oneAndAHalf
              = Sample.ieeeDecimalFloat64 Sample.oneAndFive)
    by (vm_compute; reflexivity).
  split; [reflexivity|]. split; [exact H|].
  split; [|split; reflexivity].
  intros fmt. cbn [PgTypes.toPgValue Sample.ieeeWith FormatFloat DecimalFloat64].
  rewrite H. reflexivity.
Qed.

End DecimalText.

(** ** The LIMIT rewrite (ch_server.go) *)

Section LimitRewrite.
Import ChServer.

Lemma matchFold_complete (lit kw r : string) :
  eqFoldStr lit kw = true -> matchFold lit (kw +:+ r) = Some r.
Proof.
  revert kw; induction lit as [|l lit IH]; intros [|c kw] H; simpl in H;
    try discriminate.
  - reflexivity.
  - apply andb_prop in H as [Hc H]. rewrite sapp_cons. simpl.
    rewrite Hc. apply IH, H.
Qed.

Lemma matchFold_sound (lit s r : string) :
  matchFold lit s = Some r ->
  exists kw, s = kw +:+ r /\ eqFoldStr lit kw = true.
Proof.
  revert s; induction lit as [|l lit IH]; intros s H; simpl in H.
  - inversion H; subst. exists EmptyString. split; reflexivity.
  - destruct s as [|c s]; [discriminate|].
    destruct (eqFold l c) eqn:Hc; [|discriminate].
    destruct (IH _ H) as (kw & -> & Hkw).
    exists (String c kw). split; [reflexivity|]. simpl. now rewrite Hc, Hkw.
Qed.

Lemma matchFold_app (lit s r u : string) :
  matchFold lit s = Some r -> matchFold lit (s +:+ u) = Some (r +:+ u).
Proof.
  intros H. apply matchFold_sound in H as (kw & -> & Hkw).
  rewrite sapp_assoc. now apply matchFold_complete.
Qed.

Lemma digit_not_white (c : ascii) : Go.is_digit c = true -> isWhite c = false.
Proof.
  unfold Go.is_digit, isWhite. intros H.
  apply andb_prop in H as [H1 H2].
  apply N.leb_le in H1. apply N.leb_le in H2.
  repeat (apply orb_false_intro); apply N.eqb_neq; lia.
Qed.

Lemma white_not_digit (c : ascii) : isWhite c = true -> Go.is_digit c = false.
Proof.
  intros H. destruct (Go.is_digit c) eqn:Hd; [|reflexivity].
  apply digit_not_white in Hd. congruence.
Qed.

Lemma headIs_app (p : ascii -> bool) (a b : string) :
  headIs p (a +:+ b) = match a with
                       | EmptyString => headIs p b
                       | String c _ => p c
                       end.
Proof. destruct a; reflexivity. Qed.

Lemma allChars_head (p : ascii -> bool) (a : string) :
  allChars p a = true -> a <> EmptyString -> headIs p a = true.
Proof.
  destruct a as [|c a]; [congruence|]. simpl. intros H _.
  now apply andb_prop in H as [H _].
Qed.

(** A run of [p] followed by anything that does not start in [q] does not
    start in [q], when [p] and [q] are disjoint. *)
Lemma headIs_run (p q : ascii -> bool) (a b : string) :
  (forall c, p c = true -> q c = false) ->
  allChars p a = true -> headIs q b = false -> headIs q (a +:+ b) = false.
Proof.
  intros Hpq Ha Hb. rewrite headIs_app. destruct a as [|c a]; [exact Hb|].
  simpl in Ha. apply andb_prop in Ha as [Hc _]. now apply Hpq.
Qed.

Lemma headIs_nonempty_run (p q : ascii -> bool) (a b : string) :
  (forall c, p c = true -> q c = false) ->
  allChars p a = true -> a <> EmptyString -> headIs q (a +:+ b) = false.
Proof.
  intros Hpq Ha Hne. rewrite headIs_app. destruct a as [|c a]; [congruence|].
  simpl in Ha. apply andb_prop in Ha as [Hc _]. now apply Hpq.
Qed.

Lemma nonempty_length (s : string) :
  s <> EmptyString -> (String.length s =? 0)%nat = false.
Proof. destruct s; [congruence | reflexivity]. Qed.

Lemma limitMatch_complete (m a b post : string) :
  limitOccurrence m a b -> headIs Go.is_digit post = false ->
  limitMatch (m +:+ post) = Some (a, b, post).
Proof.
  intros (kw & w1 & w2 & w3 & -> & Hkw & Hw1 & Hn1 & Ha & Hna & Hw2 & Hw3 & Hb & Hnb)
         Hpost.
  unfold limitMatch. rewrite !sapp_assoc.
  rewrite (matchFold_complete _ _ _ Hkw).
  rewrite (span_complete isWhite w1); [|exact Hw1|].
  2:{ apply headIs_nonempty_run with (p := Go.is_digit);
        [apply digit_not_white | exact Ha | exact Hna]. }
  rewrite (nonempty_length _ Hn1).
  rewrite (span_complete Go.is_digit a); [|exact Ha|].
  2:{ apply headIs_run with (p := isWhite);
        [apply white_not_digit | exact Hw2 | reflexivity]. }
  rewrite (nonempty_length _ Hna).
  rewrite (span_complete isWhite w2); [|exact Hw2 | reflexivity].
  rewrite sapp_cons, sapp_nil_l.
  rewrite (span_complete isWhite w3); [|exact Hw3|].
  2:{ apply headIs_nonempty_run with (p := Go.is_digit);
        [apply digit_not_white | exact Hb | exact Hnb]. }
  rewrite (span_complete Go.is_digit b); [|exact Hb | exact Hpost].
  rewrite (nonempty_length _ Hnb). reflexivity.
Qed.

Lemma length_nonzero (s : string) :
  (String.length s =? 0)%nat = false -> s <> EmptyString.
Proof. destruct s; [discriminate | congruence]. Qed.

Lemma limitMatch_sound (s a b rest : string) :
  limitMatch s = Some (a, b, rest) ->
  exists m, s = m +:+ rest /\ limitOccurrence m a b
            /\ headIs Go.is_digit rest = false.
Proof.
  unfold limitMatch. intros H.
  destruct (matchFold "LIMIT" s) as [s1|] eqn:Hkw; [|discriminate].
  apply matchFold_sound in Hkw as (kw & -> & Hkw).
  destruct (Go.span isWhite s1) as [w1 s2] eqn:H1.
  destruct (String.length w1 =? 0)%nat eqn:Hn1; [discriminate|].
  destruct (Go.span Go.is_digit s2) as [a' s3] eqn:H2.
  destruct (String.length a' =? 0)%nat eqn:Hna; [discriminate|].
  destruct (Go.span isWhite s3) as [w2 s4] eqn:H3.
  destruct s4 as [|comma s5]; [discriminate|].
  destruct (Ascii.eqb comma ",") eqn:Hc.
  2:{ exfalso. revert H. destruct comma as [[] [] [] [] [] [] [] []];
        try discriminate Hc; discriminate. }
  apply Ascii.eqb_eq in Hc. subst comma.
  destruct (Go.span isWhite s5) as [w3 s6] eqn:H4.
  destruct (Go.span Go.is_digit s6) as [b' s7] eqn:H5.
  destruct (String.length b' =? 0)%nat eqn:Hnb; [discriminate|].
  inversion H; subst a' b' s7; clear H.
  apply span_sound in H1 as (-> & Hw1 & _).
  apply span_sound in H2 as (-> & Ha & _).
  apply span_sound in H3 as (-> & Hw2 & _).
  apply span_sound in H4 as (-> & Hw3 & _).
  apply span_sound in H5 as (-> & Hb & Hrest).
  exists (kw +:+ w1 +:+ a +:+ w2 +:+ "," +:+ w3 +:+ b).
  split; [|split; [|exact Hrest]].
  - rewrite !sapp_assoc. reflexivity.
  - exists kw, w1, w2, w3.
    repeat split; auto using length_nonzero.
Qed.

Lemma replaceLimit_skip (x y : string) :
  replaceLimit (String.length x) (x +:+ y) = replaceLimit 0 y.
Proof.
  induction x as [|c x IH]; [reflexivity|].
  rewrite sapp_cons. simpl. exact IH.
Qed.

(** What the first letter of the keyword is not. *)
Lemma eqFold_L (c : ascii) :
  eqFold "L" c = true -> c = "L"%char \/ c = "l"%char.
Proof.
  unfold eqFold. intros H. apply orb_prop in H as [H|H].
  - left. now apply Ascii.eqb_eq.
  - right. apply N.eqb_eq in H.
    rewrite <- (ascii_N_embedding c), H. reflexivity.
Qed.

Lemma matchFold_LIMIT_app (s r : string) (c : ascii) (t : string) :
  eqFold "L" c = true -> s <> EmptyString ->
  matchFold "LIMIT" (s +:+ String c t)
  = option_map (fun r => r +:+ String c t) (matchFold "LIMIT" s).
Proof.
  intros Hc Hs.
  destruct (matchFold "LIMIT" s) as [r'|] eqn:Hm.
  - cbn [option_map]. now apply matchFold_app.
  - cbn [option_map].
    assert (HI : eqFold "I" c = false /\ eqFold "M" c = false
                 /\ eqFold "T" c = false)
      by (destruct (eqFold_L c Hc) as [-> | ->]; repeat split; reflexivity).
    destruct HI as (HI & HM & HT).
    destruct s as [|x1 s]; [congruence|]. rewrite sapp_cons.
    simpl in Hm |- *. destruct (eqFold "L" x1); [|reflexivity].
    destruct s as [|x2 s]; [simpl; now rewrite HI|]. rewrite sapp_cons.
    simpl in Hm |- *. destruct (eqFold "I" x2); [|reflexivity].
    destruct s as [|x3 s]; [simpl; now rewrite HM|]. rewrite sapp_cons.
    simpl in Hm |- *. destruct (eqFold "M" x3); [|reflexivity].
    destruct s as [|x4 s]; [simpl; now rewrite HI|]. rewrite sapp_cons.
    simpl in Hm |- *. destruct (eqFold "I" x4); [|reflexivity].
    destruct s as [|x5 s]; [simpl; now rewrite HT|]. rewrite sapp_cons.
    simpl in Hm |- *. destruct (eqFold "T" x5); [discriminate|reflexivity].
Qed.

Lemma limitMatch_app (s : string) (c : ascii) (t : string) :
  eqFold "L" c = true -> s <> EmptyString ->
  limitMatch (s +:+ String c t)
  = option_map (fun '(a, b, r) => (a, b, r +:+ String c t)) (limitMatch s).
Proof.
  intros Hc Hs.
  assert (Hw : headIs isWhite (String c t) = false)
    by (destruct (eqFold_L c Hc) as [-> | ->]; reflexivity).
  assert (Hd : headIs Go.is_digit (String c t) = false)
    by (destruct (eqFold_L c Hc) as [-> | ->]; reflexivity).
  assert (Hcomma : Ascii.eqb c "," = false)
    by (destruct (eqFold_L c Hc) as [-> | ->]; reflexivity).
  unfold limitMatch. rewrite (matchFold_LIMIT_app s EmptyString c t Hc Hs).
  destruct (matchFold "LIMIT" s) as [s1|]; [|reflexivity]. simpl.
  rewrite (span_app_stop isWhite s1 _ Hw).
  destruct (Go.span isWhite s1) as [w1 s2]. simpl.
  destruct (String.length w1 =? 0)%nat; [reflexivity|].
  rewrite (span_app_stop Go.is_digit s2 _ Hd).
  destruct (Go.span Go.is_digit s2) as [a s3]. simpl.
  destruct (String.length a =? 0)%nat; [reflexivity|].
  rewrite (span_app_stop isWhite s3 _ Hw).
  destruct (Go.span isWhite s3) as [w2 s4]. simpl.
  destruct s4 as [|comma s5].
  - rewrite sapp_nil_l.
    destruct (eqFold_L c Hc) as [-> | ->]; reflexivity.
  - rewrite sapp_cons.
    destruct (Ascii.eqb comma ",") eqn:Hcm.
    + apply Ascii.eqb_eq in Hcm. subst comma.
      rewrite (span_app_stop isWhite s5 _ Hw).
      destruct (Go.span isWhite s5) as [w3 s6]. simpl.
      rewrite (span_app_stop Go.is_digit s6 _ Hd).
      destruct (Go.span Go.is_digit s6) as [b s7]. simpl.
      destruct (String.length b =? 0)%nat; reflexivity.
    + destruct comma as [[] [] [] [] [] [] [] []];
        try discriminate Hcm; reflexivity.
Qed.

Lemma replaceLimit_app (pre : string) (k : nat) (c : ascii) (t : string) :
  eqFold "L" c = true -> (k <= String.length pre)%nat ->
  replaceLimit k (pre +:+ String c t)
  = replaceLimit k pre +:+ replaceLimit 0 (String c t).
Proof.
  intros Hc. remember (String.length pre) as n eqn:Hn.
  revert pre Hn k.
  induction n as [n IH] using lt_wf_ind. intros pre Hn k Hk.
  destruct pre as [|x pre].
  - simpl in Hn. subst n. assert (k = 0%nat) by lia. subst k. reflexivity.
  - rewrite sapp_cons. simpl in Hn.
    destruct k as [|k].
    + cbn [replaceLimit].
      change (String x (pre +:+ String c t))
        with (String x pre +:+ String c t).
      rewrite (limitMatch_app (String x pre) c t Hc) by congruence.
      destruct (limitMatch (String x pre)) as [[[a b] rest]|] eqn:Hm; simpl.
      * apply limitMatch_sound in Hm as (m & Hm & _ & _).
        assert (Hlen : String.length (String x pre)
                       = (String.length m + String.length rest)%nat)
          by (rewrite Hm; apply slength_app).
        simpl in Hlen.
        rewrite slength_app, slength_app. simpl String.length.
        replace (String.length pre + S (String.length t)
                 - (String.length rest + S (String.length t)))%nat
          with (String.length pre - String.length rest)%nat by lia.
        rewrite (IH (String.length pre)) by (try reflexivity; lia).
        rewrite !sapp_assoc. reflexivity.
      * rewrite (IH (String.length pre)) by (try reflexivity; lia).
        reflexivity.
    + cbn [replaceLimit].
      apply (IH (String.length pre)); [lia | reflexivity | lia].
Qed.

Lemma limitOccurrence_head (m a b : string) :
  limitOccurrence m a b ->
  exists c m', m = String c m' /\ eqFold "L" c = true.
Proof.
  intros (kw & w1 & w2 & w3 & -> & Hkw & _).
  destruct kw as [|c kw]; [discriminate|].
  simpl in Hkw. apply andb_prop in Hkw as [Hc _].
  exists c. eexists. split; [apply sapp_cons | exact Hc].
Qed.

(** C9: every occurrence of LIMIT a, b is replaced by LIMIT b OFFSET a, the
    text before and after it being rewritten in the same way, and a query
    with no occurrence is left as it is.  [a] and [b] are strings of
    digits, so every non-negative integer in any decimal spelling; the
    digits of [b] are those up to the first character that is not one. *)
Theorem limitRewrite_occurrences :
  (forall pre m a b post : string,
      limitOccurrence m a b -> headIs Go.is_digit post = false ->
      limitRewrite (pre +:+ m +:+ post)
      = limitRewrite pre +:+ "LIMIT " +:+ b +:+ " OFFSET " +:+ a
        +:+ limitRewrite post)
  /\ (forall q : string,
        (forall pre m a b post : string,
            q = pre +:+ m +:+ post -> ~ limitOccurrence m a b) ->
        limitRewrite q = q).
Proof.
  split.
  - intros pre m a b post Hocc Hpost. unfold limitRewrite.
    destruct (limitOccurrence_head _ _ _ Hocc) as (c & m' & Hm & Hc).
    subst m. rewrite sapp_cons.
    rewrite (replaceLimit_app pre 0 c _ Hc) by lia. f_equal.
    pose proof (limitMatch_complete _ _ _ _ Hocc Hpost) as Hmatch.
    rewrite sapp_cons in Hmatch.
    cbn [replaceLimit]. rewrite Hmatch.
    rewrite slength_app.
    replace (String.length m' + String.length post - String.length post)%nat
      with (String.length m') by lia.
    rewrite replaceLimit_skip. unfold limitTemplate.
    rewrite !sapp_assoc. reflexivity.
  - intros q. unfold limitRewrite.
    induction q as [|c q IH]; intros Hno; [reflexivity|].
    cbn [replaceLimit].
    destruct (limitMatch (String c q)) as [[[a b] rest]|] eqn:Hm.
    + exfalso. apply limitMatch_sound in Hm as (m & Hm & Hocc & _).
      apply (Hno EmptyString m a b rest); [|exact Hocc].
      rewrite sapp_nil_l. exact Hm.
    + rewrite IH; [reflexivity|].
      intros pre m a b post Hq. apply (Hno (String c pre) m a b post).
      rewrite sapp_cons. now rewrite Hq.
Qed.

End LimitRewrite.

(** ** Execute with many parameters (pg_conn.go, bindValues and Execute) *)

Section ManyParameters.
Import Wire PgTypes PgConn.

Variable fl : FloatLib.

Lemma splitAtByte_sound (c : ascii) (s a b : string) :
  Go.splitAtByte c s = Some (a, b) ->
  s = a +:+ b /\ allChars (fun d => negb (Ascii.eqb d c)) a = true
  /\ exists b', b = String c b'.
Proof.
  revert a b; induction s as [|d s IH]; intros a b H; simpl in H;
    [discriminate|].
  destruct (Ascii.eqb d c) eqn:Hd.
  - inversion H; subst. apply Ascii.eqb_eq in Hd. subst d.
    repeat split. now exists s.
  - destruct (Go.splitAtByte c s) as [[a' b']|] eqn:Hs; [|discriminate].
    inversion H; subst. destruct (IH _ _ eq_refl) as (-> & Ha & Hb).
    repeat split; [|exact Hb]. simpl. now rewrite Hd.
Qed.

Lemma splitAtByte_none (c : ascii) (s : string) :
  Go.splitAtByte c s = None ->
  allChars (fun d => negb (Ascii.eqb d c)) s = true.
Proof.
  induction s as [|d s IH]; intros H; simpl in H |- *; [reflexivity|].
  destruct (Ascii.eqb d c); [discriminate|].
  destruct (Go.splitAtByte c s) as [[a b]|]; [discriminate|].
  now rewrite IH.
Qed.

Lemma tokens_literal_prefix (a s : string) :
  allChars (fun d => negb (Ascii.eqb d "$")) a = true ->
  tokens 0 (a +:+ s)
  = map Lit (list_ascii_of_string a) ++ tokens 0 s.
Proof.
  induction a as [|c a IH]; intros H; [reflexivity|].
  simpl in H. apply andb_prop in H as [Hc H].
  rewrite sapp_cons. cbn [tokens list_ascii_of_string map app].
  apply negb_true_iff in Hc. rewrite Hc. now rewrite IH.
Qed.

Lemma tokens_skip (x y : string) :
  tokens (String.length x) (x +:+ y) = tokens 0 y.
Proof.
  induction x as [|c x IH]; [reflexivity|].
  rewrite sapp_cons. simpl. exact IH.
Qed.

Lemma substituteAll_literals (args : list Val) (a : string) (ts : list token) :
  substituteAll fl args (map Lit (list_ascii_of_string a) ++ ts)
  = option_map (fun r => a +:+ r) (substituteAll fl args ts).
Proof.
  induction a as [|c a IH]; cbn [list_ascii_of_string map app].
  - destruct (substituteAll fl args ts); reflexivity.
  - cbn [substituteAll substitute]. rewrite IH.
    destruct (substituteAll fl args ts); reflexivity.
Qed.

Lemma length_split (a b : string) (n : nat) :
  (String.length (a +:+ String "$" b) < S n)%nat -> (String.length b < n)%nat.
Proof. rewrite slength_app. simpl. lia. Qed.

(** The loop against the reading of the text, from a token boundary. *)
Lemma bindValues_loop_spec (args : list Val) :
  Z.of_nat (length args) < Go.MaxInt64 ->
  forall (fuel : nat) (rest sb out : string),
    (String.length rest < fuel)%nat ->
    substituteAll fl args (tokens 0 rest) = Some out ->
    bindValues_loop fl fuel rest args sb = Bound (sb +:+ out).
Proof.
  intros Hlen. induction fuel as [|fuel IH]; intros rest sb out Hf Hs; [lia|].
  cbn [bindValues_loop].
  destruct (Go.splitAtByte "$" rest) as [[before seg]|] eqn:Hsp.
  - apply splitAtByte_sound in Hsp as (-> & Hb & seg' & ->).
    rewrite (tokens_literal_prefix _ _ Hb), substituteAll_literals in Hs.
    destruct (substituteAll fl args (tokens 0 (String "$" seg')))
      as [out'|] eqn:Hs'; [|discriminate].
    cbn [option_map] in Hs. inversion Hs; subst out; clear Hs.
    apply length_split in Hf.
    cbn [tokens] in Hs'. change (Ascii.eqb "$" "$") with true in Hs'.
    cbn [Go.drop].
    destruct (Go.span Go.is_digit seg') as [digits after] eqn:Hd.
    destruct (String.length digits =? 0)%nat eqn:Hz.
    + cbn [substituteAll substitute] in Hs'.
      destruct (substituteAll fl args (tokens 0 seg')) as [out''|] eqn:Hs'';
        [|discriminate].
      inversion Hs'; subst out'; clear Hs'.
      rewrite (IH seg' _ out'' Hf Hs''). now rewrite !sapp_assoc.
    + apply span_sound in Hd as (-> & _ & _).
      rewrite tokens_skip in Hs'.
      assert (Hf' : (String.length after < fuel)%nat)
        by (rewrite slength_app in Hf; lia).
      cbn [substituteAll substitute] in Hs'.
      unfold Go.ParseInt_digits.
      set (N := Go.digits_value 0 digits) in *.
      destruct (N <? 1) eqn:H1; [discriminate|].
      apply Z.ltb_ge in H1.
      destruct (N >? Z.of_nat (length args)) eqn:H2.
      * apply Z.gtb_lt in H2.
        destruct (substituteAll fl args (tokens 0 after)) as [out''|] eqn:Hs'';
          [|discriminate].
        inversion Hs'; subst out'; clear Hs'.
        assert (Hgt : (Z.min N Go.MaxInt64 >? Z.of_nat (length args)) = true)
          by (apply Z.gtb_lt; lia).
        rewrite Hgt, (IH after _ out'' Hf' Hs''). now rewrite !sapp_assoc.
      * assert (Hle : N <= Z.of_nat (length args))
          by (rewrite Z.gtb_ltb in H2; apply Z.ltb_ge in H2; exact H2).
        replace (Z.min N Go.MaxInt64) with N by lia.
        rewrite H2. replace (N <? 1) with false by (symmetry; apply Z.ltb_ge; lia).
        destruct (args !! Z.to_nat (N - 1)) as [v|]; [|discriminate].
        destruct (literal fl v) as [piece|] eqn:Hv; [|discriminate].
        destruct (substituteAll fl args (tokens 0 after)) as [out''|] eqn:Hs'';
          [|discriminate].
        inversion Hs'; subst out'; clear Hs'.
        destruct v; simpl in Hv; try discriminate; inversion Hv; subst piece;
          rewrite (IH after _ out'' Hf' Hs''); now rewrite !sapp_assoc.
  - apply splitAtByte_none in Hsp.
    pose proof (tokens_literal_prefix rest EmptyString Hsp) as Ht.
    rewrite sapp_nil_r in Ht. cbn [tokens] in Ht. rewrite Ht in Hs.
    rewrite substituteAll_literals in Hs. cbn in Hs.
    inversion Hs. now rewrite sapp_nil_r.
Qed.

(** The fuel given by [bindValues] is never used up. *)
Lemma bindValues_loop_fuel (args : list Val) :
  forall (fuel : nat) (rest sb : string),
    (String.length rest < fuel)%nat ->
    bindValues_loop fl fuel rest args sb <> BindFuel.
Proof.
  induction fuel as [|fuel IH]; intros rest sb Hf; [lia|].
  cbn [bindValues_loop].
  destruct (Go.splitAtByte "$" rest) as [[before seg]|] eqn:Hsp; [|discriminate].
  apply splitAtByte_sound in Hsp as (-> & Hb & seg' & ->).
  apply length_split in Hf. cbn [Go.drop].
  destruct (Go.span Go.is_digit seg') as [digits after] eqn:Hd.
  assert (Hf' : (String.length after < fuel)%nat).
  { apply span_sound in Hd as (-> & _ & _). rewrite slength_app in Hf. lia. }
  destruct (String.length digits =? 0)%nat; [now apply IH|].
  destruct (_ >? _); [now apply IH|].
  destruct (_ <? 1); [discriminate|].
  destruct (args !! _) as [v|]; [|discriminate].
  destruct v; try discriminate; now apply IH.
Qed.

Lemma bindValues_total (sql : string) (args : list Val) :
  bindValues fl sql args <> BindFuel.
Proof. apply bindValues_loop_fuel. lia. Qed.

Lemma bindValues_spec (sql : string) (args : list Val) (out : string) :
  Z.of_nat (length args) < Go.MaxInt64 ->
  substituteAll fl args (tokens 0 sql) = Some out ->
  bindValues fl sql args = Bound out.
Proof.
  intros Hlen Hs. unfold bindValues.
  rewrite (bindValues_loop_spec args Hlen _ sql EmptyString out); [reflexivity| lia |exact Hs].
Qed.

End ManyParameters.

(** ** Facts about the connection *)

Section ConnFacts.
Import Wire PgTypes PgConn.
Variable env : Env.

Lemma quiet_write (m : Message) : quiet (onWire (WriteMessage m)).
Proof.
  intros c. unfold onWire, WriteMessage.
  destruct (wr_left (wire c)) as [[|k]|]; eexists; eexists; split;
    try reflexivity; auto.
Qed.

Lemma quiet_bind {A B} (m : M PgConn A) (k : A -> M PgConn B) :
  quiet m -> (forall a, quiet (k a)) -> quiet (bind m k).
Proof.
  intros Hm Hk c. destruct (Hm c) as (a & c1 & E & H1 & H2 & H3 & H4).
  destruct (Hk a c1) as (b & c2 & E' & H1' & H2' & H3' & H4').
  exists b, c2. unfold bind. rewrite E, E'. repeat split; congruence.
Qed.

Lemma quiet_ret {A} (a : A) : quiet (ret a).
Proof. intros c. exists a, c. repeat split. Qed.

Lemma quiet_SendErrorResponse (e : string) : quiet (SendErrorResponse e).
Proof.
  unfold SendErrorResponse. apply quiet_bind; [|intros; apply quiet_write].
  intros c. exists tt, (set_inError true c). repeat split.
Qed.

Lemma quiet_SendCommandComplete (tag : string) : quiet (SendCommandComplete tag).
Proof. apply quiet_write. Qed.

Lemma quiet_SendRowData (vs : list Val) : quiet (SendRowData env vs).
Proof.
  unfold SendRowData. destruct (rowData env vs);
    [apply quiet_ret | apply quiet_write].
Qed.

Lemma quiet_streamRows (data : list (list Val)) (final : Go.error) :
  forall n, quiet (streamRows env data final n).
Proof.
  induction data as [|row data IH]; intros n; cbn [streamRows].
  - destruct final; [apply quiet_SendErrorResponse | apply quiet_SendCommandComplete].
  - apply quiet_bind; [apply quiet_SendRowData|].
    intros [e|]; [apply quiet_SendErrorResponse | apply IH].
Qed.

(** Running a statement without a row description asks the engine for
    exactly one thing: the rows of that statement. *)
Lemma RunStmt_calls (st : Stmt) (vs : list Val) (q : string) (c : PgConn) :
  exists e c',
    RunStmt env (Some st) vs false q c = Ret e c'
    /\ calls c' = calls c ++ [CallQuery (stmt_text st) (namedValues vs)]
    /\ stmts c' = stmts c /\ portals c' = portals c.
Proof.
  unfold RunStmt. unfold bind at 1. cbn [call modify].
  set (c1 := {| wire := wire c; stmts := stmts c; portals := portals c;
                cancel := cancel c; inError := inError c;
                calls := calls c ++ [CallQuery (stmt_text st) (namedValues vs)] |}).
  destruct (QueryContext st (namedValues vs)) as [e|rows].
  - destruct (quiet_SendErrorResponse e c1) as (a & c' & E & H1 & H2 & H3 & _).
    exists a, c'. rewrite E. repeat split; assumption.
  - destruct (quiet_streamRows (Data rows) (Final rows) 0 c1)
      as (a & c' & E & H1 & H2 & H3 & _).
    exists a, c'. rewrite E. repeat split; assumption.
Qed.

End ConnFacts.

Section ExecuteManyParameters.
Import Wire PgTypes PgConn.
Variable env : Env.

(** X10.  For a portal whose statement declares more than 20 parameters and
    whose text reads as characters and placeholders numbered from 1,
    [bindValues] returns the text of the statement with every placeholder
    replaced by the literal of its value (a quoted string with its quotes
    doubled, the decimal form of an integer or a float, [null] for nil or
    past the last value) and every other character kept; Execute prepares
    that text, runs the statement just prepared without arguments and
    closes it, and never runs the statement the portal was bound to. *)
Lemma Execute_substituted_text
        (c : PgConn) (portalName : string) (maxRows : Z) (p : portal)
        (text : string) :
  portals c !! portalName = Some p ->
  numInput (p_stmt p) > maxInputArgsUsePrepared ->
  Z.of_nat (length (values p)) < Go.MaxInt64 ->
  substituteAll (fl env) (values p) (tokens 0 (query (p_stmt p))) = Some text ->
  bindValues (fl env) (query (p_stmt p)) (values p) = Bound text
  /\ (forall st : Stmt,
        conn_Prepare env text = inr st ->
        exists e c',
          Execute env portalName maxRows c = Ret e c'
          /\ calls c' = calls c ++ [CallPrepare text;
                                    CallQuery (stmt_text st) [];
                                    CallClose (stmt_text st)])
  /\ (forall err : string,
        conn_Prepare env text = inl err ->
        exists e c',
          Execute env portalName maxRows c = Ret e c'
          /\ calls c' = calls c ++ [CallPrepare text]).
Proof.
  intros Hp Hn Hlen Hsub.
  pose proof (bindValues_spec (fl env) _ _ _ Hlen Hsub) as Hbind.
  split; [exact Hbind|].
  assert (Hgt : (numInput (p_stmt p) >? maxInputArgsUsePrepared) = true)
    by (apply Z.gtb_lt; lia).
  split.
  - intros st Hprep. unfold Execute. unfold bind at 1. cbn [get].
    rewrite Hp. unfold bind at 1. cbn [modify].
    unfold bind at 1. rewrite Hgt, Hbind.
    unfold bind at 1. cbn [call modify]. rewrite Hprep.
    unfold bind at 1.
    match goal with
    | |- context [RunStmt env (Some st) [] false ?q ?c1] =>
        destruct (RunStmt_calls env st [] q c1) as (e & c2 & E & Hc & _)
    end.
    rewrite E. cbn. eexists; eexists; split; [reflexivity|].
    cbn. rewrite Hc. cbn. rewrite <- !app_assoc. reflexivity.
  - intros err Hprep. unfold Execute. unfold bind at 1. cbn [get].
    rewrite Hp. unfold bind at 1. cbn [modify].
    unfold bind at 1. rewrite Hgt, Hbind.
    unfold bind at 1. cbn [call modify]. rewrite Hprep.
    match goal with
    | |- context [SendErrorResponse err ?c1] =>
        destruct (quiet_SendErrorResponse err c1) as (e & c2 & E & Hc & _)
    end.
    rewrite E. cbn. eexists; eexists; split; [reflexivity|].
    cbn. rewrite Hc. reflexivity.
Qed.

Lemma splitAtByte_complete (c : ascii) (a s : string) :
  allChars (fun d => negb (Ascii.eqb d c)) a = true ->
  Go.splitAtByte c (a +:+ String c s) = Some (a, String c s).
Proof.
  induction a as [|d a IH]; intros H.
  - rewrite sapp_nil_l. simpl. now rewrite Ascii.eqb_refl.
  - simpl in H. apply andb_prop in H as [Hd H]. apply negb_true_iff in Hd.
    rewrite sapp_cons. simpl. rewrite Hd, (IH H). reflexivity.
Qed.

Lemma bindValues_placeholder_zero_panics (pre post : string) (args : list Val) :
  allChars notDollar pre = true ->
  headIs Go.is_digit post = false ->
  bindValues (fl env) (pre +:+ "$0" +:+ post) args
  = BindPanic "index out of range [-1]".
Proof.
  intros Hpre Hpost. unfold bindValues. cbn [bindValues_loop].
  change ("$0" +:+ post) with (String "$" (String "0" post)).
  rewrite (splitAtByte_complete "$" pre _ Hpre).
  cbn [Go.drop].
  change (String "0" post) with ("0" +:+ post).
  rewrite (span_complete Go.is_digit "0" post eq_refl Hpost).
  cbn [String.length Nat.eqb].
  change (Go.ParseInt_digits "0") with 0.
  destruct args; reflexivity.
Qed.

(** C6, evaluated on the code.  A statement of more than 20 parameters
    whose text holds [$0], with no dollar sign before it and no digit
    after it (inside a string literal, say), is not run at all:
    [bindValues] reads the 0 as a placeholder number and indexes the
    values at [0 - 1], and Execute ends in that panic before it asks the
    engine for anything or writes a frame.  The claim has the text
    prepared with every character outside the placeholders 1 to n kept. *)
Theorem Execute_placeholder_zero_panics
        (c : PgConn) (portalName : string) (maxRows : Z) (p : portal)
        (pre post : string) :
  portals c !! portalName = Some p ->
  numInput (p_stmt p) > 20 ->
  query (p_stmt p) = pre +:+ "$0" +:+ post ->
  allChars notDollar pre = true ->
  headIs Go.is_digit post = false ->
  bindValues (fl env) (query (p_stmt p)) (values p)
  = BindPanic "index out of range [-1]"
  /\ exists c',
      Execute env portalName maxRows c = Panic "index out of range [-1]" c'
      /\ calls c' = calls c
      /\ sent (wire c') = sent (wire c).
Proof.
  intros Hp Hn Hq Hpre Hpost.
  assert (Hb : bindValues (fl env) (query (p_stmt p)) (values p)
               = BindPanic "index out of range [-1]")
    by (rewrite Hq; apply bindValues_placeholder_zero_panics; assumption).
  split; [exact Hb|].
  unfold Execute. unfold bind at 1. cbn [get]. rewrite Hp.
  unfold bind at 1. cbn [modify]. unfold bind at 1.
  replace (numInput (p_stmt p) >? maxInputArgsUsePrepared) with true
    by (symmetry; apply Z.gtb_lt; unfold maxInputArgsUsePrepared; lia).
  rewrite Hb. cbn [panic].
  eexists. split; [reflexivity|]. split; reflexivity.
Qed.

End ExecuteManyParameters.

(** ** The skip discipline of the codec (wire.go, message.go) *)

Section SkipDiscipline.
Import Wire.

Lemma int32_small (z : Z) :
  -2147483648 <= z <= 2147483647 -> Go.int32 z = z.
Proof. intros H. unfold Go.int32. rewrite Z.mod_small; lia. Qed.

Lemma Read_exact (pre rest : list byte) (w : Wire) :
  rd w = pre ++ rest ->
  Read (length pre) w = Ret (pre, None) (set_rd rest w).
Proof.
  intros H. unfold Read. rewrite H.
  rewrite length_app.
  replace (length pre <=? length pre + length rest)%nat with true
    by (symmetry; apply Nat.leb_le; lia).
  rewrite take_app_length, drop_app_length. reflexivity.
Qed.

Lemma discardN_exact (n : Z) (pre rest : list byte) (w : Wire) :
  0 <= n -> length pre = Z.to_nat n -> rd w = pre ++ rest ->
  discardN n w = Ret None (set_rd rest w).
Proof.
  intros Hn Hl H. unfold discardN.
  destruct (n <=? 0) eqn:Hz.
  - apply Z.leb_le in Hz. assert (n = 0) by lia. subst n.
    destruct pre; [|discriminate]. simpl in H. unfold ret.
    destruct w; simpl in *; subst; reflexivity.
  - rewrite H, length_app, <- Hl.
    replace (length pre <=? length pre + length rest)%nat with true
      by (symmetry; apply Nat.leb_le; lia).
    rewrite drop_app_length. reflexivity.
Qed.

(** [Read] buffers exactly the [Length - 4] bytes of the body. *)
Lemma MessageRead_takes_body (w : Wire) (m : Message) (body rest : list byte) :
  lastMsg w = Some m -> has_wire m = true -> buf m = None ->
  4 <= Length m <= 2147483647 ->
  rd w = body ++ rest -> length body = Z.to_nat (Length m - 4) ->
  MessageRead w
  = Ret (Some body, None)
        {| rd := rest;
           lastMsg := Some {| has_wire := true; buf := Some body;
                              Length := Length m; Typ := Typ m |};
           sent := sent w; wr_left := wr_left w |}.
Proof.
  intros Hm Hw Hb HL Hrd Hlen. unfold MessageRead, bind, get.
  rewrite Hm, Hb, Hw. cbn [negb].
  rewrite int32_small by lia.
  destruct ((Length m <=? WireBufferSize + 4)
            && ((Length m - 4 <? 0) || (WireBufferSize <? Length m - 4))) eqn:Hc.
  - exfalso. apply andb_prop in Hc as [H1 H2].
    apply Z.leb_le in H1. unfold WireBufferSize in *.
    apply orb_prop in H2 as [H2|H2]; [apply Z.ltb_lt in H2 | apply Z.ltb_lt in H2]; lia.
  - rewrite <- Hlen, (Read_exact body rest w Hrd). reflexivity.
Qed.

(** One step of the codec.  When its last message has a wire and the length
    [L], the next [ReadMessage] passes over exactly [L - 4] bytes, the
    body, if that body was never read, and over none if [Read] has
    buffered it; the five bytes that follow are the header of the message
    returned. *)
Lemma ReadMessage_next_header
        (w : Wire) (m : Message) (body rest : list byte)
        (t b1 b2 b3 b4 : byte) :
  lastMsg w = Some m -> has_wire m = true ->
  (buf m = None -> 4 <= Length m <= 2147483647) ->
  length body = match buf m with
                | None => Z.to_nat (Length m - 4)
                | Some _ => 0%nat
                end ->
  rd w = body ++ [t; b1; b2; b3; b4] ++ rest ->
  let next := {| has_wire := true; buf := None;
                 Length := be_int32 b1 b2 b3 b4; Typ := t |} in
  ReadMessage w
  = Ret (Some next, None)
        {| rd := rest; lastMsg := Some next; sent := sent w;
           wr_left := wr_left w |}.
Proof.
  intros Hm Hw HL Hlen Hrd next. unfold ReadMessage.
  unfold bind at 1. cbn [get]. rewrite Hm.
  assert (Hskip : Skip m w = Ret None (set_rd ([t; b1; b2; b3; b4] ++ rest) w)).
  { unfold Skip. rewrite Hw. cbn [negb orb].
    destruct (buf m) as [b|] eqn:Hb.
    - destruct body; [|discriminate]. simpl in Hrd.
      rewrite bool_decide_true by discriminate.
      unfold ret. destruct w; simpl in *; subst; reflexivity.
    - rewrite bool_decide_false by (intros H; apply H; reflexivity).
      specialize (HL eq_refl). rewrite int32_small by lia.
      apply (discardN_exact _ body); [lia | exact Hlen | exact Hrd]. }
  unfold bind at 1. rewrite Hskip.
  unfold bind at 1.
  pose proof (Read_exact [t; b1; b2; b3; b4] rest
                (set_rd ([t; b1; b2; b3; b4] ++ rest) w) eq_refl) as HR.
  cbn [length] in HR. rewrite HR.
  unfold bind, modify, ret. cbn. rewrite Hw. reflexivity.
Qed.

Lemma byteValue_range (b : byte) : 0 <= byteValue b < 256.
Proof. unfold byteValue. pose proof (Byte.to_N_bounded b). lia. Qed.

Lemma lor_disjoint (x y k : Z) :
  0 <= k -> 0 <= x < 2 ^ k -> Z.lor x (y * 2 ^ k) = x + y * 2 ^ k.
Proof.
  intros Hk Hx.
  assert (Hland : Z.land x (y * 2 ^ k) = 0).
  { apply Z.bits_inj'. intros n Hn. rewrite Z.land_spec, Z.bits_0.
    destruct (Z.lt_ge_cases n k) as [Hlt|Hge].
    - rewrite Z.mul_pow2_bits_low by lia. apply andb_false_r.
    - assert (Hb : Z.testbit x n = false).
      { destruct (Z.eq_dec x 0) as [->|Hx0]; [apply Z.bits_0|].
        apply Z.bits_above_log2; [lia|].
        apply Z.log2_lt_pow2; [lia|].
        apply Z.lt_le_trans with (2 ^ k); [lia|].
        apply Z.pow_le_mono_r; lia. }
      rewrite Hb. reflexivity. }
  rewrite <- Z.lxor_lor by exact Hland.
  symmetry. apply Z.add_nocarry_lxor. exact Hland.
Qed.

Lemma be_int32_declared (b1 b2 b3 b4 : byte) :
  be_int32 b1 b2 b3 b4 = Go.int32 (declaredLength b1 b2 b3 b4).
Proof.
  unfold be_int32, declaredLength. f_equal.
  fold (byteValue b1) (byteValue b2) (byteValue b3) (byteValue b4).
  pose proof (byteValue_range b1). pose proof (byteValue_range b2).
  pose proof (byteValue_range b3). pose proof (byteValue_range b4).
  rewrite !Z.shiftl_mul_pow2 by lia.
  rewrite (lor_disjoint (byteValue b2 * 2 ^ 16) (byteValue b1) 24) by lia.
  replace (byteValue b2 * 2 ^ 16 + byteValue b1 * 2 ^ 24)
    with ((byteValue b2 + byteValue b1 * 2 ^ 8) * 2 ^ 16) by lia.
  rewrite (lor_disjoint (byteValue b3 * 2 ^ 8) _ 16) by lia.
  replace (byteValue b3 * 2 ^ 8 + (byteValue b2 + byteValue b1 * 2 ^ 8) * 2 ^ 16)
    with ((byteValue b3 + (byteValue b2 + byteValue b1 * 2 ^ 8) * 2 ^ 8) * 2 ^ 8)
    by lia.
  rewrite (lor_disjoint (byteValue b4) _ 8) by lia.
  lia.
Qed.

Lemma ReadMessage_first (w : Wire) (t b1 b2 b3 b4 : byte) (rest : list byte) :
  settled w ->
  rd w = [t; b1; b2; b3; b4] ++ rest ->
  let next := {| has_wire := true; buf := None;
                 Length := be_int32 b1 b2 b3 b4; Typ := t |} in
  ReadMessage w
  = Ret (Some next, None)
        {| rd := rest; lastMsg := Some next; sent := sent w;
           wr_left := wr_left w |}.
Proof.
  intros Hs Hrd next. unfold settled in Hs.
  destruct (lastMsg w) as [m0|] eqn:Hm.
  - destruct Hs as [Hw Hb]. destruct (buf m0) as [b|] eqn:Hbuf; [|congruence].
    apply (ReadMessage_next_header w m0 [] rest t b1 b2 b3 b4 Hm Hw).
    + rewrite Hbuf. discriminate.
    + rewrite Hbuf. reflexivity.
    + exact Hrd.
  - unfold ReadMessage. unfold bind at 1. cbn [get]. rewrite Hm.
    unfold bind at 1. cbn [ret]. unfold bind at 1.
    pose proof (Read_exact [t; b1; b2; b3; b4] rest w Hrd) as HR.
    cbn [length] in HR. rewrite HR.
    unfold bind, modify, ret. cbn. reflexivity.
Qed.

(** C2, from the bytes on the wire.  Two frames follow each other: a header
    of type [t] that declares the length [L], the [L - 4] bytes of its
    body, and the header of the next frame.  [ReadMessage] returns the
    first frame with the length [L] and leaves its body on the wire.  If
    the body is never read, the next [ReadMessage] passes over exactly
    these [L - 4] bytes and then takes the five bytes of the next header;
    if [Read] buffered the body, the next [ReadMessage] passes over
    nothing and takes the five bytes of the next header.  Either way the
    frame returned is the next one and the wire continues after its
    header. *)
Theorem ReadMessage_skips_unread_body
   (w : Wire) (t b1 b2 b3 b4 : byte) (body : list byte)
   (t' c1 c2 c3 c4 : byte) (rest : list byte) :
  settled w ->
  4 <= declaredLength b1 b2 b3 b4 <= 2147483647 ->
  Z.of_nat (length body) = declaredLength b1 b2 b3 b4 - 4 ->
  declaredLength c1 c2 c3 c4 <= 2147483647 ->
  rd w = [t; b1; b2; b3; b4] ++ body ++ [t'; c1; c2; c3; c4] ++ rest ->
  exists m w1,
    ReadMessage w = Ret (Some m, None) w1
    /\ Typ m = t /\ Length m = declaredLength b1 b2 b3 b4
    /\ rd w1 = body ++ [t'; c1; c2; c3; c4] ++ rest
    /\ (exists m' w2,
          ReadMessage w1 = Ret (Some m', None) w2
          /\ Typ m' = t' /\ Length m' = declaredLength c1 c2 c3 c4
          /\ rd w2 = rest)
    /\ (exists w1' m' w2,
          MessageRead w1 = Ret (Some body, None) w1'
          /\ rd w1' = [t'; c1; c2; c3; c4] ++ rest
          /\ ReadMessage w1' = Ret (Some m', None) w2
          /\ Typ m' = t' /\ Length m' = declaredLength c1 c2 c3 c4
          /\ rd w2 = rest).
Proof.
  intros Hs HL Hlen HL' Hrd.
  assert (Hc : 0 <= declaredLength c1 c2 c3 c4).
  { unfold declaredLength.
    pose proof (byteValue_range c1). pose proof (byteValue_range c2).
    pose proof (byteValue_range c3). pose proof (byteValue_range c4). lia. }
  pose proof (ReadMessage_first w t b1 b2 b3 b4 _ Hs Hrd) as H1.
  cbv zeta in H1.
  rewrite be_int32_declared, int32_small in H1 by lia.
  set (m1 := {| has_wire := true; buf := None;
                Length := declaredLength b1 b2 b3 b4; Typ := t |}) in *.
  set (w1 := {| rd := body ++ [t'; c1; c2; c3; c4] ++ rest;
                lastMsg := Some m1; sent := sent w; wr_left := wr_left w |}) in *.
  assert (Hnat : length body = Z.to_nat (Length m1 - 4)) by (cbn [m1 Length]; lia).
  exists m1, w1. split; [exact H1|].
  split; [reflexivity|]. split; [reflexivity|]. split; [reflexivity|].
  split.
  - pose proof (ReadMessage_next_header w1 m1 body rest t' c1 c2 c3 c4
                  eq_refl eq_refl (fun _ => HL) Hnat eq_refl) as H2.
    cbv zeta in H2. rewrite be_int32_declared, int32_small in H2 by lia.
    eexists. eexists. split; [exact H2|]. repeat split.
  - pose proof (MessageRead_takes_body w1 m1 body ([t'; c1; c2; c3; c4] ++ rest)
                  eq_refl eq_refl eq_refl HL eq_refl Hnat) as H2.
    eexists. eexists. eexists. split; [exact H2|].
    split; [reflexivity|].
    set (m1' := {| has_wire := true; buf := Some body;
                   Length := Length m1; Typ := Typ m1 |}) in *.
    set (w1' := {| rd := [t'; c1; c2; c3; c4] ++ rest; lastMsg := Some m1';
                   sent := sent w1; wr_left := wr_left w1 |}) in *.
    assert (Hno : buf m1' = None -> 4 <= Length m1' <= 2147483647)
      by (intros Hx; discriminate Hx).
    pose proof (ReadMessage_next_header w1' m1' [] rest t' c1 c2 c3 c4
                  eq_refl eq_refl Hno eq_refl eq_refl) as H3.
    cbv zeta in H3. rewrite be_int32_declared, int32_small in H3 by lia.
    split; [exact H3|]. repeat split.
Qed.

(** What [ReadMessage] leaves behind is a last message with a wire and no
    buffer: the state the next call starts from. *)
Lemma ReadMessage_last_message (w w' : Wire) (m : Message) :
  (forall m0, lastMsg w = Some m0 -> has_wire m0 = true) ->
  ReadMessage w = Ret (Some m, None) w' ->
  lastMsg w' = Some m /\ has_wire m = true /\ buf m = None.
Proof.
  intros Hw H. unfold ReadMessage, bind, get in H.
  destruct (lastMsg w) as [m0|] eqn:Hm.
  - destruct (Skip m0 w) as [[e|] s1|msg s1];
      cbn in H; unfold ret, panic in H; try discriminate H.
    destruct (Read 5 s1) as [[bs oe] s2|msg s2];
      cbn in H; unfold ret, panic in H; try discriminate H.
    destruct bs as [|t [|b1 [|b2 [|b3 [|b4 [|x l]]]]]], oe as [e|];
      cbn in H; unfold ret, panic in H; try discriminate H.
    inversion H; subst; clear H. cbn.
    repeat split. exact (Hw m0 eq_refl).
  - cbn in H.
    destruct (Read 5 w) as [[bs oe] s2|msg s2];
      cbn in H; unfold ret, panic in H; try discriminate H.
    destruct bs as [|t [|b1 [|b2 [|b3 [|b4 [|x l]]]]]], oe as [e|];
      cbn in H; unfold ret, panic in H; try discriminate H.
    inversion H; subst; clear H. cbn. repeat split.
Qed.

End SkipDiscipline.

(** ** Frames on a transport that accepts writes *)

Section Sending.
Import Wire PgTypes PgConn.
Variable env : Env.

Lemma sends_bind {A B} (m : M PgConn A) (k : A -> M PgConn B)
      (a : A) (b : B) (fs gs : list Message) :
  sends m a fs -> sends (k a) b gs -> sends (bind m k) b (fs ++ gs).
Proof.
  intros Hm Hk c Hc. destruct (Hm c Hc) as (c1 & E1 & H1 & S1).
  destruct (Hk c1 H1) as (c2 & E2 & H2 & S2).
  exists c2. unfold bind. rewrite E1, E2. repeat split; [exact H2|].
  rewrite S2, S1, app_assoc. reflexivity.
Qed.

Lemma sends_ret {A} (a : A) : sends (ret a) a [].
Proof. intros c Hc. exists c. rewrite app_nil_r. repeat split; assumption. Qed.

Lemma sends_modify (f : PgConn -> PgConn) :
  (forall c, wire (f c) = wire c) -> sends (modify f) tt [].
Proof.
  intros Hf c Hc. exists (f c). rewrite Hf, app_nil_r.
  repeat split; assumption.
Qed.

Lemma sends_call (e : EngineCall) : sends (call e) tt [].
Proof. apply sends_modify. reflexivity. Qed.

Lemma sends_write (m : Message) : sends (onWire (WriteMessage m)) None [m].
Proof.
  intros c Hc. unfold onWire, WriteMessage. rewrite Hc.
  eexists. split; [reflexivity|]. split; reflexivity.
Qed.

Lemma sends_SendErrorResponse (e : string) :
  sends (SendErrorResponse e) None [errorFrame e].
Proof.
  unfold SendErrorResponse.
  apply (sends_bind _ _ tt None [] [errorFrame e]);
    [apply sends_modify; reflexivity | apply sends_write].
Qed.

Lemma sends_SendCommandComplete (tag : string) :
  sends (SendCommandComplete tag) None [commandCompleteFrame tag].
Proof. apply sends_write. Qed.

Lemma rowData_projectable (vs : list Val) :
  Forall (projectable env) vs -> exists b, rowData env vs = inr b.
Proof.
  induction 1 as [|v vs [pv Hv] _ [b IH]]; [now exists []|].
  cbn [rowData]. rewrite IH.
  destruct v; try rewrite Hv; try destruct (val pv); eexists; reflexivity.
Qed.

Lemma sends_SendRowData (vs : list Val) :
  Forall (projectable env) vs -> sends (SendRowData env vs) None [dataRowFrame env vs].
Proof.
  intros H. destruct (rowData_projectable vs H) as [b Hb].
  unfold SendRowData, dataRowFrame. rewrite Hb. apply sends_write.
Qed.

Lemma sends_streamRows (data : list (list Val)) :
  Forall (Forall (projectable env)) data ->
  forall n,
    sends (streamRows env data None n) None
          (map (dataRowFrame env) data
           ++ [commandCompleteFrame (rowCountTag (n + Z.of_nat (length data)))]).
Proof.
  induction 1 as [|row data Hrow _ IH]; intros n; cbn [streamRows map length].
  - rewrite Z.add_0_r. apply sends_SendCommandComplete.
  - replace (n + Z.of_nat (S (length data)))
      with ((n + 1) + Z.of_nat (length data)) by lia.
    apply (sends_bind _ _ None None [dataRowFrame env row]);
      [apply sends_SendRowData, Hrow | apply IH].
Qed.

Lemma valueColumnData_projectable (names : list string) (vs : list Val) :
  Forall (projectable env) vs ->
  forall i, (i + length names <= length vs)%nat ->
            exists b, valueColumnData env i names vs = inr b.
Proof.
  intros Hvs. induction names as [|name names IH]; intros i Hi;
    [now exists []|].
  cbn [valueColumnData]. cbn [length] in Hi.
  destruct (vs !! i) as [v|] eqn:Hv.
  2:{ apply lookup_ge_None in Hv. lia. }
  assert (Hp : projectable env v).
  { rewrite Forall_forall in Hvs. apply Hvs.
    apply list_elem_of_lookup. eauto. }
  destruct Hp as [pv Hpv]. rewrite Hpv.
  destruct (IH (S i)) as [b Hb]; [lia|]. rewrite Hb. eexists; reflexivity.
Qed.

Lemma typedColumnData_mapped (cols : list (string * string)) :
  mappedTypes cols -> exists b, typedColumnData cols = Some b.
Proof.
  induction 1 as [|[name ty] cols Hty _ [b IH]]; [now exists []|].
  cbn [typedColumnData]. cbn [snd] in Hty.
  assert (Hpg : exists pg, duck2pgType ty = Some pg).
  { unfold mappedTypeNames in Hty.
    repeat (apply elem_of_cons in Hty as [->|Hty]; [eexists; reflexivity|]).
    now apply elem_of_nil in Hty. }
  destruct Hpg as [pg Hpg]. rewrite Hpg, IH.
  eexists; reflexivity.
Qed.

End Sending.

(** ** Rows of a simple query; Execute on an empty statement *)

Section RowFrames.
Import Wire PgTypes PgConn.
Variable env : Env.

Lemma sends_eq {A} (m : M PgConn A) (a : A) (fs gs : list Message) :
  sends m a fs -> fs = gs -> sends m a gs.
Proof. now intros H <-. Qed.

Lemma sends_RunStmt_rows (st : Stmt) (q : string) (rows : Rows) :
  QueryContext st [] = inr rows ->
  Final rows = None ->
  wellFormedRows env rows ->
  (Data rows = [] ->
   exists cols, db_Describe env (probeOf q) = inr cols /\ mappedTypes cols) ->
  exists rd,
    Typ rd = RowDescription
    /\ sends (RunStmt env (Some st) [] true q) None
             ([rd] ++ map (dataRowFrame env) (Data rows)
              ++ [commandCompleteFrame
                    (rowCountTag (Z.of_nat (length (Data rows))))]).
Proof.
  intros HQ HF Hwf Hinfer. unfold RunStmt.
  change (namedValues []) with (@nil NamedValue). rewrite HQ, HF.
  destruct (Data rows) as [|row rest] eqn:HD.
  - destruct (Hinfer eq_refl) as (cols & Hd & Hm).
    destruct (typedColumnData_mapped cols Hm) as [body Hb].
    exists (NewMessage RowDescription
              (Some (cint16 (Z.of_nat (length cols)) ++ body))).
    split; [reflexivity|].
    apply (sends_bind _ _ tt None []); [apply sends_call|].
    unfold inferStmtOutputNamesAndTypes.
    apply (sends_bind _ _ (inr cols) None []).
    { apply (sends_bind _ _ tt (inr cols) [] []); [apply sends_call|].
      fold (probeOf q). rewrite Hd. apply sends_ret. }
    cbn beta iota.
    unfold SendRowDescriptionWithColumnNameAndTypes. rewrite Hb.
    apply (sends_bind _ _ None None [_] [_]); [apply sends_write|].
    cbn beta iota. apply sends_SendCommandComplete.
  - unfold wellFormedRows in Hwf. rewrite HD in Hwf.
    apply Forall_cons in Hwf as [[Hlen Hrow] Hrest].
    destruct (valueColumnData_projectable env (Columns rows) row Hrow 0)
      as [body Hb]; [lia|].
    exists (NewMessage RowDescription
              (Some (cint16 (Z.of_nat (length (Columns rows))) ++ body))).
    split; [reflexivity|].
    apply (sends_bind _ _ tt None []); [apply sends_call|].
    unfold SendRowDescription. rewrite Hb.
    apply (sends_bind _ _ None None [_]); [apply sends_write|].
    cbn beta iota. cbn [map].
    apply (sends_bind _ _ None None [dataRowFrame env row]
             (map (dataRowFrame env) rest
              ++ [commandCompleteFrame
                    (rowCountTag (Z.of_nat (length (row :: rest))))]));
      [apply sends_SendRowData, Hrow|].
    cbn beta iota.
    eapply sends_eq; [apply (sends_streamRows env rest)|].
    + eapply Forall_impl; [exact Hrest|]. now intros r [_ H].
    + cbn [length]. rewrite Nat2Z.inj_succ, <- Z.add_1_l. reflexivity.
Qed.

(** The tag of [RunStmt] is the count in decimal between [(] and [ row)]. *)
Lemma FormatInt_decimal (k : nat) : Go.FormatInt (Z.of_nat k) = decimal k.
Proof. unfold Go.FormatInt, decimal. destruct k; reflexivity. Qed.

Lemma rowCountTag_decimal (k : nat) :
  rowCountTag (Z.of_nat k) = "(" +:+ decimal k +:+ " row)".
Proof. unfold rowCountTag. now rewrite FormatInt_decimal. Qed.

(** C1 as the code has it.  A simple query that passes the routing in front
    of the engine, that the engine prepares and runs, and whose rows end
    normally after [k] of them, all of projectable values, gets one
    RowDescription, the [k] DataRows and one CommandComplete with the tag
    [(k row)]; for [k = 0] that needs the DESCRIBE probe of schema
    inference to succeed with type names the type map has.  Parse, Bind
    and Execute of the empty text are answered by ParseComplete,
    BindComplete and EmptyQueryResponse. *)
Theorem SimpleQuery_row_frames :
  (forall (c : PgConn) (q : string) (st : Stmt) (rows : Rows),
      wr_left (wire c) = None ->
      (if enableAuth env then createUserRegexp env q else None) = None ->
      Go.TrimSpace_is_empty q = false ->
      testDiscardAllRegexp env q = false ->
      copyInRegexp env q = false ->
      conn_Prepare env (rewriteReadOnlyProbe q) = inr st ->
      QueryContext st [] = inr rows ->
      Final rows = None ->
      wellFormedRows env rows ->
      (Data rows = [] ->
       exists cols,
         db_Describe env (probeOf (rewriteReadOnlyProbe q)) = inr cols
         /\ mappedTypes cols) ->
      exists rd c',
        SimpleQuery env q c = Ret None c'
        /\ Typ rd = RowDescription
        /\ sent (wire c')
           = sent (wire c) ++ [rd] ++ map (dataRowFrame env) (Data rows)
             ++ [commandCompleteFrame
                   ("(" +:+ decimal (length (Data rows)) +:+ " row)")]
        /\ map Typ (sent (wire c'))
           = map Typ (sent (wire c)) ++ ["T"%byte]
             ++ replicate (length (Data rows)) "D"%byte ++ ["C"%byte])
  /\ (forall (c : PgConn) (name portalName : string) (args : list Val)
             (maxRows : Z),
        wr_left (wire c) = None ->
        exists c',
          (do _ <- Prepare env name EmptyString;
           do _ <- Bind name portalName args;
           Execute env portalName maxRows) c = Ret None c'
          /\ sent (wire c')
             = sent (wire c)
               ++ [parseCompleteFrame; bindCompleteFrame; emptyQueryFrame]).
Proof.
  split.
  - intros c q st rows Hc Hcu Hts Hda Hci Hprep HQ HF Hwf Hinfer.
    rewrite <- rowCountTag_decimal.
    destruct (sends_RunStmt_rows st _ rows HQ HF Hwf Hinfer) as (rd & Hrd & Hrun).
    assert (Hs : sends (SimpleQuery env q) None
                   ([rd] ++ map (dataRowFrame env) (Data rows)
                    ++ [commandCompleteFrame
                          (rowCountTag (Z.of_nat (length (Data rows))))])).
    { unfold SimpleQuery, SimpleQuery_run. rewrite Hcu, Hts, Hda, Hci, Hprep.
      eapply sends_eq.
      - eapply sends_bind.
        + eapply sends_bind; [apply sends_modify; reflexivity|].
          eapply sends_bind; [apply sends_call|].
          eapply sends_bind.
          * eapply sends_bind; [exact Hrun|]. cbn beta.
            eapply sends_bind; [apply sends_call | apply sends_ret].
          * cbn beta.
            eapply sends_bind; [apply sends_modify; reflexivity | apply sends_ret].
        + cbn beta.
          eapply sends_bind; [apply sends_modify; reflexivity | apply sends_ret].
      - cbn [app]. rewrite !app_nil_r. reflexivity. }
    destruct (Hs c Hc) as (c' & E & _ & S).
    exists rd, c'. split; [exact E|]. split; [exact Hrd|]. split; [exact S|].
    rewrite S, !map_app. cbn [map]. rewrite Hrd, map_map. cbn [dataRowFrame].
    do 2 f_equal. f_equal.
    clear. induction (Data rows) as [|r l IH]; [reflexivity|].
    cbn [map length replicate]. now rewrite IH.
  - intros c name portalName args maxRows Hc.
    unfold bind at 1. unfold Prepare.
    rewrite bool_decide_true by reflexivity.
    unfold bind at 1. cbn [modify].
    unfold SendParseComplete, onWire at 1, WriteMessage at 1.
    cbn [wire set_stmts wr_left]. rewrite Hc.
    unfold bind at 1. unfold Bind. unfold bind at 1. cbn [get].
    cbn [stmts set_wire set_stmts]. rewrite lookup_insert_eq.
    unfold bind at 1. cbn [modify].
    unfold onWire at 1, WriteMessage at 1. cbn [wire set_portals set_wire wr_left].
    unfold Execute. unfold bind at 1. cbn [get].
    cbn [portals set_wire set_portals]. rewrite lookup_insert_eq.
    unfold bind at 1. cbn [modify].
    unfold bind at 1. cbn [p_stmt numInput stmt].
    change (0 >? maxInputArgsUsePrepared) with false. cbn iota.
    unfold RunStmt, SendEmptyQueryResponse, onWire at 1, WriteMessage at 1.
    cbn [wire set_cancel set_wire wr_left].
    unfold bind. cbn [modify ret].
    eexists. split; [reflexivity|].
    cbn [wire set_cancel set_wire sent]. rewrite <- !app_assoc. reflexivity.
Qed.

End RowFrames.

(** ** Parse on a name already bound (pg_conn.go, Prepare) *)

Section PrepareTwice.
Import Wire PgTypes PgConn.
Variable env : Env.

(** C3 as the code has it.  The statements of a connection are a map, so a
    name has at most one statement.  A Parse with a non-empty text for a
    name that is already bound is answered, when the name is not empty,
    by the ErrorResponse [prepared statement <name> already exists]: the
    engine is not asked, the map keeps its binding and the connection
    enters the in-error state.  For the empty name the text goes to the
    engine: if the engine prepares it, the binding is replaced and
    ParseComplete is sent; if the engine rejects it, its error is sent as
    an ErrorResponse and the map keeps its binding. *)
Theorem Prepare_existing_name
        (c : PgConn) (name sql : string) (d : stmtDesc) :
  sql <> EmptyString ->
  stmts c !! name = Some d ->
  wr_left (wire c) = None ->
  (name <> EmptyString ->
   exists c',
     Prepare env name sql c = Ret None c'
     /\ sent (wire c')
        = sent (wire c)
          ++ [errorFrame ("prepared statement " +:+ name +:+ " already exists")]
     /\ stmts c' = stmts c
     /\ (forall d', stmts c' !! name = Some d' -> d' = d)
     /\ inError c' = true
     /\ calls c' = calls c)
  /\ (name = EmptyString ->
      (forall st : Stmt,
          conn_Prepare env (preparedText sql) = inr st ->
          exists c',
            Prepare env name sql c = Ret None c'
            /\ sent (wire c') = sent (wire c) ++ [parseCompleteFrame]
            /\ stmts c'
               = <[name := {| query := preparedText sql; stmt := Some st;
                              columns := None; numInput := NumInput st |}]>
                   (stmts c)
            /\ inError c' = inError c
            /\ calls c' = calls c ++ [CallPrepare (preparedText sql)])
      /\ (forall e : string,
             conn_Prepare env (preparedText sql) = inl e ->
             exists c',
               Prepare env name sql c = Ret None c'
               /\ sent (wire c') = sent (wire c) ++ [errorFrame e]
               /\ stmts c' = stmts c
               /\ inError c' = true
               /\ calls c' = calls c ++ [CallPrepare (preparedText sql)])).
Proof.
  intros Hsql Hd Hc. split.
  - intros Hname. unfold Prepare.
    rewrite bool_decide_false by exact Hsql.
    unfold bind at 1. cbn [get].
    rewrite bool_decide_true by exact Hname.
    rewrite bool_decide_true by (rewrite Hd; eauto).
    cbn [andb]. unfold SendErrorResponse, bind, modify, onWire, WriteMessage.
    cbn [wire set_inError]. rewrite Hc.
    eexists. split; [reflexivity|]. cbn.
    repeat split. intros d' Hd'. congruence.
  - intros ->. split.
    + intros st Hprep. unfold Prepare.
      rewrite bool_decide_false by exact Hsql.
      unfold bind at 1. cbn [get].
      rewrite (bool_decide_false (EmptyString <> EmptyString)) by (intros H; now apply H).
      cbn [andb]. fold (preparedText sql).
      unfold bind at 1. cbn [call modify]. rewrite Hprep.
      unfold bind at 1. cbn [modify].
      unfold SendParseComplete, onWire, WriteMessage.
      cbn [wire set_stmts]. rewrite Hc.
      eexists. split; [reflexivity|]. cbn. repeat split.
    + intros e Hprep. unfold Prepare.
      rewrite bool_decide_false by exact Hsql.
      unfold bind at 1. cbn [get].
      rewrite (bool_decide_false (EmptyString <> EmptyString)) by (intros H; now apply H).
      cbn [andb]. fold (preparedText sql).
      unfold bind at 1. cbn [call modify]. rewrite Hprep.
      unfold SendErrorResponse, bind, modify, onWire, WriteMessage.
      cbn [wire set_inError]. rewrite Hc.
      eexists. split; [reflexivity|]. cbn. repeat split.
Qed.

End PrepareTwice.

(** ** SCRAM-SHA-256 (pg_auth.go) *)

Section Scram.
Import Wire PgTypes PgConn PgAuth.

Lemma xorProof_short (sig : list byte) :
  forall (i : nat) (proof : list byte),
    (i <= length proof)%nat -> (length proof < i + length sig)%nat ->
    xorProof i proof sig = None.
Proof.
  induction sig as [|sg sig IH]; intros i proof Hi Hlt; cbn [length] in Hlt;
    [lia|].
  cbn [xorProof]. destruct (proof !! i) as [p|] eqn:Hp; [|reflexivity].
  apply lookup_lt_Some in Hp. rewrite IH; [reflexivity | lia | lia].
Qed.

(** A client proof that decodes to fewer than 32 bytes makes the loop read
    past its end. *)
Lemma verifyProof_short (lib : AuthLib) (stored : string)
      (data : gmap string string) (authMessage : string) :
  (length (Base64.DecodeString (default EmptyString (data !! "p"))) < 32)%nat ->
  verifyProof lib stored data authMessage = None.
Proof.
  intros H. unfold verifyProof. rewrite xorProof_short; [reflexivity | lia |].
  rewrite computeHMAC_size. lia.
Qed.

(** C10, evaluated on the code: a SASLResponse without a [p] field, or
    with one that decodes to three bytes, takes the verification step to
    an index outside the decoded proof, whatever the stored key and the
    hash functions are.  The loop runs over the 32 bytes of the client
    signature and reads the proof at each index without comparing the two
    lengths. *)
Theorem verifyProof_short_proof_out_of_range
        (lib : AuthLib) (stored authMessage : string) :
  parseSaslData (Go.bytes_of "c=biws,r=abc") !! "p" = None
  /\ verifyProof lib stored (parseSaslData (Go.bytes_of "c=biws,r=abc"))
                 authMessage = None
  /\ Base64.DecodeString "AAAA" = [x00; x00; x00]
  /\ verifyProof lib stored (parseSaslData (Go.bytes_of "c=biws,r=abc,p=AAAA"))
                 authMessage = None.
Proof.
  split; [vm_compute; reflexivity|].
  split; [apply verifyProof_short; vm_compute; lia|].
  split; [vm_compute; reflexivity|].
  apply verifyProof_short. vm_compute. lia.
Qed.

(** *** The message of a failed authentication *)

Lemma silent_bind {A B} (m : M Wire A) (k : A -> M Wire B) :
  silent m -> (forall a, silent (k a)) -> silent (bind m k).
Proof.
  intros Hm Hk w. unfold bind. specialize (Hm w).
  destruct (m w) as [a w1|msg w1]; cbn in Hm |- *; [|exact Hm].
  rewrite (Hk a w1). exact Hm.
Qed.

Lemma silent_ret {A} (a : A) : silent (ret a : M Wire A).
Proof. intros w. reflexivity. Qed.

Lemma silent_Read (n : nat) : silent (Read n).
Proof. intros w. unfold Read. destruct (n <=? length (rd w))%nat; reflexivity. Qed.

Lemma silent_Skip (m : Message) : silent (Skip m).
Proof.
  intros w. unfold Skip, discardN.
  destruct (negb (has_wire m) || bool_decide (buf m <> None)); [reflexivity|].
  destruct (_ <=? 0); [reflexivity|].
  destruct (_ <=? _)%nat; reflexivity.
Qed.

Lemma silent_ReadMessage : silent ReadMessage.
Proof.
  intros w. unfold ReadMessage. unfold bind at 1. cbn [get].
  apply (silent_bind _ _).
  - destruct (lastMsg w); [apply silent_Skip | apply silent_ret].
  - intros [e|]; [apply silent_ret|].
    apply silent_bind; [apply silent_Read|].
    intros [[|t [|b1 [|b2 [|b3 [|b4 [|x l]]]]]] [e|]];
      try apply silent_ret; try (intros w'; reflexivity).
Qed.

Lemma silent_MessageRead : silent MessageRead.
Proof.
  intros w. unfold MessageRead. unfold bind at 1. cbn [get].
  destruct (lastMsg w) as [m|]; [|reflexivity].
  destruct (buf m); [reflexivity|].
  destruct (negb (has_wire m)); [reflexivity|].
  destruct (_ && _); [reflexivity|].
  apply (silent_bind _ _); [apply silent_Read|].
  intros [b [e|]]; [apply silent_ret|intros w'; reflexivity].
Qed.

Lemma silent_parseBody {A} (decode : list byte -> string + A) :
  silent (parseBody decode).
Proof.
  unfold parseBody. apply silent_bind; [apply silent_MessageRead|].
  intros [b [e|]]; apply silent_ret.
Qed.

Variable user : string.

Lemma failure_bind {A B} (m : M PgConn A) (k : A -> M PgConn B) :
  writesFailureOnly user m -> (forall a, writesFailureOnly user (k a)) ->
  writesFailureOnly user (bind m k).
Proof.
  intros Hm Hk c. unfold bind. destruct (Hm c) as (fs & S1 & F1).
  destruct (m c) as [a c1|msg c1]; cbn in S1 |- *.
  - destruct (Hk a c1) as (gs & S2 & F2).
    exists (fs ++ gs). split; [rewrite S2, S1, app_assoc; reflexivity|].
    apply Forall_app; split; assumption.
  - exists fs. split; assumption.
Qed.

Lemma failure_ret {A} (a : A) : writesFailureOnly user (ret a : M PgConn A).
Proof. intros c. exists []. split; [cbn; now rewrite app_nil_r | constructor]. Qed.

Lemma failure_panic {A} (msg : string) :
  writesFailureOnly user (panic msg : M PgConn A).
Proof. intros c. exists []. split; [cbn; now rewrite app_nil_r | constructor]. Qed.

Lemma failure_silent {A} (m : M Wire A) :
  silent m -> writesFailureOnly user (onWire m).
Proof.
  intros H c. exists []. rewrite app_nil_r. split; [|constructor].
  unfold onWire. specialize (H (wire c)).
  destruct (m (wire c)); cbn in H |- *; exact H.
Qed.

Lemma failure_write (m : Message) :
  (Typ m = ErrorResponse -> m = errorFrame (authFailed user)) ->
  writesFailureOnly user (onWire (WriteMessage m)).
Proof.
  intros Hm c. unfold onWire, WriteMessage.
  destruct (wr_left (wire c)) as [[|k]|]; cbn.
  - exists []. rewrite app_nil_r. split; [reflexivity | constructor].
  - exists [m]. split; [reflexivity|]. repeat constructor. exact Hm.
  - exists [m]. split; [reflexivity|]. repeat constructor. exact Hm.
Qed.

Lemma failure_SendErrorResponse :
  writesFailureOnly user (SendErrorResponse (authFailed user)).
Proof.
  unfold SendErrorResponse. apply failure_bind.
  - intros c. exists []. cbn. rewrite app_nil_r. split; [reflexivity | constructor].
  - intros _. apply failure_write. reflexivity.
Qed.

Lemma ScramSha256Auth_failureOnly (env : Env) (lib : AuthLib) :
  writesFailureOnly user (ScramSha256Auth env lib user).
Proof.
  unfold ScramSha256Auth.
  apply failure_bind.
  { apply failure_write. rewrite NewAuthenticationSASLMessage_Typ. discriminate. }
  intros [e|]; [apply failure_ret|].
  apply failure_bind; [apply failure_silent, silent_ReadMessage|].
  intros [m [e|]]; [apply failure_ret|].
  apply failure_bind; [apply failure_silent, silent_parseBody|].
  intros [e|[mechanism initial]]; [apply failure_ret|].
  destruct (negb _); [apply failure_ret|].
  destruct initial as [saslInitialData|]; [|apply failure_ret].
  destruct (readClientNonce saslInitialData) as [e|clientNonce];
    [apply failure_ret|].
  destruct (GetPassword env user) as [e|pgpassword];
    [apply failure_SendErrorResponse|].
  destruct (passwordGroups pgpassword) as [[[[iterations salt] stored] server]|];
    [|apply failure_SendErrorResponse].
  apply failure_bind; [apply failure_write; discriminate|].
  intros [e|]; [apply failure_ret|].
  apply failure_bind; [apply failure_silent, silent_ReadMessage|].
  intros [m' [e|]]; [apply failure_ret|].
  apply failure_bind; [apply failure_silent, silent_parseBody|].
  intros [e|data]; [apply failure_ret|].
  destruct (verifyProof _ _ _ _) as [[|]|];
    [|apply failure_SendErrorResponse|apply failure_panic].
  apply failure_bind; [apply failure_write; discriminate|].
  intros [e|]; [apply failure_ret|].
  apply failure_write. discriminate.
Qed.

(** X18.  In any two attempts for the same user, whatever the credentials
    table holds and whatever the client sends, the ErrorResponse frames written
    are the same frame, with the message [password authentication failed
    for user <user>]: a missing record, a malformed one and a proof that
    does not verify are worded alike. *)
Lemma auth_failure_message
        (env1 env2 : Env) (lib1 lib2 : AuthLib) (c1 c2 : PgConn)
        (f1 f2 : Message) :
  f1 ∈ authFrames env1 lib1 user c1 -> Typ f1 = ErrorResponse ->
  f2 ∈ authFrames env2 lib2 user c2 -> Typ f2 = ErrorResponse ->
  f1 = f2
  /\ f1 = errorFrame ("password authentication failed for user " +:+ user).
Proof.
  assert (H : forall env lib c f,
             f ∈ authFrames env lib user c -> Typ f = ErrorResponse ->
             f = errorFrame (authFailed user)).
  { intros env lib c f Hin Ht. unfold authFrames in Hin.
    destruct (ScramSha256Auth_failureOnly env lib c) as (fs & S & F).
    rewrite S, drop_app_length in Hin.
    unfold failureOnly in F. rewrite Forall_forall in F. exact (F f Hin Ht). }
  intros H1 T1 H2 T2.
  rewrite (H _ _ _ _ H1 T1), (H _ _ _ _ H2 T2). split; reflexivity.
Qed.

(** C5, evaluated on the code.  The client's first message is on the wire:
    a frame whose body decodes to the mechanism SCRAM-SHA-256 and initial
    data with the nonce [nonce].  If the credentials table has no record
    for the user, the attempt writes two frames: AuthenticationSASL and
    the ErrorResponse [password authentication failed for user <user>].
    If it has a well-formed record, the second frame is instead the
    server's first message, an Authentication frame that carries the salt
    and the iteration count of that record; an ErrorResponse can only
    come after it.  The wording of the failure is the same, but the
    second frame of the response tells a client whether the user
    exists. *)
Theorem auth_failure_reveals_user
   (env : Env) (lib : AuthLib)
   (c : PgConn) (t b1 b2 b3 b4 : byte) (body rest data : list byte)
   (nonce : string) :
  wr_left (wire c) = None ->
  settled (wire c) ->
  rd (wire c) = [t; b1; b2; b3; b4] ++ body ++ rest ->
  4 <= declaredLength b1 b2 b3 b4 <= 2147483647 ->
  Z.of_nat (length body) = declaredLength b1 b2 b3 b4 - 4 ->
  decodeSASLInitialResponse lib body = inr ("SCRAM-SHA-256", Some data) ->
  parseSaslData data !! "r" = Some nonce ->
  (forall e, GetPassword env user = inl e ->
     authFrames env lib user c
     = [NewAuthenticationSASLMessage lib ["SCRAM-SHA-256"];
        errorFrame ("password authentication failed for user " +:+ user)])
  /\ (forall record iterations salt stored server,
        GetPassword env user = inr record ->
        passwordGroups record = Some (iterations, salt, stored, server) ->
        exists more,
          authFrames env lib user c
          = NewAuthenticationSASLMessage lib ["SCRAM-SHA-256"]
            :: NewMessage Authentication
                 (Some (cint32 11
                        ++ Go.bytes_of ("r=" +:+ (nonce +:+ Base64.encode false (serverNonce lib))
                                        +:+ ",s=" +:+ salt +:+ ",i=" +:+ iterations)))
            :: more).
Proof.
  intros Hwr Hs Hrd HL Hlen Hdec Hnonce.
  set (sasl := NewAuthenticationSASLMessage lib ["SCRAM-SHA-256"]).
  set (c1 := set_wire {| rd := rd (wire c); lastMsg := lastMsg (wire c);
                         sent := sent (wire c) ++ [sasl]; wr_left := None |} c).
  assert (E1 : onWire (WriteMessage sasl) c = Ret None c1).
  { unfold onWire, WriteMessage. rewrite Hwr. reflexivity. }
  set (m1 := {| has_wire := true; buf := None;
                Length := declaredLength b1 b2 b3 b4; Typ := t |}).
  set (c2 := set_wire {| rd := body ++ rest; lastMsg := Some m1;
                         sent := sent (wire c) ++ [sasl]; wr_left := None |} c).
  assert (E2 : onWire ReadMessage c1 = Ret (Some m1, None) c2).
  { unfold onWire.
    pose proof (ReadMessage_first (wire c1) t b1 b2 b3 b4 (body ++ rest)) as H.
    cbv zeta in H. rewrite H; [|exact Hs|exact Hrd].
    rewrite be_int32_declared, int32_small by lia. reflexivity. }
  set (m2 := {| has_wire := true; buf := Some body;
                Length := declaredLength b1 b2 b3 b4; Typ := t |}).
  set (c3 := set_wire {| rd := rest; lastMsg := Some m2;
                         sent := sent (wire c) ++ [sasl]; wr_left := None |} c).
  assert (E3 : onWire (ParseSASLInitialResponseMessage lib) c2
               = Ret (inr ("SCRAM-SHA-256", Some data)) c3).
  { unfold onWire, ParseSASLInitialResponseMessage, parseBody. unfold bind.
    rewrite (MessageRead_takes_body (wire c2) m1 body rest); try reflexivity;
      [|exact HL|cbn [m1 Length]; lia].
    cbn [default from_option id]. unfold ret. rewrite Hdec. reflexivity. }
  assert (Hn : readClientNonce data = inr nonce)
    by (unfold readClientNonce; now rewrite Hnonce).
  split.
  - intros e Hpw. unfold authFrames, ScramSha256Auth. fold sasl.
    unfold bind at 1. rewrite E1. unfold bind at 1. rewrite E2.
    unfold bind at 1. rewrite E3.
    rewrite bool_decide_true by reflexivity. cbn [negb].
    rewrite Hn, Hpw.
    unfold SendErrorResponse, bind, modify, onWire, WriteMessage.
    cbn. rewrite <- app_assoc, drop_app_length. reflexivity.
  - intros record iterations salt stored server Hpw Hg.
    unfold authFrames, ScramSha256Auth. fold sasl.
    unfold bind at 1. rewrite E1. unfold bind at 1. rewrite E2.
    unfold bind at 1. rewrite E3.
    rewrite bool_decide_true by reflexivity. cbn [negb].
    rewrite Hn, Hpw, Hg.
    unfold bind at 1.
    match goal with |- context [onWire (WriteMessage ?m) c3] => set (cont := m) end.
    set (c4 := set_wire {| rd := rest; lastMsg := Some m2;
                           sent := sent (wire c) ++ [sasl; cont]; wr_left := None |} c).
    assert (E4 : onWire (WriteMessage cont) c3 = Ret None c4).
    { unfold onWire, WriteMessage. cbn. rewrite <- app_assoc. reflexivity. }
    rewrite E4. cbn beta iota.
    match goal with |- context [state_of (?k c4)] => set (tail := k) end.
    assert (Ht : writesFailureOnly user tail).
    { subst tail.
      apply failure_bind; [apply failure_silent, silent_ReadMessage|].
      intros [m' [e|]]; [apply failure_ret|].
      apply failure_bind; [apply failure_silent, silent_parseBody|].
      intros [e|data']; [apply failure_ret|].
      destruct (verifyProof _ _ _ _) as [[|]|];
        [|apply failure_SendErrorResponse|apply failure_panic].
      apply failure_bind; [apply failure_write; discriminate|].
      intros [e|]; [apply failure_ret|].
      apply failure_write. discriminate. }
    destruct (Ht c4) as (fs & Hfs & _).
    exists fs.
    transitivity (drop (length (sent (wire c))) (sent (wire c4) ++ fs));
      [f_equal; exact Hfs|].
    cbn [c4 wire set_wire sent].
    rewrite <- app_assoc, drop_app_length. reflexivity.
Qed.

End Scram.
(** ** Frames written and read back (message.go, wire.go) *)

Section FrameCodec.
Import Wire.

Lemma bytes_string_of (b : list byte) : Go.bytes_of (Go.string_of b) = b.
Proof. apply list_byte_of_string_of_list_byte. Qed.

Lemma string_bytes_of (s : string) : Go.string_of (Go.bytes_of s) = s.
Proof. apply string_of_list_byte_of_string. Qed.

Lemma length_bytes_of (s : string) : length (Go.bytes_of s) = String.length s.
Proof.
  unfold Go.bytes_of, list_byte_of_string.
  rewrite length_map. induction s; simpl; congruence.
Qed.

Lemma byteValue_of_Z (x : Z) :
  0 <= x < 256 -> byteValue (default x00 (Byte.of_N (Z.to_N x))) = x.
Proof.
  intros H. unfold byteValue.
  destruct (Byte.of_N (Z.to_N x)) as [b|] eqn:Hb.
  - apply Byte.to_of_N in Hb. cbn [default from_option id]. rewrite Hb. lia.
  - apply Byte.of_N_None_iff in Hb. lia.
Qed.

(** The four bytes of [cint32] declare the number they were made from. *)
Lemma cint32_declared (i : Z) :
  exists c1 c2 c3 c4,
    cint32 i = [c1; c2; c3; c4]
    /\ declaredLength c1 c2 c3 c4 = i mod 4294967296.
Proof.
  unfold cint32. cbn [map]. do 4 eexists. split; [reflexivity|].
  unfold declaredLength.
  set (u := i mod 4294967296).
  assert (Hu : 0 <= u < 4294967296) by (apply Z.mod_pos_bound; lia).
  rewrite !byteValue_of_Z by (apply Z.mod_pos_bound; lia).
  change (2 ^ (8 * 3)) with 16777216. change (2 ^ (8 * 2)) with 65536.
  change (2 ^ (8 * 1)) with 256. change (2 ^ (8 * 0)) with 1.
  rewrite Z.div_1_r.
  Z.div_mod_to_equations. lia.
Qed.

Lemma int32_mod (z : Z) : Go.int32 (z mod 4294967296) = Go.int32 z.
Proof. unfold Go.int32. now rewrite Z.add_mod_idemp_l by lia. Qed.

Lemma be_int32_cint32 (i : Z) (rest : list byte) :
  -2147483648 <= i <= 2147483647 ->
  exists c1 c2 c3 c4,
    cint32 i ++ rest = c1 :: c2 :: c3 :: c4 :: rest
    /\ be_int32 c1 c2 c3 c4 = i.
Proof.
  intros Hi. destruct (cint32_declared i) as (c1 & c2 & c3 & c4 & Hc & Hd).
  exists c1, c2, c3, c4. rewrite Hc. split; [reflexivity|].
  rewrite be_int32_declared, Hd, int32_mod. now apply int32_small.
Qed.

(** X1.  What [Message.Write] puts on the wire for [NewMessage(typ,
    payload)], the codec of the peer reads back: [ReadMessage] returns a
    message of the type [typ] and the length of the payload plus four,
    [Read] on it returns the payload, and the wire continues after the
    frame.  The payload fits a frame: its length plus four is an
    [int32]. *)
Theorem frame_round_trip (w : Wire) (typ : byte) (payload rest : list byte) :
  settled w ->
  Z.of_nat (length payload) + 4 <= 2147483647 ->
  rd w = frame_bytes (NewMessage typ (Some payload)) ++ rest ->
  exists m w1 w2,
    ReadMessage w = Ret (Some m, None) w1
    /\ Typ m = typ /\ Length m = Z.of_nat (length payload) + 4
    /\ MessageRead w1 = Ret (Some payload, None) w2
    /\ rd w2 = rest
    /\ sent w2 = sent w.
Proof.
  intros Hs HL Hrd.
  unfold frame_bytes, NewMessage in Hrd.
  cbn [Typ Length buf default from_option id] in Hrd.
  rewrite int32_small in Hrd by lia.
  destruct (cint32_declared (Z.of_nat (length payload) + 4))
    as (c1 & c2 & c3 & c4 & Hc & Hd).
  rewrite Z.mod_small in Hd by lia.
  rewrite Hc in Hrd. cbn [app] in Hrd.
  change (rd w = [typ; c1; c2; c3; c4] ++ payload ++ rest) in Hrd.
  pose proof (ReadMessage_first w typ c1 c2 c3 c4 (payload ++ rest) Hs Hrd) as H1.
  cbv zeta in H1. rewrite be_int32_declared, Hd, int32_small in H1 by lia.
  set (m1 := {| has_wire := true; buf := None;
                Length := Z.of_nat (length payload) + 4; Typ := typ |}) in *.
  set (w1 := {| rd := payload ++ rest; lastMsg := Some m1; sent := sent w;
                wr_left := wr_left w |}) in *.
  assert (HL1 : 4 <= Length m1 <= 2147483647) by (cbn [m1 Length]; lia).
  assert (Hn : length payload = Z.to_nat (Length m1 - 4))
    by (cbn [m1 Length]; lia).
  pose proof (MessageRead_takes_body w1 m1 payload rest eq_refl eq_refl eq_refl
                HL1 eq_refl Hn) as H2.
  eexists. eexists. eexists. split; [exact H1|].
  split; [reflexivity|]. split; [reflexivity|].
  split; [exact H2|]. split; reflexivity.
Qed.


(** X3.  A header that declares a length below four is accepted by
    [ReadMessage], and [Message.Read] on the message it returns panics:
    the body would have a negative length.  So does the parser of a
    Query, which starts by reading the body. *)
Theorem MessageRead_short_length_panics
        (w : Wire) (t b1 b2 b3 b4 : byte) (rest : list byte) :
  settled w ->
  declaredLength b1 b2 b3 b4 < 4 ->
  rd w = [t; b1; b2; b3; b4] ++ rest ->
  exists m w1,
    ReadMessage w = Ret (Some m, None) w1
    /\ Typ m = t /\ Length m = declaredLength b1 b2 b3 b4
    /\ MessageRead w1 = Panic "slice bounds out of range" w1
    /\ ParseQueryMessage w1 = Panic "slice bounds out of range" w1.
Proof.
  intros Hs HL Hrd.
  assert (H0 : 0 <= declaredLength b1 b2 b3 b4).
  { unfold declaredLength.
    pose proof (byteValue_range b1). pose proof (byteValue_range b2).
    pose proof (byteValue_range b3). pose proof (byteValue_range b4). lia. }
  pose proof (ReadMessage_first w t b1 b2 b3 b4 rest Hs Hrd) as H1.
  cbv zeta in H1. rewrite be_int32_declared, int32_small in H1 by lia.
  set (m1 := {| has_wire := true; buf := None;
                Length := declaredLength b1 b2 b3 b4; Typ := t |}) in *.
  set (w1 := {| rd := rest; lastMsg := Some m1; sent := sent w;
                wr_left := wr_left w |}) in *.
  assert (HP : MessageRead w1 = Panic "slice bounds out of range" w1).
  { unfold MessageRead, bind, get. cbn [w1 lastMsg m1 buf has_wire negb Length].
    rewrite int32_small by lia.
    replace (declaredLength b1 b2 b3 b4 <=? WireBufferSize + 4) with true
      by (symmetry; apply Z.leb_le; unfold WireBufferSize; lia).
    replace (declaredLength b1 b2 b3 b4 - 4 <? 0) with true
      by (symmetry; apply Z.ltb_lt; lia).
    reflexivity. }
  exists m1, w1. split; [exact H1|]. split; [reflexivity|]. split; [reflexivity|].
  split; [exact HP|]. unfold ParseQueryMessage, bind. rewrite HP. reflexivity.
Qed.

End FrameCodec.

(** ** Request parsers (message.go) *)

Section Parsers.
Import Wire.

Lemma IndexByte_app (a rest : list byte) :
  x00 ∉ a -> IndexByte (a ++ x00 :: rest) x00 = Some (length a).
Proof.
  induction a as [|x a IH]; intros H; cbn [IndexByte app length].
  - rewrite bool_decide_true by reflexivity. reflexivity.
  - apply not_elem_of_cons in H as [Hx Ha].
    rewrite bool_decide_false by congruence. rewrite (IH Ha). reflexivity.
Qed.

(** [goString] undoes [cstr], whatever follows the terminator. *)
Lemma goString_cstr (s : string) (rest : list byte) :
  noZero s -> goString (PgTypes.cstr s ++ rest) = s.
Proof.
  intros H. unfold PgTypes.cstr, noZero in *. rewrite <- app_assoc. cbn [app].
  destruct (Go.bytes_of s) as [|x a] eqn:Hb.
  - cbn. apply (f_equal Go.string_of) in Hb. rewrite string_bytes_of in Hb.
    subst s. reflexivity.
  - cbn [app goString]. apply not_elem_of_cons in H as [Hx Ha].
    rewrite bool_decide_false by congruence.
    change (x :: a ++ x00 :: rest) with ((x :: a) ++ x00 :: rest).
    rewrite IndexByte_app by (apply not_elem_of_cons; auto).
    rewrite take_app_length. rewrite <- Hb. apply string_bytes_of.
Qed.

(** Without a terminator [goString] takes everything. *)
Lemma goString_noZero (s : string) :
  noZero s -> goString (Go.bytes_of s) = s.
Proof.
  intros H. unfold noZero in H. unfold goString.
  destruct (Go.bytes_of s) as [|x a] eqn:Hb.
  - apply (f_equal Go.string_of) in Hb. now rewrite string_bytes_of in Hb.
  - pose proof H as H'. apply not_elem_of_cons in H' as [Hx _].
    rewrite bool_decide_false by congruence.
    assert (Hn : IndexByte (x :: a) x00 = None).
    { clear -H. induction (x :: a) as [|y l IH]; [reflexivity|].
      apply not_elem_of_cons in H as [Hy Hl]. cbn [IndexByte].
      rewrite bool_decide_false by congruence. now rewrite (IH Hl). }
    rewrite Hn, <- Hb. apply string_bytes_of.
Qed.

(** X4.  A Query frame whose body is the text [q], zero-terminated, is
    parsed back to [q]: [ReadMessage] returns a message of type [Q] and
    [ParseQueryMessage] the text. *)
Theorem ParseQueryMessage_round_trip (w : Wire) (q : string) (rest : list byte) :
  settled w -> noZero q ->
  Z.of_nat (String.length q) + 5 <= 2147483647 ->
  rd w = frame_bytes (NewMessage "Q"%byte (Some (PgTypes.cstr q))) ++ rest ->
  exists m w1 w2,
    ReadMessage w = Ret (Some m, None) w1
    /\ Typ m = "Q"%byte
    /\ ParseQueryMessage w1 = Ret (inr q) w2
    /\ rd w2 = rest.
Proof.
  intros Hs Hq HL Hrd.
  assert (Hlen : length (PgTypes.cstr q) = S (String.length q)).
  { unfold PgTypes.cstr. rewrite length_app, length_bytes_of. cbn. lia. }
  destruct (frame_round_trip w "Q"%byte (PgTypes.cstr q) rest Hs) as
    (m & w1 & w2 & H1 & Ht & _ & H2 & Hr & _); [rewrite Hlen; lia|exact Hrd|].
  exists m, w1, w2. split; [exact H1|]. split; [exact Ht|].
  split; [|exact Hr].
  unfold ParseQueryMessage, bind. rewrite H2. cbn [default from_option id].
  unfold ret. rewrite <- (app_nil_r (PgTypes.cstr q)), goString_cstr by exact Hq.
  reflexivity.
Qed.

(** X5.  An Execute frame whose body is the portal name, zero-terminated,
    and four bytes of a row limit is parsed to that name and that limit.
    A body that is the name without its terminator makes
    [ParseExecuteMessage] panic: the slice after the name starts past the
    end of the body. *)
Theorem ParseExecuteMessage_fields
        (w : Wire) (portalName : string) (maxRows : Z) (rest : list byte) :
  settled w -> noZero portalName ->
  Z.of_nat (String.length portalName) + 9 <= 2147483647 ->
  -2147483648 <= maxRows <= 2147483647 ->
  (rd w = frame_bytes (NewMessage "E"%byte
                         (Some (PgTypes.cstr portalName ++ cint32 maxRows)))
          ++ rest ->
   exists m w1 w2,
     ReadMessage w = Ret (Some m, None) w1
     /\ ParseExecuteMessage w1 = Ret (inr (portalName, maxRows)) w2
     /\ rd w2 = rest)
  /\ (rd w = frame_bytes (NewMessage "E"%byte (Some (Go.bytes_of portalName)))
             ++ rest ->
      exists m w1 w2,
        ReadMessage w = Ret (Some m, None) w1
        /\ ParseExecuteMessage w1 = Panic "slice bounds out of range" w2).
Proof.
  intros Hs Hp HL Hm. split; intros Hrd.
  - assert (Hlen : length (PgTypes.cstr portalName ++ cint32 maxRows)
                   = (String.length portalName + 5)%nat).
    { unfold PgTypes.cstr, cint32. rewrite !length_app, length_bytes_of. cbn. lia. }
    destruct (frame_round_trip w "E"%byte
                (PgTypes.cstr portalName ++ cint32 maxRows) rest Hs) as
      (m & w1 & w2 & H1 & _ & _ & H2 & Hr & _); [rewrite Hlen; lia|exact Hrd|].
    exists m, w1, w2. split; [exact H1|]. split; [|exact Hr].
    unfold ParseExecuteMessage, bind. rewrite H2. cbn [default from_option id].
    rewrite goString_cstr by exact Hp.
    unfold sliceFrom. rewrite Hlen.
    replace (String.length portalName + 1 <=? String.length portalName + 5)%nat
      with true by (symmetry; apply Nat.leb_le; lia).
    unfold PgTypes.cstr. rewrite <- app_assoc.
    replace (String.length portalName + 1)%nat
      with (length (Go.bytes_of portalName ++ [x00]))
      by (rewrite length_app, length_bytes_of; reflexivity).
    rewrite app_assoc, drop_app_length.
    destruct (be_int32_cint32 maxRows [] Hm) as (c1 & c2 & c3 & c4 & Hc & Hb).
    rewrite app_nil_r in Hc. rewrite Hc, Hb. reflexivity.
  - assert (Hlen : length (Go.bytes_of portalName) = String.length portalName)
      by apply length_bytes_of.
    destruct (frame_round_trip w "E"%byte (Go.bytes_of portalName) rest Hs) as
      (m & w1 & w2 & H1 & _ & _ & H2 & Hr & _); [rewrite Hlen; lia|exact Hrd|].
    exists m, w1, w2. split; [exact H1|].
    unfold ParseExecuteMessage, bind. rewrite H2. cbn [default from_option id].
    rewrite goString_noZero by exact Hp.
    unfold sliceFrom. rewrite Hlen.
    replace (String.length portalName + 1 <=? String.length portalName)%nat
      with false by (symmetry; apply Nat.leb_gt; lia).
    reflexivity.
Qed.

(** X6.  A Describe frame whose body is a kind byte and a name,
    zero-terminated, is parsed to that kind and that name; a Describe
    frame with an empty body makes [ParseDescribeMessage] panic on the
    kind byte. *)
Theorem ParseDescribeMessage_fields
        (w : Wire) (kind : byte) (name : string) (rest : list byte) :
  settled w -> noZero name ->
  Z.of_nat (String.length name) + 6 <= 2147483647 ->
  (rd w = frame_bytes (NewMessage "D"%byte (Some (kind :: PgTypes.cstr name)))
          ++ rest ->
   exists m w1 w2,
     ReadMessage w = Ret (Some m, None) w1
     /\ ParseDescribeMessage w1 = Ret (inr (kind, name)) w2
     /\ rd w2 = rest)
  /\ (rd w = frame_bytes (NewMessage "D"%byte (Some [])) ++ rest ->
      exists m w1 w2,
        ReadMessage w = Ret (Some m, None) w1
        /\ ParseDescribeMessage w1 = Panic "index out of range" w2).
Proof.
  intros Hs Hn HL. split; intros Hrd.
  - assert (Hlen : length (kind :: PgTypes.cstr name)
                   = (String.length name + 2)%nat).
    { unfold PgTypes.cstr. cbn [length]. rewrite length_app, length_bytes_of.
      cbn. lia. }
    destruct (frame_round_trip w "D"%byte (kind :: PgTypes.cstr name) rest Hs) as
      (m & w1 & w2 & H1 & _ & _ & H2 & Hr & _); [rewrite Hlen; lia|exact Hrd|].
    exists m, w1, w2. split; [exact H1|]. split; [|exact Hr].
    unfold ParseDescribeMessage, bind. rewrite H2. cbn [default from_option id].
    unfold ret. rewrite <- (app_nil_r (PgTypes.cstr name)), goString_cstr by exact Hn.
    reflexivity.
  - destruct (frame_round_trip w "D"%byte [] rest Hs) as
      (m & w1 & w2 & H1 & _ & _ & H2 & Hr & _); [cbn; lia|exact Hrd|].
    exists m, w1, w2. split; [exact H1|].
    unfold ParseDescribeMessage, bind. rewrite H2. reflexivity.
Qed.

End Parsers.

(** ** The parameters of a startup message (message.go) *)

Section Startup.
Import Wire.

Lemma Parse_loop_scan (params a rest : list byte) (i lastIndex : nat)
      (cur : string) (P : gmap string string) :
  x00 ∉ a ->
  StartUpMessage_Parse_loop params (a ++ rest) i lastIndex cur P
  = StartUpMessage_Parse_loop params rest (i + length a) lastIndex cur P.
Proof.
  revert i. induction a as [|x a IH]; intros i H;
    cbn [app length StartUpMessage_Parse_loop].
  - now rewrite Nat.add_0_r.
  - apply not_elem_of_cons in H as [Hx Ha].
    rewrite bool_decide_false by congruence.
    rewrite IH by exact Ha. f_equal. lia.
Qed.

(** One name or value, from the index where it starts. *)
Lemma Parse_loop_token (pre rest : list byte) (tok cur : string)
      (P : gmap string string) :
  tok <> EmptyString -> noZero tok ->
  StartUpMessage_Parse_loop (pre ++ PgTypes.cstr tok ++ rest)
                            (PgTypes.cstr tok ++ rest)
                            (length pre) (length pre) cur P
  = if bool_decide (cur = EmptyString)
    then StartUpMessage_Parse_loop (pre ++ PgTypes.cstr tok ++ rest) rest
           (length (pre ++ PgTypes.cstr tok))
           (length (pre ++ PgTypes.cstr tok)) tok P
    else StartUpMessage_Parse_loop (pre ++ PgTypes.cstr tok ++ rest) rest
           (length (pre ++ PgTypes.cstr tok))
           (length (pre ++ PgTypes.cstr tok)) EmptyString
           (<[cur := tok]> P).
Proof.
  intros Hne Hz.
  set (params := pre ++ PgTypes.cstr tok ++ rest).
  assert (Htext : take (length (Go.bytes_of tok)) (drop (length pre) params)
                  = Go.bytes_of tok).
  { unfold params, PgTypes.cstr. rewrite drop_app_length, <- app_assoc.
    apply take_app_length. }
  replace (length (pre ++ PgTypes.cstr tok))
    with (S (length pre + length (Go.bytes_of tok)))
    by (unfold PgTypes.cstr; rewrite !length_app; cbn; lia).
  unfold PgTypes.cstr. rewrite <- app_assoc.
  rewrite Parse_loop_scan by exact Hz.
  cbn [app StartUpMessage_Parse_loop]. rewrite bool_decide_true by reflexivity.
  assert (Hlen : length (Go.bytes_of tok) <> 0%nat).
  { intros H0. apply Hne. rewrite <- (string_bytes_of tok).
    destruct (Go.bytes_of tok); [reflexivity|discriminate]. }
  replace (length pre + length (Go.bytes_of tok) =? length pre)%nat with false
    by (symmetry; apply Nat.eqb_neq; lia).
  replace (length pre + length (Go.bytes_of tok) - length pre)%nat
    with (length (Go.bytes_of tok)) by lia.
  rewrite Htext, string_bytes_of. reflexivity.
Qed.

Lemma Parse_loop_pairs (kvs : list (string * string)) :
  Forall wellFormedPair kvs ->
  forall (pre tail : list byte) (P : gmap string string),
    StartUpMessage_Parse_loop (pre ++ startupPairs kvs ++ x00 :: tail)
               (startupPairs kvs ++ x00 :: tail)
               (length pre) (length pre) EmptyString P
    = foldl (fun m kv => <[fst kv := snd kv]> m) P kvs.
Proof.
  induction 1 as [|[k v] kvs (Hk & Hv & Hkz & Hvz) _ IH]; intros pre tail P.
  - cbn [startupPairs flat_map app StartUpMessage_Parse_loop foldl].
    rewrite bool_decide_true by reflexivity. now rewrite Nat.eqb_refl.
  - cbn [startupPairs flat_map fst snd foldl] in *.
    fold (startupPairs kvs).
    rewrite <- !app_assoc.
    rewrite (Parse_loop_token pre _ k EmptyString P Hk Hkz).
    rewrite bool_decide_true by reflexivity.
    replace (pre ++ PgTypes.cstr k ++ PgTypes.cstr v ++ startupPairs kvs
             ++ x00 :: tail)
      with ((pre ++ PgTypes.cstr k) ++ PgTypes.cstr v ++ startupPairs kvs
            ++ x00 :: tail)
      by (now rewrite <- app_assoc).
    rewrite (Parse_loop_token (pre ++ PgTypes.cstr k) _ v k P Hv Hvz).
    rewrite bool_decide_false by exact Hk.
    replace ((pre ++ PgTypes.cstr k) ++ PgTypes.cstr v ++ startupPairs kvs
             ++ x00 :: tail)
      with (((pre ++ PgTypes.cstr k) ++ PgTypes.cstr v) ++ startupPairs kvs
            ++ x00 :: tail)
      by (now rewrite <- !app_assoc).
    apply IH.
Qed.

(** X7.  The data of a startup message of protocol 3.0: the version
    [00 03 00 00], then names and values, each zero-terminated, then a zero
    byte.  When the names and the values are not empty, [Parse] returns
    the version 196608 and the map from each name to its value, a later
    pair for a name replacing an earlier one; what follows the final zero
    byte is not read. *)
Theorem StartUpMessage_Parse_parameters
        (kvs : list (string * string)) (tail : list byte) :
  Forall wellFormedPair kvs ->
  StartUpMessage_Parse ([x00; x03; x00; x00] ++ startupPairs kvs ++ x00 :: tail)
  = Parsed 196608 (foldl (fun m kv => <[fst kv := snd kv]> m) ∅ kvs).
Proof.
  intros H. cbn [app StartUpMessage_Parse].
  change (be_int32 x00 x03 x00 x00) with 196608.
  change (196608 =? StartupMessageVersion) with true. cbn iota.
  f_equal. apply (Parse_loop_pairs kvs H [] tail ∅).
Qed.

End Startup.

(** ** Bind, Execute and DISCARD ALL (pg_conn.go) *)

Section Portals.
Import Wire PgTypes PgConn.
Variable env : Env.

(** X8.  Bind for a name without a statement is answered by the
    ErrorResponse [prepared statement <name> not found] and binds
    nothing; Bind for a name with a statement makes the portal name point
    to that statement and the arguments, leaves every other portal as it
    was, and is answered by BindComplete. *)
Theorem Bind_portal (c : PgConn) (name portalName : string) (args : list Val) :
  wr_left (wire c) = None ->
  (stmts c !! name = None ->
   exists c',
     Bind name portalName args c = Ret None c'
     /\ sent (wire c')
        = sent (wire c)
          ++ [errorFrame ("prepared statement " +:+ name +:+ " not found")]
     /\ portals c' = portals c
     /\ inError c' = true)
  /\ (forall d : stmtDesc,
        stmts c !! name = Some d ->
        exists c',
          Bind name portalName args c = Ret None c'
          /\ sent (wire c') = sent (wire c) ++ [bindCompleteFrame]
          /\ portals c' !! portalName = Some {| p_stmt := d; values := args |}
          /\ (forall other, other <> portalName ->
                            portals c' !! other = portals c !! other)
          /\ inError c' = inError c).
Proof.
  intros Hc. split.
  - intros Hn. unfold Bind. unfold bind at 1. cbn [get]. rewrite Hn.
    unfold SendErrorResponse, bind, modify, onWire, WriteMessage.
    cbn [wire set_inError]. rewrite Hc.
    eexists. split; [reflexivity|]. cbn. repeat split.
  - intros d Hd. unfold Bind. unfold bind at 1. cbn [get]. rewrite Hd.
    unfold bind, modify, onWire, WriteMessage.
    cbn [wire set_portals]. rewrite Hc.
    eexists. split; [reflexivity|]. cbn. repeat split.
    + apply lookup_insert_eq.
    + intros other Ho. apply lookup_insert_ne. congruence.
Qed.

(** X9.  Execute of a name without a portal is answered by the
    ErrorResponse [portal <name> not found], and the engine is not asked.
    Execute of a portal whose statement declares at most 20 parameters
    runs that statement with the bound values, whatever the row limit of
    the message is: when the statement returns [k] rows that end
    normally, the frames written are the [k] DataRows and CommandComplete
    with the tag [(k row)], and no RowDescription. *)
Theorem Execute_bound_portal
        (c : PgConn) (portalName : string) (maxRows : Z) (p : portal)
        (st : Stmt) (rows : Rows) :
  wr_left (wire c) = None ->
  (portals c !! portalName = None ->
   exists c',
     Execute env portalName maxRows c = Ret None c'
     /\ sent (wire c')
        = sent (wire c) ++ [errorFrame ("portal " +:+ portalName +:+ " not found")]
     /\ calls c' = calls c)
  /\ (portals c !! portalName = Some p ->
      numInput (p_stmt p) <= 20 ->
      stmt (p_stmt p) = Some st ->
      QueryContext st (namedValues (values p)) = inr rows ->
      Final rows = None ->
      Forall (Forall (projectable env)) (Data rows) ->
      exists c',
        Execute env portalName maxRows c = Ret None c'
        /\ sent (wire c')
           = sent (wire c) ++ map (dataRowFrame env) (Data rows)
             ++ [commandCompleteFrame
                   ("(" +:+ decimal (length (Data rows)) +:+ " row)")]
        /\ map Typ (sent (wire c'))
           = map Typ (sent (wire c))
             ++ replicate (length (Data rows)) "D"%byte ++ ["C"%byte]
        /\ calls c'
           = calls c ++ [CallQuery (stmt_text st) (namedValues (values p))]).
Proof.
  intros Hc. split.
  - intros Hn. unfold Execute. unfold bind at 1. cbn [get]. rewrite Hn.
    unfold SendErrorResponse, bind, modify, onWire, WriteMessage.
    cbn [wire set_inError]. rewrite Hc.
    eexists. split; [reflexivity|]. cbn. repeat split.
  - intros Hp Hn Hst HQ HF Hrows.
    unfold Execute. unfold bind at 1. cbn [get]. rewrite Hp.
    unfold bind at 1. cbn [modify]. unfold bind at 1.
    replace (numInput (p_stmt p) >? maxInputArgsUsePrepared) with false
      by (symmetry; rewrite Z.gtb_ltb; apply Z.ltb_ge;
          unfold maxInputArgsUsePrepared; lia).
    rewrite Hst. unfold RunStmt. unfold bind at 1. cbn [call modify].
    rewrite HQ, HF.
    match goal with
    | |- context [streamRows env (Data rows) None 0 ?c1] =>
        pose proof (sends_streamRows env (Data rows) Hrows 0 c1 Hc)
          as (c2 & E & Hw & S);
        destruct (quiet_streamRows env (Data rows) None 0 c1)
          as (a & c2' & E' & Hcalls & _)
    end.
    rewrite E in E'. inversion E'; subst a c2'; clear E'.
    rewrite E. unfold bind, modify, ret.
    eexists. split; [reflexivity|].
    cbn [wire set_cancel calls] in *.
    rewrite Z.add_0_l, rowCountTag_decimal in S.
    split; [exact S|]. split; [|exact Hcalls].
    rewrite S, !map_app, map_map. cbn [map dataRowFrame NewMessage Typ].
    do 2 f_equal.
    clear. induction (Data rows) as [|r l IH]; [reflexivity|].
    cbn [map length replicate]. now rewrite IH.
Qed.

(** X11.  DISCARD ALL leaves the connection without a statement and
    without a portal, closes every statement that had an engine handle,
    and only those, and is answered by CommandComplete with the tag
    [DISCARD ALL]; a Bind that follows, for any name, finds no
    statement. *)
Theorem DiscardAll_clears (c : PgConn) :
  wr_left (wire c) = None ->
  exists c',
    DiscardAll c = Ret None c'
    /\ stmts c' = ∅ /\ portals c' = ∅
    /\ sent (wire c') = sent (wire c) ++ [commandCompleteFrame "DISCARD ALL"]
    /\ (exists closed,
          calls c' = calls c ++ closed
          /\ forall e, e ∈ closed <->
               exists name d st, stmts c !! name = Some d /\ stmt d = Some st
                                 /\ e = CallClose (stmt_text st))
    /\ (forall name portalName args,
          exists c'',
            Bind name portalName args c' = Ret None c''
            /\ sent (wire c'')
               = sent (wire c')
                 ++ [errorFrame ("prepared statement " +:+ name +:+ " not found")]).
Proof.
  intros Hc.
  unfold DiscardAll, bind, modify, SendCommandComplete, onWire, WriteMessage.
  cbn [wire set_portals]. rewrite Hc.
  eexists. split; [reflexivity|]. cbn [stmts portals wire set_wire sent calls].
  split; [reflexivity|]. split; [reflexivity|]. split; [reflexivity|].
  split.
  - eexists. split; [reflexivity|]. intros e. rewrite list_elem_of_omap. split.
    + intros (d & Hd & He).
      apply list_elem_of_fmap in Hd as ([name d'] & -> & Hin).
      apply elem_of_map_to_list in Hin. cbn [snd] in He.
      destruct (stmt d') as [st|] eqn:Hst; [|discriminate].
      inversion He; subst. eauto 6.
    + intros (name & d & st & Hd & Hst & ->). exists d. split.
      * apply list_elem_of_fmap. exists (name, d). split; [reflexivity|].
        now apply elem_of_map_to_list.
      * rewrite Hst. reflexivity.
  - intros name portalName args.
    unfold Bind. unfold bind at 1. cbn [get stmts set_wire set_portals].
    rewrite lookup_empty.
    unfold SendErrorResponse, bind, modify, onWire, WriteMessage.
    cbn [wire set_inError wr_left].
    eexists. split; [reflexivity|]. reflexivity.
Qed.

Lemma sends_streamRows_error (data : list (list Val)) (e : string) :
  Forall (Forall (projectable env)) data ->
  forall n,
    sends (streamRows env data (Some e) n) None
          (map (dataRowFrame env) data ++ [errorFrame e]).
Proof.
  induction 1 as [|row data Hrow _ IH]; intros n; cbn [streamRows map].
  - apply sends_SendErrorResponse.
  - apply (sends_bind _ _ None None [dataRowFrame env row]);
      [apply sends_SendRowData, Hrow | apply IH].
Qed.

(** X12.  Errors of the engine while a statement runs.  If the engine
    refuses to run the statement, the only frame written is the
    ErrorResponse with the engine's message.  If the rows fail with an
    error after [k] of them, the [k] DataRows are written (after the
    RowDescription, when one is wanted and there is a first row) and then
    the ErrorResponse with that error: no CommandComplete follows. *)
Theorem RunStmt_engine_errors (st : Stmt) (vs : list Val) (q : string) :
  (forall (e : string) (sendRowDesc : bool),
      QueryContext st (namedValues vs) = inl e ->
      sends (RunStmt env (Some st) vs sendRowDesc q) None [errorFrame e])
  /\ (forall (rows : Rows) (e : string),
        QueryContext st (namedValues vs) = inr rows ->
        Final rows = Some e ->
        wellFormedRows env rows ->
        (sends (RunStmt env (Some st) vs false q) None
               (map (dataRowFrame env) (Data rows) ++ [errorFrame e]))
        /\ (Data rows = [] ->
            sends (RunStmt env (Some st) vs true q) None [errorFrame e])
        /\ (Data rows <> [] ->
            exists rd,
              Typ rd = "T"%byte
              /\ sends (RunStmt env (Some st) vs true q) None
                       ([rd] ++ map (dataRowFrame env) (Data rows)
                        ++ [errorFrame e]))).
Proof.
  split.
  - intros e sendRowDesc HQ. unfold RunStmt. rewrite HQ.
    apply (sends_bind _ _ tt None []); [apply sends_call|].
    apply sends_SendErrorResponse.
  - intros rows e HQ HF Hwf.
    assert (Hrows : Forall (Forall (projectable env)) (Data rows)).
    { eapply Forall_impl; [exact Hwf|]. now intros r [_ H]. }
    split; [|split].
    + unfold RunStmt. rewrite HQ, HF.
      apply (sends_bind _ _ tt None []); [apply sends_call|].
      apply sends_streamRows_error, Hrows.
    + intros HD. unfold RunStmt. rewrite HQ, HF, HD.
      apply (sends_bind _ _ tt None []); [apply sends_call|].
      apply sends_SendErrorResponse.
    + intros HD. unfold RunStmt. rewrite HQ, HF.
      destruct (Data rows) as [|row rest] eqn:HDr; [congruence|].
      unfold wellFormedRows in Hwf. rewrite HDr in Hwf.
      apply Forall_cons in Hwf as [[Hlen Hrow] Hrest].
      destruct (valueColumnData_projectable env (Columns rows) row Hrow 0)
        as [body Hb]; [lia|].
      exists (NewMessage RowDescription
                (Some (cint16 (Z.of_nat (length (Columns rows))) ++ body))).
      split; [reflexivity|].
      apply (sends_bind _ _ tt None []); [apply sends_call|].
      unfold SendRowDescription. rewrite Hb.
      apply (sends_bind _ _ None None [_]); [apply sends_write|].
      cbn beta iota. cbn [map].
      apply (sends_bind _ _ None None [dataRowFrame env row]
               (map (dataRowFrame env) rest ++ [errorFrame e]));
        [apply sends_SendRowData, Hrow|].
      cbn beta iota. apply sends_streamRows_error.
      apply Forall_cons in Hrows as [_ Hr]. exact Hr.
Qed.

Lemma blank_all_space (q : string) :
  allChars isBlank q = true -> forall fuel, (String.length q <= fuel)%nat ->
  Go.allSpace_fuel fuel q = true.
Proof.
  induction q as [|c q IH]; intros H fuel Hf; [destruct fuel; reflexivity|].
  cbn [allChars] in H. apply andb_prop in H as [Hc Hq].
  destruct fuel as [|fuel]; [cbn in Hf; lia|].
  cbn [Go.allSpace_fuel Go.skipSpace].
  assert (Hs : Go.isSpace c = true).
  { unfold isBlank in Hc. unfold Go.isSpace.
    destruct (N_of_ascii c =? 32)%N eqn:H32; [now rewrite orb_true_r|].
    cbn [orb] in Hc.
    repeat (apply orb_prop in Hc as [Hc|Hc]); apply N.eqb_eq in Hc; rewrite Hc;
      reflexivity. }
  rewrite Hs. apply IH; [exact Hq|]. cbn in Hf. lia.
Qed.

(** X13.  A simple query of spaces, tabs and line ends only (the empty
    text among them) is answered by EmptyQueryResponse alone: the engine
    is not asked, statements and portals are kept, and the connection is
    not left in the in-error state. *)
Theorem SimpleQuery_blank (c : PgConn) (q : string) :
  wr_left (wire c) = None ->
  (if enableAuth env then createUserRegexp env q else None) = None ->
  allChars isBlank q = true ->
  exists c',
    SimpleQuery env q c = Ret None c'
    /\ sent (wire c') = sent (wire c) ++ [emptyQueryFrame]
    /\ map frame_bytes [emptyQueryFrame] = [["I"%byte; x00; x00; x00; x04]]
    /\ calls c' = calls c /\ stmts c' = stmts c /\ portals c' = portals c
    /\ inError c' = false.
Proof.
  intros Hc Hcu Hq. unfold SimpleQuery, SimpleQuery_run. rewrite Hcu.
  unfold Go.TrimSpace_is_empty. rewrite (blank_all_space q Hq) by lia.
  unfold SendEmptyQueryResponse, bind, modify, ret, onWire, WriteMessage.
  rewrite Hc. eexists. split; [reflexivity|]. cbn. repeat split.
Qed.

End Portals.

(** ** Type names and OIDs of schema inference (pg_conn.go, pg_types.go) *)

Section InferredColumns.
Import Wire PgTypes PgConn.

Lemma duck2pgType_oid (ty : string) :
  (pgOidFromType <$> duck2pgType ty) = advertisedOid ty.
Proof.
  unfold advertisedOid.
  repeat match goal with
         | |- context [String.eqb ty ?s] =>
             let H := fresh "H" in
             destruct (String.eqb ty s) eqn:H;
             [apply String.eqb_eq in H; subst ty; reflexivity
             |apply String.eqb_neq in H]
         end.
  unfold duck2pgType, duck2pgTypeMap. cbn [list_to_map foldr].
  unfold uncurry. cbn [fst snd].
  rewrite !lookup_insert_ne, lookup_empty by congruence. reflexivity.
Qed.

Lemma typedColumnData_fields (cols : list (string * string)) (oids : list Z) :
  Forall2 (fun col oid => advertisedOid (snd col) = Some oid) cols oids ->
  typedColumnData cols
  = Some (concat (zip_with columnField (map fst cols) oids)).
Proof.
  induction 1 as [|[name ty] oid cols oids Hoid _ IH]; [reflexivity|].
  cbn [typedColumnData map fst zip_with concat]. cbn [snd] in Hoid.
  rewrite <- duck2pgType_oid in Hoid.
  destruct (duck2pgType ty) as [pg|]; [|discriminate].
  cbn in Hoid. inversion Hoid; subst oid. rewrite IH.
  unfold columnField, cstr, zeros. cbn [replicate].
  rewrite <- !app_assoc. reflexivity.
Qed.

Lemma typedColumnData_unmapped (cols : list (string * string)) :
  Exists (fun col => advertisedOid (snd col) = None) cols ->
  typedColumnData cols = None.
Proof.
  induction 1 as [[name ty] cols H|[name ty] cols _ IH]; cbn [typedColumnData].
  - cbn [snd] in H. rewrite <- duck2pgType_oid in H.
    destruct (duck2pgType ty); [discriminate|reflexivity].
  - rewrite IH. destruct (duck2pgType ty); reflexivity.
Qed.

(** X14.  The row description of schema inference.  For columns whose
    engine type names are all among BOOLEAN, VARCHAR, INTEGER, BIGINT,
    DOUBLE, TIMESTAMP, DECIMAL, DATE and VARCHAR[], one frame of type [T]
    is written: the number of columns and, for each, its name and the OID
    16, 25, 21, 20, 701, 1114, 1700, 0 and 25 of that type name, in this
    order of the names (DATE has the OID 0: its PostgreSQL name is not in
    the table of types).  A column with any other type name ends the call
    in a panic, and nothing is written. *)
Theorem inferred_column_oids (c : PgConn) (cols : list (string * string)) :
  wr_left (wire c) = None ->
  (forall oids : list Z,
      Forall2 (fun col oid => advertisedOid (snd col) = Some oid) cols oids ->
      exists c',
        SendRowDescriptionWithColumnNameAndTypes cols c = Ret None c'
        /\ sent (wire c')
           = sent (wire c)
             ++ [NewMessage "T"%byte
                   (Some (cint16 (Z.of_nat (length cols))
                          ++ concat (zip_with columnField (map fst cols) oids)))])
  /\ (Exists (fun col => advertisedOid (snd col) = None) cols ->
      SendRowDescriptionWithColumnNameAndTypes cols c
      = Panic "duck2pgType unsupported type" c).
Proof.
  intros Hc. split.
  - intros oids H. unfold SendRowDescriptionWithColumnNameAndTypes.
    rewrite (typedColumnData_fields cols oids H).
    unfold onWire, WriteMessage. rewrite Hc.
    eexists. split; reflexivity.
  - intros H. unfold SendRowDescriptionWithColumnNameAndTypes.
    now rewrite (typedColumnData_unmapped cols H).
Qed.

End InferredColumns.

(** ** The text of a decimal and the type row (the format helpers) *)

Section FormatHelpers.
Import Formats.

Lemma digits_value_acc (d : Decimal.uint) :
  forall acc : positive,
    Go.digits_value (Zpos acc) (NilEmpty.string_of_uint d)
    = Zpos (Pos.of_uint_acc d acc).
Proof.
  induction d; intros acc;
    cbn [NilEmpty.string_of_uint Go.digits_value Pos.of_uint_acc];
    [reflexivity|..];
    match goal with
    | |- Go.digits_value ?z _ = Zpos (Pos.of_uint_acc _ ?p) =>
        replace z with (Zpos p) by (cbn; lia)
    end; apply IHd.
Qed.

Lemma digits_value_uint (d : Decimal.uint) :
  Go.digits_value 0 (NilEmpty.string_of_uint d) = Z.of_N (Pos.of_uint d).
Proof.
  induction d; cbn [NilEmpty.string_of_uint Go.digits_value Pos.of_uint];
    [reflexivity|exact IHd|..];
    match goal with
    | |- Go.digits_value ?z _ = Z.of_N (Npos (Pos.of_uint_acc _ ?p)) =>
        change z with (Zpos p)
    end; apply digits_value_acc.
Qed.

(** The decimal text of a non-negative integer reads back as that
    integer. *)
Lemma digits_value_FormatInt (z : Z) :
  0 <= z -> Go.digits_value 0 (Go.FormatInt z) = z.
Proof.
  intros Hz. unfold Go.FormatInt. destruct z as [|p|p]; [reflexivity| |lia].
  cbn [Z.to_int NilZero.string_of_int]. unfold NilZero.string_of_uint.
  pose proof (DecimalPos.Unsigned.of_to p) as H.
  destruct (Pos.to_uint p) eqn:Hp;
    try (rewrite digits_value_uint, H; reflexivity).
  cbn in H. discriminate.
Qed.

Lemma digits_uint (d : Decimal.uint) :
  allChars Go.is_digit (NilEmpty.string_of_uint d) = true.
Proof. induction d; cbn; auto. Qed.

Lemma digits_FormatInt (z : Z) :
  0 <= z -> allChars Go.is_digit (Go.FormatInt z) = true
            /\ Go.FormatInt z <> EmptyString.
Proof.
  intros Hz. unfold Go.FormatInt.
  destruct z as [|p|p]; [split; [reflexivity|discriminate]| |lia].
  cbn [Z.to_int NilZero.string_of_int]. unfold NilZero.string_of_uint.
  destruct (Pos.to_uint p) eqn:Hp; try (split; [apply digits_uint|discriminate]).
  split; [reflexivity|discriminate].
Qed.

Lemma digits_value_app (a b : string) :
  forall acc, Go.digits_value acc (a +:+ b)
              = Go.digits_value (Go.digits_value acc a) b.
Proof.
  induction a as [|c a IH]; intros acc; [reflexivity|].
  rewrite sapp_cons. cbn [Go.digits_value]. apply IH.
Qed.

Lemma digits_value_zeros (n : nat) :
  Go.digits_value 0 (Go.Repeat "0" n) = 0
  /\ allChars Go.is_digit (Go.Repeat "0" n) = true.
Proof.
  induction n as [|n [IH1 IH2]]; [split; reflexivity|].
  cbn [Go.Repeat].
  change ("0" +:+ Go.Repeat "0" n) with (String "0" (Go.Repeat "0" n)).
  cbn [Go.digits_value allChars]. split; [exact IH1|exact IH2].
Qed.

(** X15.  The text of a decimal that is not negative denotes its value:
    it is an integer part of at least one digit, followed for a scale
    above 0 by a point and exactly [Scale] digits; and the digits of the
    two parts together, read as a number, are the unscaled integer. *)
Theorem duckDecimalToString_value (d : Decimal) :
  0 <= Value d ->
  exists ip fr : string,
    duckDecimalToString d
    = (if (Scale d =? 0)%nat then ip else ip +:+ "." +:+ fr)
    /\ String.length fr = Scale d
    /\ ip <> EmptyString
    /\ allChars Go.is_digit (ip +:+ fr) = true
    /\ Go.digits_value 0 (ip +:+ fr) = Value d.
Proof.
  intros Hv. pose proof (digits_value_FormatInt _ Hv) as Hval.
  destruct (digits_FormatInt _ Hv) as [Hdig Hne].
  unfold duckDecimalToString.
  set (str := Go.FormatInt (Value d)) in *.
  destruct (Scale d =? 0)%nat eqn:Hs.
  - apply Nat.eqb_eq in Hs. exists str, EmptyString.
    rewrite sapp_nil_r. repeat split; auto.
  - apply Nat.eqb_neq in Hs.
    destruct (String.length str <=? Scale d)%nat eqn:Hl.
    + apply Nat.leb_le in Hl.
      exists "0", (Go.Repeat "0" (Scale d - String.length str) +:+ str).
      destruct (digits_value_zeros (Scale d - String.length str)) as [Hz1 Hz2].
      split; [reflexivity|]. split; [rewrite slength_app, length_Repeat1; lia|].
      split; [discriminate|]. split.
      * change ("0" +:+ ?x) with (String "0" x). cbn [allChars].
        rewrite allChars_app, Hz2, Hdig. reflexivity.
      * change ("0" +:+ ?x) with (String "0" x). cbn [Go.digits_value].
        change (10 * 0 + (Z.of_N (N_of_ascii "0") - 48)) with 0.
        rewrite digits_value_app, Hz1. exact Hval.
    + apply Nat.leb_gt in Hl.
      exists (Go.take (String.length str - Scale d) str),
             (Go.drop (String.length str - Scale d) str).
      split; [reflexivity|]. split; [rewrite slength_drop; lia|].
      split.
      * intros Hip.
        pose proof (f_equal String.length
                      (stake_drop (String.length str - Scale d) str)) as Hlen.
        rewrite slength_app, slength_drop, Hip in Hlen. cbn in Hlen. lia.
      * rewrite stake_drop. split; assumption.
Qed.

(** X16.  The type row of TabSeparatedWithNamesAndTypes has one name per
    column: Int32 for INTEGER, Int64 for BIGINT, UInt8 for BOOLEAN,
    Float64 for DOUBLE and String for every other engine type. *)
Theorem typesToClickhouseTypes_names (types : list string) :
  length (typesToClickhouseTypes types) = length types
  /\ (forall (i : nat) (t : string),
        types !! i = Some t ->
        typesToClickhouseTypes types !! i
        = Some (if String.eqb t "INTEGER" then "Int32"
                else if String.eqb t "BIGINT" then "Int64"
                else if String.eqb t "BOOLEAN" then "UInt8"
                else if String.eqb t "DOUBLE" then "Float64"
                else "String")).
Proof.
  split; [apply length_map|].
  intros i t Ht. unfold typesToClickhouseTypes.
  change (map ?f types) with (f <$> types).
  rewrite list_lookup_fmap, Ht. cbn [fmap option_fmap option_map]. f_equal.
  destruct (String.eqb t "INTEGER") eqn:H1;
    [apply String.eqb_eq in H1; subst; reflexivity|].
  destruct (String.eqb t "BIGINT") eqn:H2;
    [apply String.eqb_eq in H2; subst; reflexivity|].
  destruct (String.eqb t "BOOLEAN") eqn:H3;
    [apply String.eqb_eq in H3; subst; reflexivity|].
  destruct (String.eqb t "DOUBLE") eqn:H4;
    [apply String.eqb_eq in H4; subst; reflexivity|].
  destruct (String.eqb t "VARCHAR") eqn:H5;
    [apply String.eqb_eq in H5; subst; reflexivity|].
  apply String.eqb_neq in H1, H2, H3, H4, H5.
  unfold typesMapping. cbn [list_to_map foldr fst snd uncurry].
  unfold uncurry. cbn [fst snd].
  rewrite !lookup_insert_ne, lookup_empty by congruence. reflexivity.
Qed.

End FormatHelpers.

(** ** More of SCRAM-SHA-256 (pg_auth.go) *)

Section ScramMore.
Import Wire PgTypes PgConn PgAuth.

Lemma xorProof_in_range (sig : list byte) :
  forall (i : nat) (proof : list byte),
    (i + length sig <= length proof)%nat ->
    xorProof i proof sig
    = Some (zip_with xor_byte (take (length sig) (drop i proof)) sig).
Proof.
  induction sig as [|sg sig IH]; intros i proof Hi; cbn [xorProof length] in *.
  - reflexivity.
  - destruct (proof !! i) as [p|] eqn:Hp.
    2:{ apply lookup_ge_None in Hp. lia. }
    rewrite IH by lia.
    rewrite (drop_S proof p i Hp). cbn [take zip_with]. reflexivity.
Qed.

Variable env : Env.
Variable lib : AuthLib.

(** X17.  With a client proof that decodes to 32 bytes or more the
    verification step reads only inside the proof and returns a verdict:
    whether the stored key is the hash of the first 32 bytes of the proof
    XOR-ed with the client signature.  Bytes of the proof past the 32nd
    are not looked at. *)
Theorem verifyProof_in_range (stored : string) (data : gmap string string)
        (authMessage : string) (proof : list byte) :
  Base64.DecodeString (default EmptyString (data !! "p")) = proof ->
  (32 <= length proof)%nat ->
  verifyProof lib stored data authMessage
  = Some (bool_decide
            (Base64.DecodeString stored
             = Sum256 lib
                 (zip_with xor_byte (take 32 proof)
                    (computeHMAC lib (Base64.DecodeString stored)
                                 (Go.bytes_of authMessage))))).
Proof.
  intros Hp Hlen. unfold verifyProof. rewrite Hp.
  rewrite xorProof_in_range by (rewrite computeHMAC_size; lia).
  rewrite computeHMAC_size, drop_0. reflexivity.
Qed.

Variable user : string.

(** X19.  What [ScramSha256Auth] returns when an attempt fails early.  The
    client's first message is on the wire.  If its body does not decode
    as a SASLInitialResponse, the call returns no error and has written
    the AuthenticationSASL frame only.  If it decodes, with the mechanism
    SCRAM-SHA-256 and a nonce, and the credentials table has no record of
    the user, the call writes the ErrorResponse, leaves the connection in
    the in-error state, and returns no error either. *)
Theorem ScramSha256Auth_failure_result
   (c : PgConn) (t b1 b2 b3 b4 : byte) (body rest : list byte) :
  wr_left (wire c) = None ->
  settled (wire c) ->
  rd (wire c) = [t; b1; b2; b3; b4] ++ body ++ rest ->
  4 <= declaredLength b1 b2 b3 b4 <= 2147483647 ->
  Z.of_nat (length body) = declaredLength b1 b2 b3 b4 - 4 ->
  (forall err,
      decodeSASLInitialResponse lib body = inl err ->
      exists c',
        ScramSha256Auth env lib user c = Ret None c'
        /\ sent (wire c')
           = sent (wire c) ++ [NewAuthenticationSASLMessage lib ["SCRAM-SHA-256"]]
        /\ inError c' = inError c)
  /\ (forall data nonce e,
        decodeSASLInitialResponse lib body = inr ("SCRAM-SHA-256", Some data) ->
        parseSaslData data !! "r" = Some nonce ->
        GetPassword env user = inl e ->
        exists c',
          ScramSha256Auth env lib user c = Ret None c'
          /\ sent (wire c')
             = sent (wire c)
               ++ [NewAuthenticationSASLMessage lib ["SCRAM-SHA-256"];
                   errorFrame ("password authentication failed for user "
                               +:+ user)]
          /\ inError c' = true).
Proof.
  intros Hwr Hs Hrd HL Hlen.
  set (sasl := NewAuthenticationSASLMessage lib ["SCRAM-SHA-256"]).
  set (c1 := set_wire {| rd := rd (wire c); lastMsg := lastMsg (wire c);
                         sent := sent (wire c) ++ [sasl]; wr_left := None |} c).
  assert (E1 : onWire (WriteMessage sasl) c = Ret None c1).
  { unfold onWire, WriteMessage. rewrite Hwr. reflexivity. }
  set (m1 := {| has_wire := true; buf := None;
                Length := declaredLength b1 b2 b3 b4; Typ := t |}).
  set (c2 := set_wire {| rd := body ++ rest; lastMsg := Some m1;
                         sent := sent (wire c) ++ [sasl]; wr_left := None |} c).
  assert (E2 : onWire ReadMessage c1 = Ret (Some m1, None) c2).
  { unfold onWire.
    pose proof (ReadMessage_first (wire c1) t b1 b2 b3 b4 (body ++ rest)) as H.
    cbv zeta in H. rewrite H; [|exact Hs|exact Hrd].
    rewrite be_int32_declared, int32_small by lia. reflexivity. }
  set (m2 := {| has_wire := true; buf := Some body;
                Length := declaredLength b1 b2 b3 b4; Typ := t |}).
  set (c3 := set_wire {| rd := rest; lastMsg := Some m2;
                         sent := sent (wire c) ++ [sasl]; wr_left := None |} c).
  assert (E3 : onWire (ParseSASLInitialResponseMessage lib) c2
               = Ret (decodeSASLInitialResponse lib body) c3).
  { unfold onWire, ParseSASLInitialResponseMessage, parseBody. unfold bind.
    assert (Hn : length body = Z.to_nat (Length m1 - 4))
      by (cbn [m1 Length]; lia).
    rewrite (MessageRead_takes_body (wire c2) m1 body rest eq_refl eq_refl eq_refl
               HL eq_refl Hn).
    reflexivity. }
  split.
  - intros err Hdec. unfold ScramSha256Auth. fold sasl.
    unfold bind at 1. rewrite E1. unfold bind at 1. rewrite E2.
    unfold bind at 1. rewrite E3, Hdec.
    exists c3. repeat split.
  - intros data nonce e Hdec Hnonce Hpw.
    unfold ScramSha256Auth. fold sasl.
    unfold bind at 1. rewrite E1. unfold bind at 1. rewrite E2.
    unfold bind at 1. rewrite E3, Hdec.
    rewrite bool_decide_true by reflexivity. cbn [negb].
    unfold readClientNonce. rewrite Hnonce, Hpw.
    unfold SendErrorResponse, bind, modify, onWire, WriteMessage.
    cbn. eexists. split; [reflexivity|]. cbn. rewrite <- app_assoc.
    split; reflexivity.
Qed.

End ScramMore.


(** ** The properties at sample inputs *)

Section AtSamples.
Import Wire PgTypes PgConn PgAuth Sample.

(** A SELECT of one row: RowDescription, one DataRow, [(1 row)]; and the
    empty statement through Parse, Bind and Execute.  The last part spells
    the three frames of the SELECT out, byte by byte. *)
Lemma SimpleQuery_row_frames_witness :
  (exists rd c',
      SimpleQuery (sampleEnv true) "select 1" (conn0 []) = Ret None c'
      /\ Typ rd = RowDescription
      /\ sent (wire c')
         = [] ++ [rd] ++ map (dataRowFrame (sampleEnv true)) [[VInt64 1]]
           ++ [commandCompleteFrame "(1 row)"]
      /\ map Typ (sent (wire c')) = [] ++ ["T"%byte] ++ ["D"%byte] ++ ["C"%byte])
  /\ (exists c',
        (do _ <- Prepare (sampleEnv true) "s" EmptyString;
         do _ <- Bind "s" "p" [];
         Execute (sampleEnv true) "p" 0) (conn0 []) = Ret None c'
        /\ sent (wire c')
           = [] ++ [parseCompleteFrame; bindCompleteFrame; emptyQueryFrame])
  /\ (exists rd c',
        SimpleQuery (sampleEnv true) "select 1 where false" (conn0 [])
        = Ret None c'
        /\ Typ rd = RowDescription
        /\ sent (wire c') = [] ++ [rd] ++ [] ++ [commandCompleteFrame "(0 row)"]
        /\ map Typ (sent (wire c')) = [] ++ ["T"%byte] ++ [] ++ ["C"%byte])
  /\ map frame_bytes
         (sent (wire (state_of (SimpleQuery (sampleEnv true) "select 1"
                                            (conn0 [])))))
     = [ ["T"%byte; x00; x00; x00; x1a; x00; x01; "a"%byte; x00;
          x00; x00; x00; x00; x00; x00; x00; x00; x00; x14; x00; x00;
          x00; x00; x00; x00; x00; x00];
         ["D"%byte; x00; x00; x00; x0b; x00; x01; x00; x00; x00; x01;
          "1"%byte];
         ["C"%byte; x00; x00; x00; x0c; "("%byte; "1"%byte; " "%byte;
          "r"%byte; "o"%byte; "w"%byte; ")"%byte; x00] ].
Proof.
  split; [|split; [|split]].
  - apply (proj1 (SimpleQuery_row_frames (sampleEnv true)) (conn0 []) "select 1"
             (sampleStmt "select 1") oneRow); try reflexivity.
    + repeat constructor. eexists. reflexivity.
    + discriminate.
  - apply (proj2 (SimpleQuery_row_frames (sampleEnv true)) (conn0 []) "s" "p" [] 0).
    reflexivity.
  - apply (proj1 (SimpleQuery_row_frames (sampleEnv true)) (conn0 [])
             "select 1 where false" (sampleStmt "select 1 where false") noRows);
      try reflexivity.
    + constructor.
    + intros _. exists [("a", "BIGINT")]. split; [reflexivity|].
      repeat constructor.
  - vm_compute. reflexivity.
Defined.

(** Three rows are counted as [(3 row)], none as [(0 row)]. *)
Example rowCountTag_literal :
  rowCountTag 3 = "(3 row)" /\ rowCountTag 0 = "(0 row)"
  /\ rowCountTag 12 = "(12 row)".
Proof. repeat split. Qed.

(** C1 as stated fails: a SELECT that the engine prepares and runs, that
    returns no row and whose DESCRIBE probe succeeds with the column type
    FLOAT, which the type map does not have, is answered by no frame at
    all: it ends in the panic of [duck2pgType]. *)
Lemma SimpleQuery_no_rows_unmapped_type :
  conn_Prepare (sampleEnv true) "select 1.5::float where false"
  = inr (sampleStmt "select 1.5::float where false")
  /\ QueryContext (sampleStmt "select 1.5::float where false") [] = inr noFloatRows
  /\ db_Describe (sampleEnv true) (probeOf "select 1.5::float where false")
     = inr [("f", "FLOAT")]
  /\ exists c',
      SimpleQuery (sampleEnv true) "select 1.5::float where false" (conn0 [])
      = Panic "duck2pgType unsupported type" c'
      /\ sent (wire c') = [].
Proof.
  split; [reflexivity|]. split; [reflexivity|]. split; [reflexivity|].
  eexists. split; vm_compute; reflexivity.
Qed.

(** The same with a statement whose DESCRIBE probe the engine rejects, here
    a CREATE TABLE: one ErrorResponse, neither a RowDescription nor a
    CommandComplete. *)
Example SimpleQuery_no_rows_probe_rejected :
  conn_Prepare (sampleEnv true) "create table t (a int)"
  = inr (sampleStmt "create table t (a int)")
  /\ QueryContext (sampleStmt "create table t (a int)") [] = inr noRows
  /\ exists c',
      SimpleQuery (sampleEnv true) "create table t (a int)" (conn0 [])
      = Ret None c'
      /\ sent (wire c')
         = [errorFrame "Parser Error: syntax error at or near CREATE"]
      /\ Forall (fun f => Typ f <> RowDescription /\ Typ f <> CommandComplete)
                (sent (wire c')).
Proof.
  split; [reflexivity|]. split; [reflexivity|].
  eexists. split; [vm_compute; reflexivity|].
  split; [reflexivity|].
  repeat constructor; discriminate.
Qed.

(** A first row with a value of a type [toPgValue] has no case for ends in
    the panic of [SendRowDescription]. *)
Example SimpleQuery_unsupported_value_panics :
  exists msg c',
    SimpleQuery (sampleEnv true) "select '\xAA'::blob" (conn0 []) = Panic msg c'
    /\ sent (wire c') = [].
Proof. eexists. eexists. split; vm_compute; reflexivity. Qed.

(** The read-only probe on its way to the engine: the longer text is
    prepared as it is, the shorter one as [select 0]. *)
Example SimpleQuery_readonly_probe_prepared :
  head (calls (state_of (SimpleQuery (sampleEnv true)
                           "show transaction_read_only;" (conn0 []))))
  = Some (CallPrepare "show transaction_read_only;")
  /\ head (calls (state_of (SimpleQuery (sampleEnv true) "show" (conn0 []))))
     = Some (CallPrepare "select 0").
Proof. split; vm_compute; reflexivity. Qed.

(** A Query frame of length 7 followed by a Sync frame of length 4, on a
    fresh wire. *)
Lemma ReadMessage_skips_unread_body_witness :
  exists m w1,
    ReadMessage (wire0 (["Q"%byte; x00; x00; x00; x07]
                        ++ ["h"%byte; "i"%byte; x00]
                        ++ ["S"%byte; x00; x00; x00; x04] ++ []))
    = Ret (Some m, None) w1
    /\ Typ m = "Q"%byte /\ Length m = 7
    /\ rd w1 = ["h"%byte; "i"%byte; x00] ++ ["S"%byte; x00; x00; x00; x04] ++ []
    /\ (exists m' w2,
          ReadMessage w1 = Ret (Some m', None) w2
          /\ Typ m' = "S"%byte /\ Length m' = 4 /\ rd w2 = [])
    /\ (exists w1' m' w2,
          MessageRead w1 = Ret (Some ["h"%byte; "i"%byte; x00], None) w1'
          /\ rd w1' = ["S"%byte; x00; x00; x00; x04] ++ []
          /\ ReadMessage w1' = Ret (Some m', None) w2
          /\ Typ m' = "S"%byte /\ Length m' = 4 /\ rd w2 = []).
Proof.
  apply (ReadMessage_skips_unread_body
           (wire0 (["Q"%byte; x00; x00; x00; x07]
                   ++ ["h"%byte; "i"%byte; x00]
                   ++ ["S"%byte; x00; x00; x00; x04] ++ []))
           "Q"%byte x00 x00 x00 x07 ["h"%byte; "i"%byte; x00]
           "S"%byte x00 x00 x00 x04 []).
  - exact I.
  - unfold declaredLength, byteValue. simpl. lia.
  - reflexivity.
  - unfold declaredLength, byteValue. simpl. lia.
  - reflexivity.
Defined.

(** The step lemma at a wire whose last message, a Query of two body bytes,
    was not read. *)
Example ReadMessage_next_header_unread :
  ReadMessage wireUnread
  = Ret (Some {| has_wire := true; buf := None; Length := 4; Typ := Sync |}, None)
        {| rd := [];
           lastMsg := Some {| has_wire := true; buf := None;
                              Length := 4; Typ := Sync |};
           sent := []; wr_left := None |}.
Proof. reflexivity. Qed.

(** Two frames on a fresh wire, the first body never read, and then read:
    the second call returns the Sync frame either way. *)
Example two_frames_body_unread :
  (do _ <- ReadMessage; ReadMessage)
    (wire0 (frame_bytes (NewMessage Query (Some ["h"%byte; "i"%byte; x00]))
            ++ frame_bytes (NewMessage Sync (Some []))))
  = Ret (Some {| has_wire := true; buf := None; Length := 4; Typ := Sync |}, None)
        {| rd := [];
           lastMsg := Some {| has_wire := true; buf := None; Length := 4;
                              Typ := Sync |};
           sent := []; wr_left := None |}.
Proof. vm_compute. reflexivity. Qed.

Example two_frames_body_read :
  (do _ <- ReadMessage; do body <- MessageRead; do next <- ReadMessage;
   ret (fst body, fst next))
    (wire0 (frame_bytes (NewMessage Query (Some ["h"%byte; "i"%byte; x00]))
            ++ frame_bytes (NewMessage Sync (Some []))))
  = Ret (Some ["h"%byte; "i"%byte; x00],
         Some {| has_wire := true; buf := None; Length := 4; Typ := Sync |})
        {| rd := [];
           lastMsg := Some {| has_wire := true; buf := None; Length := 4;
                              Typ := Sync |};
           sent := []; wr_left := None |}.
Proof. vm_compute. reflexivity. Qed.

(** A declared length below 4 leaves nothing to skip. *)
Example Skip_short_length :
  Skip {| has_wire := true; buf := None; Length := 3; Typ := Query |}
       (wire0 [x01; x02])
  = Ret None (wire0 [x01; x02]).
Proof. reflexivity. Qed.

(** The name [s1] is bound, and a second Parse for it is refused; the empty
    name is bound, and a second Parse for it replaces the binding. *)
Lemma Prepare_existing_name_witness :
  (exists c',
      Prepare (sampleEnv true) "s1" "select 2" (connWith "s1") = Ret None c'
      /\ sent (wire c')
         = [] ++ [errorFrame "prepared statement s1 already exists"]
      /\ stmts c' = stmts (connWith "s1")
      /\ (forall d', stmts c' !! "s1" = Some d' -> d' = selectOne)
      /\ inError c' = true
      /\ calls c' = [])
  /\ (exists c',
        Prepare (sampleEnv true) EmptyString "select 2" (connWith EmptyString)
        = Ret None c'
        /\ sent (wire c') = [] ++ [parseCompleteFrame]
        /\ stmts c'
           = <[EmptyString := {| query := "select 2";
                                 stmt := Some (sampleStmt "select 2");
                                 columns := None; numInput := 0 |}]>
               (stmts (connWith EmptyString))
        /\ inError c' = false
        /\ calls c' = [] ++ [CallPrepare "select 2"]).
Proof.
  split.
  - apply (proj1 (Prepare_existing_name (sampleEnv true) (connWith "s1") "s1"
                    "select 2" selectOne ltac:(discriminate) eq_refl eq_refl)).
    discriminate.
  - apply (proj1 (proj2 (Prepare_existing_name (sampleEnv true)
                           (connWith EmptyString) EmptyString "select 2"
                           selectOne ltac:(discriminate) eq_refl eq_refl)
                        eq_refl)
                 (sampleStmt "select 2")).
    reflexivity.
Defined.

(** C3 as stated fails for the unnamed statement: a Parse for the empty name
    with a non-empty text, while the empty name is bound, is answered by
    ParseComplete, and the binding is replaced. *)
Lemma Prepare_unnamed_rebinds :
  stmts (connWith EmptyString) !! EmptyString = Some selectOne
  /\ exists c',
      Prepare (sampleEnv true) EmptyString "select 2" (connWith EmptyString)
      = Ret None c'
      /\ sent (wire c') = [parseCompleteFrame]
      /\ query <$> (stmts c' !! EmptyString) = Some "select 2"
      /\ inError c' = false.
Proof.
  split; [reflexivity|].
  eexists. split; [vm_compute; reflexivity|].
  repeat split.
Qed.

(** Alice without a record, and alice with a record and a proof that does
    not verify: the same ErrorResponse. *)
Lemma auth_failure_message_witness :
  errorFrame "password authentication failed for user alice"
    ∈ authFrames (sampleEnv false) toyLib "alice" (conn0 saslInitial)
  /\ errorFrame "password authentication failed for user alice"
       ∈ authFrames (sampleEnv true) toyLib "alice"
                    (conn0 (saslInitial ++ saslFinal zeroProof))
  /\ errorFrame "password authentication failed for user alice"
     = errorFrame "password authentication failed for user alice"
  /\ errorFrame "password authentication failed for user alice"
     = errorFrame ("password authentication failed for user " +:+ "alice").
Proof.
  assert (H1 : errorFrame "password authentication failed for user alice"
                 ∈ authFrames (sampleEnv false) toyLib "alice" (conn0 saslInitial))
    by (vm_compute; repeat constructor).
  assert (H2 : errorFrame "password authentication failed for user alice"
                 ∈ authFrames (sampleEnv true) toyLib "alice"
                              (conn0 (saslInitial ++ saslFinal zeroProof)))
    by (vm_compute; repeat constructor).
  split; [exact H1|]. split; [exact H2|].
  exact (auth_failure_message "alice" (sampleEnv false) (sampleEnv true)
           toyLib toyLib _ _ _ _ H1 eq_refl H2 eq_refl).
Defined.

(** One client, the same bytes, for alice without a record and for alice
    with one: the frames written are Authentication and ErrorResponse in
    the first attempt, Authentication twice and ErrorResponse in the
    second. *)
Lemma auth_failure_reveals_user_witness :
  authFrames (sampleEnv false) toyLib "alice"
             (conn0 (saslInitial ++ saslFinal zeroProof))
  = [NewAuthenticationSASLMessage toyLib ["SCRAM-SHA-256"];
     errorFrame "password authentication failed for user alice"]
  /\ (exists more,
        authFrames (sampleEnv true) toyLib "alice"
                   (conn0 (saslInitial ++ saslFinal zeroProof))
        = NewAuthenticationSASLMessage toyLib ["SCRAM-SHA-256"]
          :: NewMessage Authentication
               (Some (cint32 11
                      ++ Go.bytes_of
                           "r=clientnonceAQEBAQEBAQEBAQEBAQEBAQEB,s=c2FsdA==,i=4096"))
          :: more)
  /\ map Typ (authFrames (sampleEnv false) toyLib "alice"
                         (conn0 (saslInitial ++ saslFinal zeroProof)))
     = ["R"%byte; "E"%byte]
  /\ map Typ (authFrames (sampleEnv true) toyLib "alice"
                         (conn0 (saslInitial ++ saslFinal zeroProof)))
     = ["R"%byte; "R"%byte; "E"%byte].
Proof.
  pose (body := cstr "SCRAM-SHA-256" ++ cint32 19
                ++ Go.bytes_of "n,,n=,r=clientnonce").
  split; [|split; [|split; vm_compute; reflexivity]].
  - apply (proj1 (auth_failure_reveals_user "alice" (sampleEnv false) toyLib
                    (conn0 (saslInitial ++ saslFinal zeroProof))
                    "p"%byte x00 x00 x00 x29 body (saslFinal zeroProof)
                    (Go.bytes_of "n,,n=,r=clientnonce") "clientnonce"
                    eq_refl I eq_refl
                    ltac:(vm_compute; split; discriminate) eq_refl eq_refl eq_refl)
                 "sql: no rows in result set").
    reflexivity.
  - apply (proj2 (auth_failure_reveals_user "alice" (sampleEnv true) toyLib
                    (conn0 (saslInitial ++ saslFinal zeroProof))
                    "p"%byte x00 x00 x00 x29 body (saslFinal zeroProof)
                    (Go.bytes_of "n,,n=,r=clientnonce") "clientnonce"
                    eq_refl I eq_refl
                    ltac:(vm_compute; split; discriminate) eq_refl eq_refl eq_refl)
                 aliceRecord "4096" "c2FsdA==" "c3RvcmVk" "c2VydmVy").
    + reflexivity.
    + reflexivity.
Defined.

(** The same attempts, whole: without a record the ErrorResponse follows the
    AuthenticationSASL frame at once; with a record it follows the server's
    first message. *)
Example auth_attempt_lengths :
  length (authFrames (sampleEnv false) toyLib "alice" (conn0 saslInitial)) = 2%nat
  /\ length (authFrames (sampleEnv true) toyLib "alice"
                        (conn0 (saslInitial ++ saslFinal zeroProof))) = 3%nat.
Proof. split; vm_compute; reflexivity. Qed.

(** A whole attempt with a proof of three bytes. *)
Example ScramSha256Auth_short_proof_panics :
  exists c',
    ScramSha256Auth (sampleEnv true) toyLib "alice"
                    (conn0 (saslInitial ++ saslFinal "AAAA"))
    = Panic "index out of range" c'.
Proof. eexists. vm_compute. reflexivity. Qed.

(** A portal of 21 parameters. *)
Lemma Execute_substituted_text_witness :
  bindValues (fl (sampleEnv true)) (query (p_stmt manyPortal)) (values manyPortal)
  = Bound manyText
  /\ (forall st : Stmt,
        conn_Prepare (sampleEnv true) manyText = inr st ->
        exists e c',
          Execute (sampleEnv true) "p" 0 connMany = Ret e c'
          /\ calls c' = calls connMany ++ [CallPrepare manyText;
                                           CallQuery (stmt_text st) [];
                                           CallClose (stmt_text st)])
  /\ (forall err : string,
        conn_Prepare (sampleEnv true) manyText = inl err ->
        exists e c',
          Execute (sampleEnv true) "p" 0 connMany = Ret e c'
          /\ calls c' = calls connMany ++ [CallPrepare manyText]).
Proof.
  apply (Execute_substituted_text (sampleEnv true) connMany "p" 0 manyPortal manyText).
  - reflexivity.
  - reflexivity.
  - reflexivity.
  - vm_compute. reflexivity.
Defined.

(** A statement of 21 parameters with [$0] inside a string literal. *)
Lemma Execute_placeholder_zero_panics_witness :
  bindValues (fl (sampleEnv true)) zeroQuery manyValues
  = BindPanic "index out of range [-1]"
  /\ exists c',
      Execute (sampleEnv true) "z" 0 connZero
      = Panic "index out of range [-1]" c'
      /\ calls c' = []
      /\ sent (wire c') = [].
Proof.
  apply (Execute_placeholder_zero_panics (sampleEnv true) connZero "z" 0
           zeroPortal "select '"
           "',$1,$2,$3,$4,$5,$6,$7,$8,$9,$10,$11,$12,$13,$14,$15,$16,$17,$18,$19,$20,$21").
  - reflexivity.
  - simpl. lia.
  - reflexivity.
  - reflexivity.
  - reflexivity.
Defined.

(** Placeholder 0 has no value: [bindValues] panics on it. *)
Example bindValues_placeholder_zero :
  bindValues toyFloat "select $0" [VInt64 1] = BindPanic "index out of range [-1]".
Proof. reflexivity. Qed.

Lemma no_comma_no_occurrence (q : string) :
  allChars notComma q = true ->
  forall pre m a b post : string,
    q = pre +:+ m +:+ post -> ~ limitOccurrence m a b.
Proof.
  intros Hq pre m a b post -> (kw & w1 & w2 & w3 & -> & _).
  rewrite !allChars_app in Hq.
  change (allChars notComma ",") with false in Hq.
  rewrite ?andb_false_l, ?andb_false_r in Hq. discriminate.
Qed.

(** The query of the specification's scenario, and a query without LIMIT. *)
Lemma limitRewrite_occurrences_witness :
  ChServer.limitRewrite "SELECT a FROM t LIMIT 5, 10"
  = "SELECT a FROM t LIMIT 10 OFFSET 5"
  /\ ChServer.limitRewrite "SELECT a FROM t" = "SELECT a FROM t".
Proof.
  split.
  - apply (proj1 limitRewrite_occurrences "SELECT a FROM t " "LIMIT 5, 10"
             "5" "10" EmptyString).
    + exists "LIMIT", " ", EmptyString, " ".
      repeat split; try reflexivity; discriminate.
    + reflexivity.
  - apply (proj2 limitRewrite_occurrences "SELECT a FROM t").
    apply no_comma_no_occurrence. reflexivity.
Defined.

Example limitRewrite_lower_case :
  ChServer.limitRewrite "select a from t limit  5 ,10 limit 1,2"
  = "select a from t LIMIT 10 OFFSET 5 LIMIT 2 OFFSET 1".
Proof. reflexivity. Qed.

End AtSamples.
(** ** The further properties at sample inputs *)

Section MoreSamples.
Import Wire PgTypes PgConn PgAuth Formats Sample.

Ltac no_zero :=
  unfold noZero; apply (bool_decide_unpack _); vm_compute; exact I.

(** A Query frame of two body bytes, followed by a Sync frame. *)
Lemma frame_round_trip_witness :
  exists m w1 w2,
    ReadMessage (wire0 (["Q"%byte; x00; x00; x00; x06; "h"%byte; "i"%byte]
                        ++ ["S"%byte; x00; x00; x00; x04]))
    = Ret (Some m, None) w1
    /\ Typ m = "Q"%byte /\ Length m = 6
    /\ MessageRead w1 = Ret (Some ["h"%byte; "i"%byte], None) w2
    /\ rd w2 = ["S"%byte; x00; x00; x00; x04]
    /\ sent w2 = [].
Proof.
  apply (frame_round_trip
           (wire0 (["Q"%byte; x00; x00; x00; x06; "h"%byte; "i"%byte]
                   ++ ["S"%byte; x00; x00; x00; x04]))
           "Q"%byte ["h"%byte; "i"%byte] ["S"%byte; x00; x00; x00; x04]).
  - exact I.
  - simpl. lia.
  - reflexivity.
Defined.


(** A Query frame that declares the length 3. *)
Lemma MessageRead_short_length_panics_witness :
  exists m w1,
    ReadMessage (wire0 ["Q"%byte; x00; x00; x00; x03; "h"%byte]) = Ret (Some m, None) w1
    /\ Typ m = "Q"%byte /\ Length m = 3
    /\ MessageRead w1 = Panic "slice bounds out of range" w1
    /\ ParseQueryMessage w1 = Panic "slice bounds out of range" w1.
Proof.
  apply (MessageRead_short_length_panics
           (wire0 ["Q"%byte; x00; x00; x00; x03; "h"%byte])
           "Q"%byte x00 x00 x00 x03 ["h"%byte]).
  - exact I.
  - vm_compute. reflexivity.
  - reflexivity.
Defined.

(** The Query [select 1], byte by byte. *)
Lemma ParseQueryMessage_round_trip_witness :
  exists m w1 w2,
    ReadMessage (wire0 ["Q"%byte; x00; x00; x00; x0d; "s"%byte; "e"%byte;
                        "l"%byte; "e"%byte; "c"%byte; "t"%byte; " "%byte;
                        "1"%byte; x00])
    = Ret (Some m, None) w1
    /\ Typ m = "Q"%byte
    /\ ParseQueryMessage w1 = Ret (inr "select 1") w2
    /\ rd w2 = [].
Proof.
  apply (ParseQueryMessage_round_trip
           (wire0 ["Q"%byte; x00; x00; x00; x0d; "s"%byte; "e"%byte;
                   "l"%byte; "e"%byte; "c"%byte; "t"%byte; " "%byte;
                   "1"%byte; x00])
           "select 1" []).
  - exact I.
  - no_zero.
  - simpl. lia.
  - reflexivity.
Defined.

(** Execute of the portal [p] with the row limit 5, and the same frame cut
    after the name. *)
Lemma ParseExecuteMessage_fields_witness :
  (exists m w1 w2,
      ReadMessage (wire0 ["E"%byte; x00; x00; x00; x0a; "p"%byte; x00;
                          x00; x00; x00; x05])
      = Ret (Some m, None) w1
      /\ ParseExecuteMessage w1 = Ret (inr ("p", 5)) w2
      /\ rd w2 = [])
  /\ (exists m w1 w2,
        ReadMessage (wire0 ["E"%byte; x00; x00; x00; x05; "p"%byte])
        = Ret (Some m, None) w1
        /\ ParseExecuteMessage w1 = Panic "slice bounds out of range" w2).
Proof.
  split.
  - apply (proj1 (ParseExecuteMessage_fields
                    (wire0 ["E"%byte; x00; x00; x00; x0a; "p"%byte; x00;
                            x00; x00; x00; x05])
                    "p" 5 [] I ltac:(no_zero) ltac:(simpl; lia) ltac:(lia))).
    reflexivity.
  - apply (proj2 (ParseExecuteMessage_fields
                    (wire0 ["E"%byte; x00; x00; x00; x05; "p"%byte])
                    "p" 5 [] I ltac:(no_zero) ltac:(simpl; lia) ltac:(lia))).
    reflexivity.
Defined.

(** Describe of the statement [s], and a Describe frame without a body. *)
Lemma ParseDescribeMessage_fields_witness :
  (exists m w1 w2,
      ReadMessage (wire0 ["D"%byte; x00; x00; x00; x07; "S"%byte; "s"%byte; x00])
      = Ret (Some m, None) w1
      /\ ParseDescribeMessage w1 = Ret (inr ("S"%byte, "s")) w2
      /\ rd w2 = [])
  /\ (exists m w1 w2,
        ReadMessage (wire0 ["D"%byte; x00; x00; x00; x04])
        = Ret (Some m, None) w1
        /\ ParseDescribeMessage w1 = Panic "index out of range" w2).
Proof.
  split.
  - apply (proj1 (ParseDescribeMessage_fields
                    (wire0 ["D"%byte; x00; x00; x00; x07; "S"%byte; "s"%byte; x00])
                    "S"%byte "s" [] I ltac:(no_zero) ltac:(simpl; lia))).
    reflexivity.
  - apply (proj2 (ParseDescribeMessage_fields
                    (wire0 ["D"%byte; x00; x00; x00; x04])
                    "S"%byte "s" [] I ltac:(no_zero) ltac:(simpl; lia))).
    reflexivity.
Defined.

(** The startup message of the user alice on the database db, with the
    user given twice. *)
Lemma StartUpMessage_Parse_parameters_witness :
  StartUpMessage_Parse
    ([x00; x03; x00; x00]
     ++ startupPairs [("user", "bob"); ("database", "db"); ("user", "alice")]
     ++ x00 :: [])
  = Parsed 196608
      (foldl (fun m kv => <[fst kv := snd kv]> m) ∅
             [("user", "bob"); ("database", "db"); ("user", "alice")]).
Proof.
  apply (StartUpMessage_Parse_parameters
           [("user", "bob"); ("database", "db"); ("user", "alice")] []).
  repeat constructor; try discriminate; no_zero.
Defined.

Example StartUpMessage_Parse_user :
  StartUpMessage_Parse
    [x00; x03; x00; x00; "u"%byte; "s"%byte; "e"%byte; "r"%byte; x00;
     "a"%byte; "l"%byte; "i"%byte; "c"%byte; "e"%byte; x00; x00]
  = Parsed 196608 {[ "user" := "alice" ]}.
Proof. vm_compute. reflexivity. Qed.

(** Bind on a connection that has the statement [s] and no other. *)
Lemma Bind_portal_witness :
  (stmts (connWith "s") !! "t" = None ->
   exists c',
     Bind "t" "p" [] (connWith "s") = Ret None c'
     /\ sent (wire c')
        = sent (wire (connWith "s"))
          ++ [errorFrame ("prepared statement " +:+ "t" +:+ " not found")]
     /\ portals c' = portals (connWith "s")
     /\ inError c' = true)
  /\ (forall d : stmtDesc,
        stmts (connWith "s") !! "s" = Some d ->
        exists c',
          Bind "s" "p" [VInt64 7] (connWith "s") = Ret None c'
          /\ sent (wire c') = sent (wire (connWith "s")) ++ [bindCompleteFrame]
          /\ portals c' !! "p" = Some {| p_stmt := d; values := [VInt64 7] |}
          /\ (forall other, other <> "p" ->
                            portals c' !! other = portals (connWith "s") !! other)
          /\ inError c' = inError (connWith "s")).
Proof.
  split.
  - exact (proj1 (Bind_portal (connWith "s") "t" "p" [] eq_refl)).
  - exact (proj2 (Bind_portal (connWith "s") "s" "p" [VInt64 7] eq_refl)).
Defined.

(** Execute of the portal of [select 1] with the row limit 1, and of a
    portal that was never bound. *)
Lemma Execute_bound_portal_witness :
  (exists c',
      Execute (sampleEnv true) "q" 0 connPortal = Ret None c'
      /\ sent (wire c')
         = sent (wire connPortal) ++ [errorFrame ("portal " +:+ "q" +:+ " not found")]
      /\ calls c' = calls connPortal)
  /\ (exists c',
        Execute (sampleEnv true) "p" 1 connPortal = Ret None c'
        /\ sent (wire c')
           = sent (wire connPortal)
             ++ map (dataRowFrame (sampleEnv true)) (Data oneRow)
             ++ [commandCompleteFrame
                   ("(" +:+ decimal (length (Data oneRow)) +:+ " row)")]
        /\ map Typ (sent (wire c'))
           = map Typ (sent (wire connPortal))
             ++ replicate (length (Data oneRow)) "D"%byte ++ ["C"%byte]
        /\ calls c' = calls connPortal ++ [CallQuery "select 1" (namedValues [])]).
Proof.
  split.
  - apply (proj1 (Execute_bound_portal (sampleEnv true) connPortal "q" 0
                    {| p_stmt := selectOne; values := [] |}
                    (sampleStmt "select 1") oneRow eq_refl)).
    reflexivity.
  - apply (proj2 (Execute_bound_portal (sampleEnv true) connPortal "p" 1
                    {| p_stmt := selectOne; values := [] |}
                    (sampleStmt "select 1") oneRow eq_refl));
      try reflexivity.
    + simpl. lia.
    + repeat constructor. eexists. reflexivity.
Defined.

Example Execute_bound_portal_frames :
  map frame_bytes
      (sent (wire (state_of (Execute (sampleEnv true) "p" 1 connPortal))))
  = [ ["D"%byte; x00; x00; x00; x0b; x00; x01; x00; x00; x00; x01; "1"%byte];
      ["C"%byte; x00; x00; x00; x0c; "("%byte; "1"%byte; " "%byte;
       "r"%byte; "o"%byte; "w"%byte; ")"%byte; x00] ].
Proof. vm_compute. reflexivity. Qed.

(** DISCARD ALL on the connection with the statement [s] and the portal
    [p]. *)
Lemma DiscardAll_clears_witness :
  exists c',
    DiscardAll connPortal = Ret None c'
    /\ stmts c' = ∅ /\ portals c' = ∅
    /\ sent (wire c') = sent (wire connPortal) ++ [commandCompleteFrame "DISCARD ALL"]
    /\ (exists closed,
          calls c' = calls connPortal ++ closed
          /\ forall e, e ∈ closed <->
               exists name d st, stmts connPortal !! name = Some d
                                 /\ stmt d = Some st
                                 /\ e = CallClose (stmt_text st))
    /\ (forall name portalName args,
          exists c'',
            Bind name portalName args c' = Ret None c''
            /\ sent (wire c'')
               = sent (wire c')
                 ++ [errorFrame ("prepared statement " +:+ name +:+ " not found")]).
Proof. apply (DiscardAll_clears connPortal). reflexivity. Defined.

Example DiscardAll_closes_statement :
  calls (state_of (DiscardAll connPortal)) = [CallClose "select 1"].
Proof. vm_compute. reflexivity. Qed.

(** A statement the engine refuses, and one whose only row is followed by
    an error. *)
Lemma RunStmt_engine_errors_witness :
  sends (RunStmt (sampleEnv true) (Some refusedStmt) [] true "select a from gone")
        None [errorFrame "Catalog Error: Table gone does not exist"]
  /\ sends (RunStmt (sampleEnv true) (Some brokenStmt) [] false
                    "select a::tinyint from t")
           None
           (map (dataRowFrame (sampleEnv true)) [[VInt64 1]]
            ++ [errorFrame "Conversion Error: out of range"])
  /\ exists rd,
      Typ rd = "T"%byte
      /\ sends (RunStmt (sampleEnv true) (Some brokenStmt) [] true
                        "select a::tinyint from t")
               None
               ([rd] ++ map (dataRowFrame (sampleEnv true)) [[VInt64 1]]
                ++ [errorFrame "Conversion Error: out of range"]).
Proof.
  assert (Hwf : wellFormedRows (sampleEnv true) brokenRows).
  { repeat constructor. eexists. reflexivity. }
  split; [|split].
  - exact (proj1 (RunStmt_engine_errors (sampleEnv true) refusedStmt []
                    "select a from gone") _ true eq_refl).
  - exact (proj1 (proj2 (RunStmt_engine_errors (sampleEnv true) brokenStmt []
                           "select a::tinyint from t") brokenRows _
                        eq_refl eq_refl Hwf)).
  - apply (proj2 (proj2 (proj2 (RunStmt_engine_errors (sampleEnv true) brokenStmt []
                           "select a::tinyint from t") brokenRows _
                        eq_refl eq_refl Hwf))).
    discriminate.
Defined.

Example RunStmt_broken_rows_frames :
  map Typ (sent (wire (state_of
     (RunStmt (sampleEnv true) (Some brokenStmt) [] true
              "select a::tinyint from t" (conn0 [])))))
  = ["T"%byte; "D"%byte; "E"%byte].
Proof. vm_compute. reflexivity. Qed.

(** A query of a space, a tab and a line end. *)
Lemma SimpleQuery_blank_witness :
  exists c',
    SimpleQuery (sampleEnv true) (String " " (String "009" (String "010" EmptyString)))
                (connWith "s")
    = Ret None c'
    /\ sent (wire c') = sent (wire (connWith "s")) ++ [emptyQueryFrame]
    /\ map frame_bytes [emptyQueryFrame] = [["I"%byte; x00; x00; x00; x04]]
    /\ calls c' = calls (connWith "s") /\ stmts c' = stmts (connWith "s")
    /\ portals c' = portals (connWith "s")
    /\ inError c' = false.
Proof.
  apply (SimpleQuery_blank (sampleEnv true) (connWith "s")); reflexivity.
Defined.

(** Three columns of mapped types, and one of FLOAT. *)
Lemma inferred_column_oids_witness :
  (exists c',
      SendRowDescriptionWithColumnNameAndTypes
        [("id", "BIGINT"); ("name", "VARCHAR"); ("day", "DATE")] (conn0 [])
      = Ret None c'
      /\ sent (wire c')
         = sent (wire (conn0 []))
           ++ [NewMessage "T"%byte
                 (Some (cint16 (Z.of_nat 3)
                        ++ concat (zip_with columnField
                                     (map fst [("id", "BIGINT"); ("name", "VARCHAR");
                                               ("day", "DATE")])
                                     [20; 25; 0])))])
  /\ SendRowDescriptionWithColumnNameAndTypes [("id", "BIGINT"); ("f", "FLOAT")]
                                              (conn0 [])
     = Panic "duck2pgType unsupported type" (conn0 []).
Proof.
  split.
  - apply (proj1 (inferred_column_oids (conn0 [])
                    [("id", "BIGINT"); ("name", "VARCHAR"); ("day", "DATE")]
                    eq_refl)).
    repeat constructor.
  - apply (proj2 (inferred_column_oids (conn0 [])
                    [("id", "BIGINT"); ("f", "FLOAT")] eq_refl)).
    apply Exists_cons_tl, Exists_cons_hd. reflexivity.
Defined.

Example inferred_column_bytes :
  map frame_bytes
      (sent (wire (state_of (SendRowDescriptionWithColumnNameAndTypes
                               [("id", "BIGINT")] (conn0 [])))))
  = [ ["T"%byte; x00; x00; x00; x1b; x00; x01; "i"%byte; "d"%byte; x00;
       x00; x00; x00; x00; x00; x00; x00; x00; x00; x14; x00; x00;
       x00; x00; x00; x00; x00; x00] ].
Proof. vm_compute. reflexivity. Qed.

(** 1.50 and 0.05. *)
Lemma duckDecimalToString_value_witness :
  (exists ip fr : string,
      duckDecimalToString oneAndAHalf = ip +:+ "." +:+ fr
      /\ String.length fr = 2%nat
      /\ ip <> EmptyString
      /\ allChars Go.is_digit (ip +:+ fr) = true
      /\ Go.digits_value 0 (ip +:+ fr) = 150)
  /\ duckDecimalToString oneAndAHalf = "1.50"
  /\ duckDecimalToString {| Width := 5; Scale := 2; Value := 5 |} = "0.05".
Proof.
  split; [|split; reflexivity].
  apply (duckDecimalToString_value oneAndAHalf). simpl. lia.
Defined.

(** The type row of four columns. *)
Lemma typesToClickhouseTypes_names_witness :
  length (typesToClickhouseTypes ["INTEGER"; "VARCHAR"; "DATE"; "DOUBLE"]) = 4%nat
  /\ typesToClickhouseTypes ["INTEGER"; "VARCHAR"; "DATE"; "DOUBLE"] !! 2%nat
     = Some "String".
Proof.
  split.
  - exact (proj1 (typesToClickhouseTypes_names
                    ["INTEGER"; "VARCHAR"; "DATE"; "DOUBLE"])).
  - exact (proj2 (typesToClickhouseTypes_names
                    ["INTEGER"; "VARCHAR"; "DATE"; "DOUBLE"]) 2%nat "DATE" eq_refl).
Defined.

(** A proof of 32 zero bytes against the record of alice. *)
Lemma verifyProof_in_range_witness :
  verifyProof toyLib "c3RvcmVk" {[ "p" := zeroProof ]} "n=,r=clientnonce"
  = Some (bool_decide
            (Base64.DecodeString "c3RvcmVk"
             = Sum256 toyLib
                 (zip_with xor_byte (take 32 (replicate 32 x00))
                    (computeHMAC toyLib (Base64.DecodeString "c3RvcmVk")
                                 (Go.bytes_of "n=,r=clientnonce"))))).
Proof.
  apply (verifyProof_in_range toyLib "c3RvcmVk" {[ "p" := zeroProof ]}
           "n=,r=clientnonce" (replicate 32 x00)).
  - vm_compute. reflexivity.
  - simpl. lia.
Defined.

(** A first message that does not decode, and alice without a record. *)
Lemma ScramSha256Auth_failure_result_witness :
  (exists c',
      ScramSha256Auth (sampleEnv true) toyLib "alice"
                      (conn0 (clientFrame [ "x"%byte ]))
      = Ret None c'
      /\ sent (wire c')
         = sent (wire (conn0 (clientFrame [ "x"%byte ])))
           ++ [NewAuthenticationSASLMessage toyLib ["SCRAM-SHA-256"]]
      /\ inError c' = inError (conn0 (clientFrame [ "x"%byte ])))
  /\ (exists c',
        ScramSha256Auth (sampleEnv false) toyLib "alice" (conn0 saslInitial)
        = Ret None c'
        /\ sent (wire c')
           = sent (wire (conn0 saslInitial))
             ++ [NewAuthenticationSASLMessage toyLib ["SCRAM-SHA-256"];
                 errorFrame ("password authentication failed for user "
                             +:+ "alice")]
        /\ inError c' = true).
Proof.
  split.
  - apply (proj1 (ScramSha256Auth_failure_result (sampleEnv true) toyLib "alice"
                    (conn0 (clientFrame [ "x"%byte ]))
                    "p"%byte x00 x00 x00 x05 [ "x"%byte ] []
                    eq_refl I eq_refl
                    ltac:(vm_compute; split; discriminate) eq_refl)
                 "invalid SASLInitialResponse").
    reflexivity.
  - apply (proj2 (ScramSha256Auth_failure_result (sampleEnv false) toyLib "alice"
                    (conn0 saslInitial)
                    "p"%byte x00 x00 x00 x29
                    (cstr "SCRAM-SHA-256" ++ cint32 19
                     ++ Go.bytes_of "n,,n=,r=clientnonce") []
                    eq_refl I eq_refl
                    ltac:(vm_compute; split; discriminate) eq_refl)
                 (Go.bytes_of "n,,n=,r=clientnonce") "clientnonce"
                 "sql: no rows in result set");
      reflexivity.
Defined.

End MoreSamples.
